(** * Quit Coach achievement engine

    A shallow embedding of [src/services/badges.js], [src/services/dailyLogs.js]
    and the part of [src/services/notifications.js] they call: the streak
    calculator, the savings metric, the top-3 leaderboard rank, the condition
    table, and the transactional unlock with its notification fallback.

    Conventions.  JavaScript numbers are idealised: finite values are exact
    rationals and [NaN] is a separate constructor (the infinities and the
    negative zero are left out).  Asynchronous calls are sequenced in program
    order; every call that leaves the process (a Firestore read or write, a
    token refresh, an HTTP request) may fail with an error chosen by the
    environment. *)

From Stdlib Require Import ZArith QArith Qround Lia List Bool String Ascii.
From Stdlib Require PrimFloat SpecFloat FloatOps.
From stdpp Require Import base option list sorting gmap strings.
Import ListNotations.
Local Open Scope Z_scope.

(** ** JavaScript values and coercions *)

Module Js.

(** A JavaScript number: [NaN], an infinity or a finite value.  A finite
    value is a rational; the doubles are the rationals a binary64 holds, and
    every arithmetic result is rounded to one of them ([binary64] below).
    The sign of zero is not kept: [JNum 0] stands for both [0] and [-0],
    which no comparison in this program tells apart. *)
Inductive number : Type :=
| JNaN
| JInf (neg : bool)
| JNum (q : Q).

(** The values that occur as document fields and as arguments. *)
Inductive value : Type :=
| JUndefined
| JNull
| JBool (b : bool)
| JNumber (n : number)
| JString (s : string).

(** What the host decides: how a string converts to a number
    ([Number("12")], [Number("abc")]) and the offset of local time from UTC
    in milliseconds (a zone without daylight-saving changes). *)
Class Runtime : Type := {
  StringToNumber : string -> number;
  LocalTZA : Z
}.

Definition int (z : Z) : number := JNum (inject_Z z).

(** [n === 0] on numbers. *)
Definition is_zero (n : number) : bool :=
  match n with
  | JNaN | JInf _ => false
  | JNum q => Qeq_bool q 0
  end.

(** [n > 0] on numbers. *)
Definition is_pos (n : number) : bool :=
  match n with
  | JNaN => false
  | JInf neg => negb neg
  | JNum q => negb (Qle_bool q 0)
  end.

(** [!n] on numbers: true for [0] and [NaN]. *)
Definition falsy_number (n : number) : bool :=
  match n with
  | JNaN => true
  | JInf _ => false
  | JNum q => Qeq_bool q 0
  end.

(** ToBoolean. *)
Definition truthy (v : value) : bool :=
  match v with
  | JUndefined | JNull => false
  | JBool b => b
  | JNumber n => negb (falsy_number n)
  | JString s => negb (s =? "")%string
  end.

(** [a || b] *)
Definition or_else (a b : value) : value := if truthy a then a else b.

(** [a ?? b] *)
Definition nullish (a b : value) : value :=
  match a with
  | JUndefined | JNull => b
  | _ => a
  end.

(** [Number(v)] *)
Definition ToNumber `{Runtime} (v : value) : number :=
  match v with
  | JUndefined => JNaN
  | JNull => int 0
  | JBool b => if b then int 1 else int 0
  | JNumber n => n
  | JString s => StringToNumber s
  end.

(** *** Double-precision arithmetic

    IEEE 754 binary64, round to nearest, ties to even: 53 significant bits,
    the least unit [2^-1074], overflow to an infinity from [2^1024 - 2^970]
    on.  [n] and [d] are positive. *)

(** The exponent of the leading bit of [n / d]: the [e] with
    [2^e <= n / d < 2^(e+1)]. *)
Definition ilog2 (n d : Z) : Z :=
  let e0 := Z.log2 n - Z.log2 d in
  if (if 0 <=? e0 then d * 2 ^ e0 <=? n else d <=? n * 2 ^ (- e0)) then e0 else e0 - 1.

(** The integer nearest to [num / den], halves to the even one. *)
Definition nearest_even (num den : Z) : Z :=
  let m := num / den in
  match 2 * (num mod den) ?= den with
  | Lt => m
  | Gt => m + 1
  | Eq => if Z.even m then m else m + 1
  end.

(** The double nearest to the rational [q]. *)
Definition binary64 (q : Q) : number :=
  let n := Z.abs (Qnum q) in
  let d := Zpos (Qden q) in
  let neg := Qnum q <? 0 in
  if n =? 0 then JNum 0
  else
    (* the unit in the last place is 2^u *)
    let u := Z.max (ilog2 n d - 52) (-1074) in
    let m := if 0 <=? u then nearest_even n (d * 2 ^ u) else nearest_even (n * 2 ^ (- u)) d in
    let s := if neg then - m else m in
    if 0 <=? u then
      if 2 ^ 1024 <=? m * 2 ^ u then JInf neg else JNum (inject_Z (s * 2 ^ u))
    else JNum (Qred (Qmake s (Z.to_pos (2 ^ (- u))))).

(** The sign of a number that is not zero. *)
Definition negative (q : Q) : bool := Qnum q <? 0.

(** [a / b].  A zero divisor is taken as [+0]. *)
Definition div (a b : number) : number :=
  match a, b with
  | JNaN, _ | _, JNaN => JNaN
  | JInf _, JInf _ => JNaN
  | JInf s, JNum y => JInf (xorb s (negative y))
  | JNum _, JInf _ => JNum 0
  | JNum x, JNum y =>
      if Qeq_bool y 0 then (if Qeq_bool x 0 then JNaN else JInf (negative x))
      else binary64 (x / y)
  end.

(** [a * b] *)
Definition mul (a b : number) : number :=
  match a, b with
  | JNaN, _ | _, JNaN => JNaN
  | JInf s, JInf t => JInf (xorb s t)
  | JInf s, JNum y | JNum y, JInf s => if Qeq_bool y 0 then JNaN else JInf (xorb s (negative y))
  | JNum x, JNum y => binary64 (x * y)
  end.

(** The number a double of the kernel stands for, to compare [binary64]
    with the hardware's rounding. *)
Definition of_float (f : PrimFloat.float) : number :=
  match FloatOps.Prim2SF f with
  | SpecFloat.S754_zero _ => JNum 0
  | SpecFloat.S754_infinity s => JInf s
  | SpecFloat.S754_nan => JNaN
  | SpecFloat.S754_finite s m e =>
      let z := if s then Zneg m else Zpos m in
      if 0 <=? e then JNum (inject_Z (z * 2 ^ e))
      else JNum (Qred (Qmake z (Z.to_pos (2 ^ (- e)))))
  end.

(** [Math.round]: the nearest integer, halves towards +infinity; exact on
    doubles. *)
Definition round (a : number) : number :=
  match a with
  | JNaN => JNaN
  | JInf s => JInf s
  | JNum x => int (Qfloor (x + (1 # 2)))
  end.

(** [a >= k] for an integer constant [k]; false on [NaN]. *)
Definition ge (a : number) (k : Z) : bool :=
  match a with
  | JNaN => false
  | JInf neg => negb neg
  | JNum x => Qle_bool (inject_Z k) x
  end.

(** [a === b] *)
Definition strict_eq (a b : value) : bool :=
  match a, b with
  | JUndefined, JUndefined => true
  | JNull, JNull => true
  | JBool x, JBool y => Bool.eqb x y
  | JNumber (JNum x), JNumber (JNum y) => Qeq_bool x y
  | JNumber (JInf s), JNumber (JInf t) => Bool.eqb s t
  | JString x, JString y => (x =? y)%string
  | _, _ => false
  end.

(** [s.includes(sub)] *)
Fixpoint includes (sub s : string) : bool :=
  match s with
  | EmptyString => String.prefix sub EmptyString
  | String _ s' => String.prefix sub s || includes sub s'
  end.

(** A string-or-null argument: [!s]. *)
Definition missing (s : option string) : bool :=
  match s with
  | None => true
  | Some x => (x =? "")%string
  end.

End Js.

(** ** The ECMAScript calendar *)

Module JsDate.
Import Js.

Definition msPerDay : Z := 86400000.

(** Day number (days since 1970-01-01) of a proleptic Gregorian date. *)
Definition days_from_civil (y m d : Z) : Z :=
  let y' := if m <=? 2 then y - 1 else y in
  let era := y' / 400 in
  let yoe := y' - era * 400 in
  let mp := if 2 <? m then m - 3 else m + 9 in
  let doy := (153 * mp + 2) / 5 + d - 1 in
  let doe := yoe * 365 + yoe / 4 - yoe / 100 + doy in
  era * 146097 + doe - 719468.

(** The date of a day number. *)
Definition civil_from_days (n : Z) : Z * Z * Z :=
  let z := n + 719468 in
  let era := z / 146097 in
  let doe := z - era * 146097 in
  let yoe := (doe - doe / 1460 + doe / 36524 - doe / 146096) / 365 in
  let doy := doe - (365 * yoe + yoe / 4 - yoe / 100) in
  let mp := (5 * doy + 2) / 153 in
  let d := doy - (153 * mp + 2) / 5 + 1 in
  let m := if mp <? 10 then mp + 3 else mp - 9 in
  let y := yoe + era * 400 in
  (if m <=? 2 then y + 1 else y, m, d).

Definition isLeap (y : Z) : bool :=
  (y mod 4 =? 0) && (negb (y mod 100 =? 0) || (y mod 400 =? 0)).

Definition daysInMonth (y m : Z) : Z :=
  if m =? 2 then (if isLeap y then 29 else 28)
  else if (m =? 4) || (m =? 6) || (m =? 9) || (m =? 11) then 30
  else 31.

Definition Day (t : Z) : Z := t / msPerDay.
Definition TimeWithinDay (t : Z) : Z := t mod msPerDay.

(** [MakeDay(year, month, date)] with a 0-based month in range. *)
Definition MakeDay (year month date : Z) : Z :=
  days_from_civil year (month + 1) 1 + date - 1.

Definition MakeDate (day time : Z) : Z := day * msPerDay + time.

Definition LocalTime `{Runtime} (t : Z) : Z := t + LocalTZA.
Definition UTC `{Runtime} (t : Z) : Z := t - LocalTZA.

(** *** Reading a date-time string *)

Definition digit (c : ascii) : option Z :=
  let n := Z.of_N (N_of_ascii c) in
  if (48 <=? n) && (n <=? 57) then Some (n - 48) else None.

Fixpoint digits (acc : Z) (cs : list ascii) : option Z :=
  match cs with
  | [] => Some acc
  | c :: cs' =>
      match digit c with
      | Some d => digits (10 * acc + d) cs'
      | None => None
      end
  end.

Definition number_of (cs : list ascii) : option Z := digits 0 cs.

(** [new Date(s)] for [s] of the form [YYYY-MM-DDTHH:mm:ss]: a date-time
    without an offset is local time.  [None] is the invalid date; strings
    of another shape are read as invalid, and so is a day the month does
    not have, as the format of ECMAScript requires (an engine that rolls
    such a day over into the next month is not described here). *)
Definition parse_local `{Runtime} (s : string) : option Z :=
  match list_ascii_of_string s with
  | [y1; y2; y3; y4; d1; m1; m2; d2; a1; a2; tT; h1; h2; c1; i1; i2; c2; s1; s2] =>
      if negb ((d1 =? "-")%char && (d2 =? "-")%char && (tT =? "T")%char
               && (c1 =? ":")%char && (c2 =? ":")%char)
      then None
      else
        match number_of [y1; y2; y3; y4], number_of [m1; m2], number_of [a1; a2],
              number_of [h1; h2], number_of [i1; i2], number_of [s1; s2] with
        | Some y, Some m, Some d, Some hh, Some mi, Some ss =>
            if (1 <=? m) && (m <=? 12) && (1 <=? d) && (d <=? daysInMonth y m)
               && (hh <=? 23) && (mi <=? 59) && (ss <=? 59)
            then Some (UTC (MakeDate (MakeDay y (m - 1) d)
                                     (hh * 3600000 + mi * 60000 + ss * 1000)))
            else None
        | _, _, _, _, _, _ => None
        end
  | _ => None
  end.

(** *** The accessors used by the source *)

Definition YearFromTime (t : Z) : Z := fst (fst (civil_from_days (Day t))).
(** 0-based, as in ECMAScript. *)
Definition MonthFromTime (t : Z) : Z := snd (fst (civil_from_days (Day t))) - 1.
Definition DateFromTime (t : Z) : Z := snd (civil_from_days (Day t)).

(** [d.getDate()] *)
Definition getDate `{Runtime} (t : Z) : Z := DateFromTime (LocalTime t).

(** [d.setDate(dt)] *)
Definition setDate `{Runtime} (t dt : Z) : Z :=
  let lt := LocalTime t in
  UTC (MakeDate (MakeDay (YearFromTime lt) (MonthFromTime lt) dt) (TimeWithinDay lt)).

(** *** Printing *)

Definition digit_char (d : Z) : ascii := ascii_of_N (Z.to_N (48 + d mod 10)).

Fixpoint pad (width : nat) (n : Z) : string :=
  match width with
  | O => EmptyString
  | S w => (pad w (n / 10) ++ String (digit_char n) EmptyString)%string
  end.

(** [d.toISOString()]: always UTC.  Years outside 0..9999 use the expanded
    six-digit form with a sign. *)
Definition toISOString (t : Z) : string :=
  let '(y, m, d) := civil_from_days (Day t) in
  let ms := TimeWithinDay t in
  let year :=
    if ((0 <=? y) && (y <=? 9999))%Z then pad 4 y
    else ((if (y <? 0)%Z then "-" else "+") ++ pad 6 (Z.abs y))%string in
  (year ++ "-" ++ pad 2 m ++ "-" ++ pad 2 d ++ "T"
     ++ pad 2 (ms / 3600000) ++ ":" ++ pad 2 (ms / 60000 mod 60) ++ ":"
     ++ pad 2 (ms / 1000 mod 60) ++ "." ++ pad 3 (ms mod 1000) ++ "Z")%string.

(** [s.slice(0, 10)] *)
Definition slice10 (s : string) : string := substring 0 10 s.

End JsDate.

(** ** The environment: Firestore, the auth state, the notification back end *)

Module Fire.
Import Js.

(** A thrown error, as the handlers inspect it: [e.code] (empty when the
    error has none) and [e.message]. *)
Record Error : Type := { code : string; message : string }.

(** users/{uid}/badges/{badgeId} *)
Record BadgeDoc : Type := {
  unlockedAt : option Z;
  seen : option bool;
  seenAt : option Z
}.

(** users/{uid}: the profile fields the evaluator reads. *)
Record Profile : Type := {
  quit_date : value;
  cigarettes_per_day_before : value;
  cost_per_pack : value;
  cigarettes_per_pack : value;
  ai_messages_count : value;
  audio_sessions_count : value;
  health_stage_id : value;
  createdAt : value
}.

(** users/{uid}/dailyLogs/{date}: the fields the streak queries filter on. *)
Record LogDoc : Type := {
  date : value;
  cigarettes_smoked : value;
  smoke_free : value
}.

(** Challenge/{id} *)
Record Challenge : Type := {
  user_id : value;
  completed : value
}.

(** leaderboard/{docId}.  A metric is [None] when the field is missing or
    not a number; [uid_field] is the optional explicit [uid] field. *)
Record LeaderRow : Type := {
  uid_field : value;
  points : option number;
  streak : option number;
  saved : option number
}.

(** users/{uid}/notifications/{auto id} *)
Record Notification : Type := {
  n_title : string;
  n_body : string;
  n_type : string;
  n_badgeId : string;
  n_read : bool;
  n_createdAt : Z
}.

(** What leaves the process, in the order it happens. *)
Inductive Event : Type :=
| EvRead (path : string)
| EvTransaction (uid badgeId : string)
| EvBadgeSet (uid badgeId : string)
| EvLogSet (uid day : string)
| EvServerNotify (badgeId badgeName : string)
| EvLocalNotify (title body : string)
| EvAddNotification (uid : string)
| EvToken
| EvFetch (url : string)
| EvWarn (msg : string).

Record World : Type := {
  currentUser : option string;
  clock : Z;
  users : gmap string Profile;
  dailyLogs : gmap (string * string) LogDoc;
  badges : gmap (string * string) BadgeDoc;
  challenges : gmap string Challenge;
  leaderboard : gmap string LeaderRow;
  notifications : list (string * Notification);
  inFlightUnlocks : gset string;
  isNativePlatform : bool;
  idToken : option string;
  faults : list (option Error);
  trace : list Event
}.

Definition with_clock (c : Z) (w : World) : World :=
  {| currentUser := currentUser w; clock := c; users := users w;
     dailyLogs := dailyLogs w; badges := badges w; challenges := challenges w;
     leaderboard := leaderboard w; notifications := notifications w;
     inFlightUnlocks := inFlightUnlocks w; isNativePlatform := isNativePlatform w;
     idToken := idToken w; faults := faults w; trace := trace w |}.

Definition with_dailyLogs (d : gmap (string * string) LogDoc) (w : World) : World :=
  {| currentUser := currentUser w; clock := clock w; users := users w;
     dailyLogs := d; badges := badges w; challenges := challenges w;
     leaderboard := leaderboard w; notifications := notifications w;
     inFlightUnlocks := inFlightUnlocks w; isNativePlatform := isNativePlatform w;
     idToken := idToken w; faults := faults w; trace := trace w |}.

Definition with_badges (b : gmap (string * string) BadgeDoc) (w : World) : World :=
  {| currentUser := currentUser w; clock := clock w; users := users w;
     dailyLogs := dailyLogs w; badges := b; challenges := challenges w;
     leaderboard := leaderboard w; notifications := notifications w;
     inFlightUnlocks := inFlightUnlocks w; isNativePlatform := isNativePlatform w;
     idToken := idToken w; faults := faults w; trace := trace w |}.

Definition with_notifications (n : list (string * Notification)) (w : World) : World :=
  {| currentUser := currentUser w; clock := clock w; users := users w;
     dailyLogs := dailyLogs w; badges := badges w; challenges := challenges w;
     leaderboard := leaderboard w; notifications := n;
     inFlightUnlocks := inFlightUnlocks w; isNativePlatform := isNativePlatform w;
     idToken := idToken w; faults := faults w; trace := trace w |}.

Definition with_inFlight (s : gset string) (w : World) : World :=
  {| currentUser := currentUser w; clock := clock w; users := users w;
     dailyLogs := dailyLogs w; badges := badges w; challenges := challenges w;
     leaderboard := leaderboard w; notifications := notifications w;
     inFlightUnlocks := s; isNativePlatform := isNativePlatform w;
     idToken := idToken w; faults := faults w; trace := trace w |}.

Definition with_faults (f : list (option Error)) (w : World) : World :=
  {| currentUser := currentUser w; clock := clock w; users := users w;
     dailyLogs := dailyLogs w; badges := badges w; challenges := challenges w;
     leaderboard := leaderboard w; notifications := notifications w;
     inFlightUnlocks := inFlightUnlocks w; isNativePlatform := isNativePlatform w;
     idToken := idToken w; faults := f; trace := trace w |}.

Definition with_trace (t : list Event) (w : World) : World :=
  {| currentUser := currentUser w; clock := clock w; users := users w;
     dailyLogs := dailyLogs w; badges := badges w; challenges := challenges w;
     leaderboard := leaderboard w; notifications := notifications w;
     inFlightUnlocks := inFlightUnlocks w; isNativePlatform := isNativePlatform w;
     idToken := idToken w; faults := faults w; trace := t |}.

(** *** Computations that read and change the world and may throw *)

Inductive Res (A : Type) : Type :=
| Ok (a : A)
| Throw (e : Error).
Arguments Ok {A} a.
Arguments Throw {A} e.

Definition M (A : Type) : Type := World -> Res A * World.

#[export] Instance M_ret : MRet M := fun A a w => (Ok a, w).

#[export] Instance M_bind : MBind M := fun A B k m w =>
  match m w with
  | (Ok a, w') => k a w'
  | (Throw e, w') => (Throw e, w')
  end.

Definition throw {A} (e : Error) : M A := fun w => (Throw e, w).

(** [try { m } catch (e) { h e }] *)
Definition catch {A} (m : M A) (h : Error -> M A) : M A := fun w =>
  match m w with
  | (Ok a, w') => (Ok a, w')
  | (Throw e, w') => h e w'
  end.

(** [try { m } finally { f }] for a finaliser that only updates the world. *)
Definition finally {A} (m : M A) (f : World -> World) : M A := fun w =>
  let '(r, w') := m w in (r, f w').

(** Settle a computation into its outcome (one operand of [Promise.all]). *)
Definition settle {A} (m : M A) : M (Res A) := fun w =>
  let '(r, w') := m w in (Ok r, w').

Definition gets {A} (f : World -> A) : M A := fun w => (Ok (f w), w).
Definition modify (f : World -> World) : M unit := fun w => (Ok tt, f w).
Definition emit (ev : Event) : M unit := modify (fun w => with_trace (trace w ++ [ev]) w).

(** [console.warn] *)
Definition warn (msg : string) : M unit := emit (EvWarn msg).

(** The fault the environment has in store for the next call. *)
Definition nextFault (w : World) : option Error :=
  match faults w with
  | Some e :: _ => Some e
  | _ => None
  end.

(** The world once a call has been issued: the call is recorded, a
    millisecond has passed and its fault entry is consumed. *)
Definition called (ev : Event) (w : World) : World :=
  with_faults (tail (faults w))
    (with_clock (clock w + 1) (with_trace (trace w ++ [ev]) w)).

(** One call that leaves the process: the environment's next fault entry
    decides whether it throws (then [op] has no effect) or runs. *)
Definition external {A} (ev : Event) (op : World -> A * World) : M A := fun w =>
  match nextFault w with
  | Some e => (Throw e, called ev w)
  | None => let '(a, w2) := op (called ev w) in (Ok a, w2)
  end.

Definition read {A} (path : string) (f : World -> A) : M A :=
  external (EvRead path) (fun w => (f w, w)).

(** *** Transactions on badge documents *)

Record TxState : Type := {
  tx_docs : gmap (string * string) BadgeDoc;
  tx_writes : list (string * string)
}.

Definition Tx (A : Type) : Type := TxState -> A * TxState.

Definition tx_ret {A} (a : A) : Tx A := fun s => (a, s).
Definition tx_bind {A B} (m : Tx A) (k : A -> Tx B) : Tx B := fun s =>
  let '(a, s') := m s in k a s'.

(** [tx.get(ref)]: the snapshot; [snap.exists()] is [is_Some]. *)
Definition tx_get (ref : string * string) : Tx (option BadgeDoc) := fun s =>
  (tx_docs s !! ref, s).

(** Field-wise merge of a patch into a document ([{ merge: true }]). *)
Definition merge_badge (old : option BadgeDoc) (patch : BadgeDoc) : BadgeDoc :=
  match old with
  | None => patch
  | Some o =>
      {| unlockedAt := match unlockedAt patch with Some x => Some x | None => unlockedAt o end;
         seen := match seen patch with Some x => Some x | None => seen o end;
         seenAt := match seenAt patch with Some x => Some x | None => seenAt o end |}
  end.

(** [tx.set(ref, patch, { merge: true })] *)
Definition tx_set_merge (ref : string * string) (patch : BadgeDoc) : Tx unit := fun s =>
  (tt, {| tx_docs := <[ref := merge_badge (tx_docs s !! ref) patch]> (tx_docs s);
          tx_writes := tx_writes s ++ [ref] |}).

(** [runTransaction(db, body)]: the body runs atomically on the badge
    collection and its writes are committed together, or the call throws
    and nothing is written.  [serverTimestamp()] is the commit time. *)
Definition runTransaction {A} (uid badgeId : string) (body : Z -> Tx A) : M A :=
  external (EvTransaction uid badgeId) (fun w =>
    let '(a, s) := body (clock w) {| tx_docs := badges w; tx_writes := [] |} in
    (a, with_trace (trace w ++ map (fun r => EvBadgeSet r.1 r.2) (tx_writes s))
          (with_badges (tx_docs s) w))).

(** [getFirebaseIdToken(true)] *)
Definition getFirebaseIdToken : M (option string) :=
  external EvToken (fun w => (idToken w, w)).

(** [fetch(url, ...)] followed by the caller's [resp.ok] test: a fault is a
    network error or a response that is not ok. *)
Definition fetch (url : string) : M unit :=
  external (EvFetch url) (fun w => (tt, w)).

End Fire.

(** ** src/services/notifications.js *)

Module Notifications.
Import Js Fire.

(** [createAndPushNotification({ title, body, type, data: { badgeId }, sendPush })];
    returns the position of the new card in place of its generated id. *)
Definition createAndPushNotification
    (title body type badgeId : string) (sendPush : bool) : M nat :=
  _ ← emit (EvLocalNotify title body);
  uid ← gets currentUser;
  if missing uid then throw {| code := ""; message := "No authenticated user" |}
  else
    let u := default "" uid in
    ref ← external (EvAddNotification u) (fun w =>
             (length (notifications w),
              with_notifications
                (notifications w ++
                   [(u, {| n_title := if (title =? "")%string then "Notification" else title;
                           n_body := body;
                           n_type := if (type =? "")%string then "generic" else type;
                           n_badgeId := badgeId;
                           n_read := false;
                           n_createdAt := clock w |})]) w));
    native ← gets isNativePlatform;
    if sendPush && native then
      tok ← getFirebaseIdToken;
      if missing tok then mret ref
      else
        (* fetch(...).catch(() => { }) *)
        _ ← catch (fetch "/push/send") (fun _ => mret tt);
        mret ref
    else mret ref.

(** [notifyBadgeUnlocked({ badgeId, badgeName })] *)
Definition notifyBadgeUnlocked (badgeId badgeName : string) : M unit :=
  _ ← emit (EvServerNotify badgeId badgeName);
  tok ← getFirebaseIdToken;
  if missing tok then throw {| code := ""; message := "No ID token" |}
  else fetch "/push/badge-unlocked".

End Notifications.

(** ** src/services/dailyLogs.js *)

Module DailyLogs.
Import Js JsDate Fire.

(** The [data] argument of [upsertDailyLog]: the two fields it normalises. *)
Record LogInput : Type := {
  in_cigarettes_smoked : value;
  in_smoke_free : value
}.

Definition input_field (data : option LogInput) (f : LogInput -> value) : value :=
  match data with
  | Some d => f d
  | None => JUndefined
  end.

(** The [normalized] object of [upsertDailyLog]. *)
Definition normalized `{Runtime} (day : string) (data : option LogInput) : LogDoc :=
  let cigCount := ToNumber (nullish (input_field data in_cigarettes_smoked) (JNumber (int 0))) in
  {| date := JString day;
     cigarettes_smoked := JNumber cigCount;
     smoke_free :=
       match input_field data in_smoke_free with
       | JBool b => JBool (b && is_zero cigCount)
       | _ => JBool (is_zero cigCount)
       end |}.

(** [upsertDailyLog(uid, date, data)]; the result stands for [{ ok: true }]. *)
Definition upsertDailyLog `{Runtime} (uid day : string) (data : option LogInput) : M bool :=
  _ ← external (EvLogSet uid day) (fun w =>
         (tt, with_dailyLogs (<[(uid, day) := normalized day data]> (dailyLogs w)) w));
  mret true.

(** The documents of users/{uid}/dailyLogs. *)
Definition logsOf (uid : string) (w : World) : list LogDoc :=
  snd <$> filter (fun kv => kv.1.1 = uid) (map_to_list (dailyLogs w)).

(** [where("smoke_free", "==", false)] *)
Definition is_false (v : value) : bool :=
  match v with
  | JBool false => true
  | _ => false
  end.

(** [where("cigarettes_smoked", ">", 0)] *)
Definition gt_zero (v : value) : bool :=
  match v with
  | JNumber n => is_pos n
  | _ => false
  end.

(** [where("date", ">=", lo)] and [where("date", "<=", hi)] *)
Definition in_range (lo hi : string) (v : value) : bool :=
  match v with
  | JString s => String.leb lo s && String.leb s hi
  | _ => false
  end.

Definition date_string (d : LogDoc) : string :=
  match date d with
  | JString s => s
  | _ => EmptyString
  end.

(** Descending order on strings, as [orderBy("date", "desc")] and the
    comparator of [candidates.sort] have it. *)
Definition desc (a b : string) : Prop := String.leb b a = true.

#[export] Instance desc_dec a b : Decision (desc a b).
Proof. unfold desc. apply _. Defined.

(** [query(col, where(flag), where("date", ">=", lo), where("date", "<=", hi),
    orderBy("date", "desc"), limit(1))], projected on the date. *)
Definition slipQuery (flag : LogDoc -> bool) (lo hi : string) (docs : list LogDoc)
  : list string :=
  take 1 (merge_sort desc
            (date_string <$>
               List.filter (fun d => flag d && in_range lo hi (date d)) docs)).

Record Streak : Type := {
  current_streak_days : number;
  streak_start_date : option string;
  last_slip_date : option string
}.

(** The inner [nextDay]; [toISOString] throws on an invalid date. *)
Definition nextDay `{Runtime} (iso : string) : Res string :=
  match parse_local (iso ++ "T00:00:00") with
  | None => Throw {| code := ""; message := "Invalid time value" |}
  | Some d => Ok (slice10 (toISOString (setDate d (getDate d + 1))))
  end.

(** [Math.max(0, Math.floor((dToday - dStart) / msPerDay))] *)
Definition diffDays `{Runtime} (startIso todayIso : string) : number :=
  match parse_local (startIso ++ "T00:00:00"), parse_local (todayIso ++ "T00:00:00") with
  | Some dStart, Some dToday => int (Z.max 0 ((dToday - dStart) / msPerDay))
  | _, _ => JNaN
  end.

(** What [computeStreakFromQuit] does with the two query results. *)
Definition streakOf `{Runtime} (quitIso todayIso : string) (snap1 snap2 : list string)
  : Res Streak :=
  let candidates := merge_sort desc (take 1 snap1 ++ take 1 snap2) in
  let lastSlipIso := head candidates in
  let start :=
    if missing lastSlipIso then Ok quitIso
    else nextDay (default EmptyString lastSlipIso) in
  match start with
  | Throw e => Throw e
  | Ok startIso =>
      Ok {| current_streak_days := diffDays startIso todayIso;
            streak_start_date := Some startIso;
            last_slip_date := lastSlipIso |}
  end.

Definition computeStreakFromQuit `{Runtime}
    (uid : string) (quitIso : option string) (todayIso : string) : M Streak :=
  if missing quitIso then
    mret {| current_streak_days := int 0; streak_start_date := None; last_slip_date := None |}
  else
    let q := default EmptyString quitIso in
    (* Promise.all([getDocs(qSlip), getDocs(qCigs)]) *)
    r1 ← settle (read "dailyLogs" (fun w =>
            slipQuery (fun d => is_false (smoke_free d)) q todayIso (logsOf uid w)));
    r2 ← settle (read "dailyLogs" (fun w =>
            slipQuery (fun d => gt_zero (cigarettes_smoked d)) q todayIso (logsOf uid w)));
    match r1, r2 with
    | Throw e, _ => throw e
    | _, Throw e => throw e
    | Ok snap1, Ok snap2 =>
        match streakOf q todayIso snap1 snap2 with
        | Throw e => throw e
        | Ok s => mret s
        end
    end.

(** [getDailyLog(uid, date)]: [{ id: date, ...snap.data() }] or null. *)
Definition getDailyLog (uid day : string) : M (option (string * LogDoc)) :=
  read "dailyLogs" (fun w => (fun d => (day, d)) <$> dailyLogs w !! (uid, day)).

End DailyLogs.

(** ** src/pages/DailyLog.jsx: what the form saves *)

Module DailyLogPage.
Import Js Fire DailyLogs.

(** The [payload] of [handleSave], for the form's cigarette count
    [form.cigarettes_smoked]: the two fields [upsertDailyLog] normalises. *)
Definition payload `{Runtime} (form_cigarettes_smoked : value) : LogInput :=
  {| in_cigarettes_smoked :=
       JNumber (ToNumber (or_else form_cigarettes_smoked (JNumber (int 0))));
     in_smoke_free :=
       JBool (is_zero (ToNumber (or_else form_cigarettes_smoked (JNumber (int 0))))) |}.

(** The write of [handleSave]: [upsertDailyLog(uid, selectedDate, payload)]. *)
Definition save `{Runtime} (uid selectedDate : string) (form_cigarettes_smoked : value)
  : M bool :=
  upsertDailyLog uid selectedDate (Some (payload form_cigarettes_smoked)).

End DailyLogPage.

(** ** src/services/badges.js *)

Module Badges.
Import Js JsDate Fire Notifications DailyLogs.

(** The titles of [BADGE_META], byte for byte as the file stores them (its
    characters outside ASCII are encoded twice). *)
Definition BADGE_META : list (string * string) :=
  [ ("streak1", "1-Day Streak"); ("streak2", "2-Day Streak"); ("streak3", "3-Day Streak");
    ("streak5", "5-Day Streak"); ("streak10", "10-Day Streak"); ("streak20", "20-Day Streak");
    ("streak30", "30-Day Streak"); ("streak50", "50-Day Streak"); ("streak75", "75-Day Streak");
    ("streak100", "100-Day Streak"); ("streak200", "200-Day Streak");
    ("streak365", "365-Day Streak"); ("streak500", "500-Day Streak");
    ("streak600", "600-Day Streak"); ("streak700", "700-Day Streak");
    ("streak800", "800-Day Streak"); ("streak900", "900-Day Streak");
    ("streak1000", "1000-Day Streak");
    ("log", "Make 10 Daily Logs"); ("log2", "Make 30 Daily Logs"); ("log3", "Make 100 Daily Logs");
    ("ai1", "10 AI Coach Messages"); ("ai2", "30 AI Coach Messages");
    ("ai3", "100 AI Coach Messages");
    ("hypnosis1", "Listen to 2 Hypnosis Sessions"); ("hypnosis2", "Listen to 6 Hypnosis Sessions");
    ("hypnosis3", "Listen to 10 Hypnosis Sessions");
    ("saving", "â‚¬100 Saved"); ("saving2", "â‚¬500 Saved"); ("saving3", "â‚¬1000 Saved");
    ("welcome", "Welcome to the Club");
    ("leader_points_1", "Leaderboard #1 (Points)"); ("leader_points_2", "Leaderboard #2 (Points)");
    ("leader_points_3", "Leaderboard #3 (Points)");
    ("leader_streak_1", "Leaderboard #1 (Streak)"); ("leader_streak_2", "Leaderboard #2 (Streak)");
    ("leader_streak_3", "Leaderboard #3 (Streak)");
    ("leader_saved_1", "Leaderboard #1 (Saved)"); ("leader_saved_2", "Leaderboard #2 (Saved)");
    ("leader_saved_3", "Leaderboard #3 (Saved)");
    ("challenge30", "Complete 30 Challenges"); ("challenge60", "Complete 60 Challenges");
    ("challenge90", "Complete 90 Challenges");
    ("health", "Health Milestone: 2â€“12 Weeks"); ("health2", "Health Milestone: 1 Month");
    ("health3", "Health Milestone: 6 Months") ].

Fixpoint assoc {A} (k : string) (l : list (string * A)) : option A :=
  match l with
  | [] => None
  | (k', v) :: l' => if (k =? k')%string then Some v else assoc k l'
  end.

(** [(BADGE_META[badgeId] || {}).title || ""] *)
Definition titleOf (badgeId : string) : string := default EmptyString (assoc badgeId BADGE_META).

Definition HEALTH_STAGE_RANK : list (string * Z) :=
  [ ("wk2_to_wk12", 4); ("mo1", 5); ("mo6", 7) ].

(** *** getLeaderboardRankTop3 *)

Definition metric (field : string) (r : LeaderRow) : option number :=
  if (field =? "points")%string then points r
  else if (field =? "streak")%string then streak r
  else if (field =? "saved")%string then saved r
  else None.

(** Firestore's order on numbers: [NaN] below every number, the
    infinities at the two ends. *)
Definition num_leb (a b : number) : bool :=
  match a, b with
  | JNaN, _ => true
  | _, JNaN => false
  | JInf true, _ => true
  | _, JInf true => false
  | _, JInf false => true
  | JInf false, _ => false
  | JNum x, JNum y => Qle_bool x y
  end.

Definition key (field : string) (d : string * LeaderRow) : number :=
  default JNaN (metric field d.2).

(** [a] may come before [b] under [orderBy(field, "desc")]. *)
Definition before (field : string) (a b : string * LeaderRow) : Prop :=
  num_leb (key field b) (key field a) = true.

#[export] Instance before_dec field a b : Decision (before field a b).
Proof. unfold before. apply _. Defined.

(** [orderBy(field, "desc")]: the documents that have the field, largest
    first.  The metrics are numbers, as [publishLeaderboardRow] writes
    them; equal metrics come in the order of the sort (Firestore orders
    them by document id). *)
Definition orderByDesc (field : string) (rows : list (string * LeaderRow))
  : list (string * LeaderRow) :=
  merge_sort (before field)
    (List.filter (fun d => bool_decide (is_Some (metric field d.2))) rows).

(** [query(col, orderBy(field, "desc"), limit(3))] *)
Definition topQuery (field : string) (w : World) : list (string * LeaderRow) :=
  take 3 (orderByDesc field (map_to_list (leaderboard w))).

(** One round of the [snap.forEach] callback on the pair [(rank, pos)]. *)
Definition rankStep (uid : string) (st : option Z * Z) (d : string * LeaderRow)
  : option Z * Z :=
  let pos := st.2 + 1 in
  let docUid := or_else (uid_field d.2) (JString d.1) in
  if strict_eq docUid (JString uid) && bool_decide (st.1 = None)
  then (Some pos, pos)
  else (st.1, pos).

(** The loop of [getLeaderboardRankTop3] on a query snapshot. *)
Definition rankIn (uid : string) (snap : list (string * LeaderRow)) : option Z :=
  (fold_left (rankStep uid) snap (None, 0)).1.

Definition getLeaderboardRankTop3 (field uid : string) : M (option Z) :=
  snap ← read "leaderboard" (topQuery field);
  mret (rankIn uid snap).

(** *** isUnlocked and unlock *)

Definition isUnlocked (uid badgeId : string) : M bool :=
  read "badges" (fun w => bool_decide (is_Some (badges w !! (uid, badgeId)))).

(** The object [unlock] returns: [{ id, skipped?, deduped? }]. *)
Record UnlockResult : Type := {
  r_id : option string;
  r_skipped : option string;
  r_deduped : bool
}.

(** The body passed to [runTransaction]. *)
Definition unlockTx (uid badgeId : string) (now : Z) : Tx bool :=
  let ref := (uid, badgeId) in
  tx_bind (tx_get ref) (fun snap =>
    if bool_decide (is_Some snap) then tx_ret false
    else
      tx_bind
        (tx_set_merge ref {| unlockedAt := Some now; seen := Some false; seenAt := None |})
        (fun _ => tx_ret true)).

(** What [unlock] returns once the record is written: [{ id: badgeId }]. *)
Definition plainResult (badgeId : option string) : UnlockResult :=
  {| r_id := badgeId; r_skipped := None; r_deduped := false |}.

(** [{ id: badgeId, deduped: true }] *)
Definition dedupedResult (badgeId : option string) : UnlockResult :=
  {| r_id := badgeId; r_skipped := None; r_deduped := true |}.

(** [{ id: badgeId, skipped: why }] *)
Definition skippedResult (badgeId : option string) (why : string) : UnlockResult :=
  {| r_id := badgeId; r_skipped := Some why; r_deduped := false |}.

(** The body of the local notification. *)
Definition localBody (b : string) : string :=
  if (titleOf b =? "")%string then "You unlocked a badge ðŸŽ‰"
  else ("You unlocked: " ++ titleOf b)%string.

(** Lines 190-216 of [unlock], after [if (!wrote) return ...]: the server
    route, then the local fallback, each in its own [try]. *)
Definition announce (badgeId : option string) (b : string) : M UnlockResult :=
  sent ← catch
           (_ ← notifyBadgeUnlocked b (titleOf b); mret true)
           (fun e =>
              _ ← warn "notifyBadgeUnlocked failed, falling back to local notification:";
              mret false);
  if sent : bool then mret (plainResult badgeId)
  else
    _ ← catch
          (_ ← createAndPushNotification "New badge unlocked!" (localBody b)
                 "badge_unlocked" b true;
           mret tt)
          (fun err => warn "Local badge unlock notification failed:");
    mret (plainResult badgeId).

(** The [try] block of [unlock] with its [catch]. *)
Definition attempt (badgeId : option string) (u b : string) : M UnlockResult :=
  catch
    (wrote ← runTransaction u b (unlockTx u b);
     if negb wrote then mret (dedupedResult badgeId)
     else announce badgeId b)
    (fun e =>
       if (code e =? "already-exists")%string then mret (dedupedResult badgeId)
       else throw e).

Definition unlock (uid badgeId : option string) : M UnlockResult :=
  if missing uid || missing badgeId then mret (skippedResult badgeId "missing")
  else
    let u := default EmptyString uid in
    let b := default EmptyString badgeId in
    inflight ← gets inFlightUnlocks;
    if bool_decide (b ∈ inflight) then mret (skippedResult badgeId "inflight")
    else
      _ ← modify (fun w => with_inFlight ({[ b ]} ∪ inFlightUnlocks w) w);
      finally (attempt badgeId u b)
              (fun w => with_inFlight (inFlightUnlocks w ∖ {[ b ]}) w).

(** [n] successive calls of [unlock] with the same arguments. *)
Fixpoint unlockTimes (n : nat) (uid badgeId : option string) (w : World) : World :=
  match n with
  | O => w
  | S k => unlockTimes k uid badgeId (unlock uid badgeId w).2
  end.

(** *** Metrics *)

Definition countDailyLogs (uid : string) : M Z :=
  read "dailyLogs" (fun w => Z.of_nat (length (logsOf uid w))).

Definition field (profile : option Profile) (f : Profile -> value) : value :=
  match profile with
  | Some p => f p
  | None => JUndefined
  end.

Definition computeSavingsEuros `{Runtime} (profile : option Profile) (streakDays : number)
  : number :=
  let cpd := ToNumber (or_else (field profile cigarettes_per_day_before) (JNumber (int 0))) in
  let pricePerPack := ToNumber (or_else (field profile cost_per_pack) (JNumber (int 0))) in
  let cigsPerPack := ToNumber (or_else (field profile cigarettes_per_pack) (JNumber (int 20))) in
  if falsy_number cigsPerPack || falsy_number pricePerPack || falsy_number cpd then int 0
  else
    let packsPerDay := div cpd cigsPerPack in
    round (mul (mul packsPerDay pricePerPack) streakDays).

(** *** The evaluator *)

(** The values the condition closures capture. *)
Record Snapshot : Type := {
  profileCreated : bool;
  streakDays : number;
  logsCount : Z;
  aiCount : number;
  hypCount : number;
  savings : number;
  pointsRank : option Z;
  streakRank : option Z;
  savedRank : option Z;
  completedChallenges : Z;
  healthRank : Z
}.

(** [rank === k] *)
Definition rank_is (r : option Z) (k : Z) : bool := bool_decide (r = Some k).

(** The [conditions] array: each id with the value of its check. *)
Definition conditions (s : Snapshot) : list (string * bool) :=
  [ ("welcome", profileCreated s);
    ("streak1", ge (streakDays s) 1);
    ("streak2", ge (streakDays s) 2);
    ("streak3", ge (streakDays s) 3);
    ("streak5", ge (streakDays s) 5);
    ("streak10", ge (streakDays s) 10);
    ("streak20", ge (streakDays s) 20);
    ("streak30", ge (streakDays s) 30);
    ("streak50", ge (streakDays s) 50);
    ("streak75", ge (streakDays s) 75);
    ("streak100", ge (streakDays s) 100);
    ("streak200", ge (streakDays s) 200);
    ("streak365", ge (streakDays s) 365);
    ("streak500", ge (streakDays s) 500);
    ("streak600", ge (streakDays s) 600);
    ("streak700", ge (streakDays s) 700);
    ("streak800", ge (streakDays s) 800);
    ("streak900", ge (streakDays s) 900);
    ("streak1000", ge (streakDays s) 1000);
    ("log", 10 <=? logsCount s);
    ("log2", 30 <=? logsCount s);
    ("log3", 100 <=? logsCount s);
    ("ai1", ge (aiCount s) 10);
    ("ai2", ge (aiCount s) 30);
    ("ai3", ge (aiCount s) 100);
    ("hypnosis1", ge (hypCount s) 2);
    ("hypnosis2", ge (hypCount s) 6);
    ("hypnosis3", ge (hypCount s) 10);
    ("saving", ge (savings s) 100);
    ("saving2", ge (savings s) 500);
    ("saving3", ge (savings s) 1000);
    ("leader_points_1", rank_is (pointsRank s) 1);
    ("leader_points_2", rank_is (pointsRank s) 2);
    ("leader_points_3", rank_is (pointsRank s) 3);
    ("leader_streak_1", rank_is (streakRank s) 1);
    ("leader_streak_2", rank_is (streakRank s) 2);
    ("leader_streak_3", rank_is (streakRank s) 3);
    ("leader_saved_1", rank_is (savedRank s) 1);
    ("leader_saved_2", rank_is (savedRank s) 2);
    ("leader_saved_3", rank_is (savedRank s) 3);
    ("challenge30", 30 <=? completedChallenges s);
    ("challenge60", 60 <=? completedChallenges s);
    ("challenge90", 90 <=? completedChallenges s);
    ("health", 4 <=? healthRank s);
    ("health2", 5 <=? healthRank s);
    ("health3", 7 <=? healthRank s) ].

(** The test both handlers of the evaluator apply to a caught error. *)
Definition isPermissionError (e : Error) : bool :=
  (code e =? "permission-denied")%string
  || includes "insufficient permissions" (message e).

(** [(profile?.quit_date || "").slice(0, 10) || null]; a truthy value that
    is not a string has no [slice] and the call throws. *)
Definition quitIsoOf (profile : option Profile) : Res (option string) :=
  match or_else (field profile quit_date) (JString EmptyString) with
  | JString s =>
      let t := substring 0 10 s in
      Ok (if (t =? "")%string then None else Some t)
  | _ => Throw {| code := ""; message := "slice is not a function" |}
  end.

(** [HEALTH_STAGE_RANK[String(profile?.health_stage_id || "")] ?? -1]; the
    string of a boolean or a number is not a key of the table. *)
Definition healthRankOf (profile : option Profile) : Z :=
  match or_else (field profile health_stage_id) (JString EmptyString) with
  | JString s => default (-1) (assoc s HEALTH_STAGE_RANK)
  | _ => -1
  end.

(** The query that counts completed challenges. *)
Definition completedOf (uid : string) (w : World) : Z :=
  Z.of_nat (length (List.filter
    (fun c => strict_eq (user_id c.2) (JString uid) && strict_eq (completed c.2) (JBool true))
    (map_to_list (challenges w)))).

(** How one iteration of the [for] loop ends. *)
Inductive Step : Type :=
| Next (newlyUnlocked : list string)
| Return (newlyUnlocked : list string).

(** The body of the [for] loop for the entry [(id, check)]. *)
Definition iteration (uid : string) (newlyUnlocked : list string) (entry : string * bool)
  : M Step :=
  let '(id, check) := entry in
  catch
    (unlocked ← isUnlocked uid id;
     if negb unlocked && check
     then
       _ ← unlock (Some uid) (Some id);
       mret (Next (newlyUnlocked ++ [id]))
     else mret (Next newlyUnlocked))
    (fun e =>
       if isPermissionError e then mret (Return newlyUnlocked)
       else
         _ ← warn ("Condition " ++ id ++ " evaluation failed:");
         mret (Next newlyUnlocked)).

Fixpoint iterations (uid : string) (entries : list (string * bool)) (newlyUnlocked : list string)
  : M (list string) :=
  match entries with
  | [] => mret newlyUnlocked
  | entry :: rest =>
      r ← iteration uid newlyUnlocked entry;
      match r with
      | Return l => mret l
      | Next l => iterations uid rest l
      end
  end.

(** The reads that build the snapshot; [inl l] is an early [return l]. *)
Definition snapshot `{Runtime} (uid : string) : M (list string + Snapshot) :=
  profile ← read "users" (fun w => users w !! uid);
  now ← gets clock;
  let todayIso := slice10 (toISOString now) in
  match quitIsoOf profile with
  | Throw e => throw e
  | Ok quitIso =>
      streak ← computeStreakFromQuit uid quitIso todayIso;
      let streakDays :=
        ToNumber (or_else (JNumber (current_streak_days streak)) (JNumber (int 0))) in
      logsCount ← countDailyLogs uid;
      let aiCount := ToNumber (or_else (field profile ai_messages_count) (JNumber (int 0))) in
      let hypCount := ToNumber (or_else (field profile audio_sessions_count) (JNumber (int 0))) in
      let savings := computeSavingsEuros profile streakDays in
      let healthRank := healthRankOf profile in
      cc ← catch
             (n ← read "Challenge" (completedOf uid); mret (inr n))
             (fun e =>
                if (code e =? "permission-denied")%string then mret (inl [])
                else mret (inr 0));
      match cc with
      | inl l => mret (inl l)
      | inr completedChallenges =>
          pointsRank ← getLeaderboardRankTop3 "points" uid;
          streakRank ← getLeaderboardRankTop3 "streak" uid;
          savedRank ← getLeaderboardRankTop3 "saved" uid;
          mret (inr {| profileCreated := truthy (field profile createdAt);
                       streakDays := streakDays;
                       logsCount := logsCount;
                       aiCount := aiCount;
                       hypCount := hypCount;
                       savings := savings;
                       pointsRank := pointsRank;
                       streakRank := streakRank;
                       savedRank := savedRank;
                       completedChallenges := completedChallenges;
                       healthRank := healthRank |})
      end
  end.

(** [getAuth().currentUser?.uid || null] *)
Definition curUid (w : World) : option string :=
  if missing (currentUser w) then None else currentUser w.

Definition evaluateAndUnlockBadges `{Runtime} (uid : option string) : M (list string) :=
  cur ← gets curUid;
  if missing uid || negb (bool_decide (uid = cur)) then mret []
  else
    let u := default EmptyString uid in
    catch
      (s ← snapshot u;
       match s with
       | inl l => mret l
       | inr snap => iterations u (conditions snap) []
       end)
      (fun e =>
         if isPermissionError e then mret []
         else
           _ ← warn "evaluateAndUnlockBadges failed:";
           mret []).

(** *** Reading and marking badges *)

(** The documents of users/{uid}/badges with their ids. *)
Definition badgesOf (uid : string) (w : World) : list (string * BadgeDoc) :=
  (fun kv => (kv.1.2, kv.2)) <$> filter (fun kv => kv.1.1 = uid) (map_to_list (badges w)).

(** [a] may come before [b] under [orderBy("unlockedAt", "desc")]. *)
Definition newerFirst (a b : string * BadgeDoc) : Prop :=
  default 0 (unlockedAt b.2) ≤ default 0 (unlockedAt a.2).

#[export] Instance newerFirst_dec a b : Decision (newerFirst a b).
Proof. unfold newerFirst. apply _. Defined.

(** [getUnlockedBadges(uid, limitN = null)]: the rows [{ id, ...data }] of
    the documents that have [unlockedAt], newest first; [limitN] is a count
    or null, and null or 0 means no limit. *)
Definition getUnlockedBadges (uid : string) (limitN : option nat)
  : M (list (string * BadgeDoc)) :=
  read "badges" (fun w =>
    let rows := merge_sort newerFirst
                  (List.filter (fun d => bool_decide (is_Some (unlockedAt d.2)))
                     (badgesOf uid w)) in
    match limitN with
    | Some (S n) => take (S n) rows
    | _ => rows
    end).

(** [markBadgeSeen(uid, badgeId)]:
    [setDoc(ref, { seen: true, seenAt: serverTimestamp() }, { merge: true })]. *)
Definition markBadgeSeen (uid badgeId : string) : M unit :=
  external (EvBadgeSet uid badgeId) (fun w =>
    (tt, with_badges
           (<[(uid, badgeId) :=
                merge_badge (badges w !! (uid, badgeId))
                  {| unlockedAt := None; seen := Some true; seenAt := Some (clock w) |}]>
              (badges w)) w)).

End Badges.

(** ** Vocabulary of the statements *)

Module Spec.
Import Js JsDate Fire Notifications DailyLogs Badges.

(** The document a successful unlock creates at commit time [now]. *)
Definition newBadge (now : Z) : BadgeDoc :=
  {| unlockedAt := Some now; seen := Some false; seenAt := None |}.

#[export] Instance Event_eq_dec : EqDecision Event.
Proof. solve_decision. Defined.

(** How many times the badge document of [(u, b)] was written. *)
Definition creations (u b : string) (t : list Event) : nat :=
  length (filter (fun ev => ev = EvBadgeSet u b) t).

(** Events of the two notification paths of [unlock]. *)
Definition notifying (ev : Event) : Prop :=
  match ev with
  | EvServerNotify _ _ | EvLocalNotify _ _ | EvAddNotification _ | EvToken | EvFetch _ => True
  | _ => False
  end.

#[export] Instance notifying_dec ev : Decision (notifying ev).
Proof. destruct ev; simpl; apply _. Defined.

(** How many notification-path events a trace holds. *)
Definition notified (t : list Event) : nat := length (filter notifying t).

Definition isServerNotify (b : string) (ev : Event) : Prop :=
  match ev with
  | EvServerNotify b' _ => b' = b
  | _ => False
  end.

#[export] Instance isServerNotify_dec b ev : Decision (isServerNotify b ev).
Proof. destruct ev; simpl; apply _. Defined.

(** How many times the server route was entered for badge [b]. *)
Definition serverNotifies (b : string) (t : list Event) : nat :=
  length (filter (isServerNotify b) t).

(** Events below the two notification entry points. *)
Definition plumbing (ev : Event) : Prop :=
  match ev with
  | EvToken | EvFetch _ | EvWarn _ | EvAddNotification _ => True
  | _ => False
  end.

(** Events that follow the server-route entry in [announce]. *)
Definition quiet (ev : Event) : Prop :=
  match ev with
  | EvToken | EvFetch _ | EvWarn _ | EvAddNotification _ | EvLocalNotify _ _ => True
  | _ => False
  end.

(** Notification code leaves these parts of the world alone. *)
Record frame (w w' : World) : Prop := {
  frame_badges : badges w' = badges w;
  frame_inFlight : inFlightUnlocks w' = inFlightUnlocks w;
  frame_user : currentUser w' = currentUser w
}.

(** The five ways a call of [unlock] can end, with what each leaves
    behind. *)
Inductive outcome (uid bid : option string) (w : World) : Res UnlockResult → World → Prop :=
| out_missing :
    missing uid || missing bid = true →
    outcome uid bid w (Ok (skippedResult bid "missing")) w
| out_inflight :
    missing uid || missing bid = false →
    default EmptyString bid ∈ inFlightUnlocks w →
    outcome uid bid w (Ok (skippedResult bid "inflight")) w
| out_failed e w' :
    missing uid || missing bid = false →
    default EmptyString bid ∉ inFlightUnlocks w →
    nextFault w = Some e →
    frame w w' →
    notifications w' = notifications w →
    trace w' = trace w ++ [EvTransaction (default EmptyString uid) (default EmptyString bid)] →
    outcome uid bid w
      (if (code e =? "already-exists")%string then Ok (dedupedResult bid) else Throw e) w'
| out_deduped w' :
    missing uid || missing bid = false →
    default EmptyString bid ∉ inFlightUnlocks w →
    nextFault w = None →
    is_Some (badges w !! (default EmptyString uid, default EmptyString bid)) →
    frame w w' →
    notifications w' = notifications w →
    trace w' = trace w ++ [EvTransaction (default EmptyString uid) (default EmptyString bid)] →
    outcome uid bid w (Ok (dedupedResult bid)) w'
| out_created w' t :
    missing uid || missing bid = false →
    default EmptyString bid ∉ inFlightUnlocks w →
    nextFault w = None →
    badges w !! (default EmptyString uid, default EmptyString bid) = None →
    badges w' = <[(default EmptyString uid, default EmptyString bid) := newBadge (clock w + 1)]>
                  (badges w) →
    inFlightUnlocks w' = inFlightUnlocks w →
    trace w' = trace w ++ EvTransaction (default EmptyString uid) (default EmptyString bid)
                 :: EvBadgeSet (default EmptyString uid) (default EmptyString bid)
                 :: EvServerNotify (default EmptyString bid) (titleOf (default EmptyString bid))
                 :: t →
    Forall quiet t →
    outcome uid bid w (Ok (plainResult bid)) w'.

(** The environment lets the next [k] calls through and refuses the one
    after them with [e]. *)
Definition refusedAt (k : nat) (e : Error) (w : World) : Prop :=
  ∃ rest, faults w = replicate k None ++ Some e :: rest.

(** The reads the snapshot makes when none is refused: the profile, the two
    streak queries when the profile has a quit date, the log count, the
    challenge query and the three leaderboard queries.  A quit date that is
    not a string ends the snapshot after the profile read. *)
Definition snapshotReads (uid : string) (w : World) : nat :=
  match quitIsoOf (users w !! uid) with
  | Ok quitIso => if missing quitIso then 6 else 8
  | Throw _ => 1
  end.

(** The pack size the savings formula divides by: the profile's when it
    is a non-zero number, 20 otherwise. *)
Definition packSize (pk : option Q) : Q :=
  match pk with
  | Some p => if Qeq_bool p 0 then 20%Q else p
  | None => 20%Q
  end.

(** The value of the check the condition table holds for [id]. *)
Definition check (s : Snapshot) (id : string) : option bool := assoc id (conditions s).

(** The streak achievements with their thresholds in days. *)
Definition streakTable : list (string * Z) :=
  [ ("streak1", 1); ("streak2", 2); ("streak3", 3); ("streak5", 5); ("streak10", 10);
    ("streak20", 20); ("streak30", 30); ("streak50", 50); ("streak75", 75);
    ("streak100", 100); ("streak200", 200); ("streak365", 365); ("streak500", 500);
    ("streak600", 600); ("streak700", 700); ("streak800", 800); ("streak900", 900);
    ("streak1000", 1000) ].

(** A leaderboard row is the user's: its [uid] field, or else its document
    id, is the user id. *)
Definition isRowOf (uid : string) (d : string * LeaderRow) : bool :=
  strict_eq (or_else (uid_field d.2) (JString d.1)) (JString uid).

(** The 1-based position of the first row of the user, as the
    specification words the rank. *)
Fixpoint positionOf (uid : string) (rows : list (string * LeaderRow)) : option Z :=
  match rows with
  | [] => None
  | d :: rest => if isRowOf uid d then Some 1 else Z.succ <$> positionOf uid rest
  end.

(** The rows [orderBy(field, ...)] ranges over: those that have the field. *)
Definition hasMetric (field : string) (d : string * LeaderRow) : bool :=
  bool_decide (is_Some (metric field d.2)).

End Spec.

(** ** Vocabulary of the further properties *)

Module Props.
Import Js JsDate Fire Notifications DailyLogs Badges Spec.

(** The ids of the condition table, in table order. *)
Definition conditionIds : list string :=
  [ "welcome"; "streak1"; "streak2"; "streak3"; "streak5"; "streak10"; "streak20"; "streak30";
    "streak50"; "streak75"; "streak100"; "streak200"; "streak365"; "streak500"; "streak600";
    "streak700"; "streak800"; "streak900"; "streak1000"; "log"; "log2"; "log3"; "ai1"; "ai2";
    "ai3"; "hypnosis1"; "hypnosis2"; "hypnosis3"; "saving"; "saving2"; "saving3";
    "leader_points_1"; "leader_points_2"; "leader_points_3"; "leader_streak_1";
    "leader_streak_2"; "leader_streak_3"; "leader_saved_1"; "leader_saved_2"; "leader_saved_3";
    "challenge30"; "challenge60"; "challenge90"; "health"; "health2"; "health3" ].

(** A computation that leaves the badge store as it is. *)
Definition keepsBadges {A} (m : M A) : Prop := ∀ w, badges (m w).2 = badges w.

(** A log entry counts as a slip for one of the two streak queries. *)
Definition isSlip (d : LogDoc) : bool :=
  is_false (smoke_free d) || gt_zero (cigarettes_smoked d).

(** The dates of the slips logged between [lo] and [hi], both included. *)
Definition slipDates (lo hi : string) (docs : list LogDoc) : list string :=
  date_string <$> List.filter (fun d => isSlip d && in_range lo hi (date d)) docs.

(** The day number of a date string [YYYY-MM-DD]; [None] when the string
    has another shape or names no calendar day. *)
Definition isoDay (iso : string) : option Z :=
  match list_ascii_of_string iso with
  | [y1; y2; y3; y4; d1; m1; m2; d2; a1; a2] =>
      if negb ((d1 =? "-")%char && (d2 =? "-")%char) then None
      else
        match number_of [y1; y2; y3; y4], number_of [m1; m2], number_of [a1; a2] with
        | Some y, Some m, Some d =>
            if (1 <=? m) && (m <=? 12) && (1 <=? d) && (d <=? daysInMonth y m)
            then Some (MakeDay y (m - 1) d)
            else None
        | _, _, _ => None
        end
  | _ => None
  end.

(** The date string of a day number, as [toISOString] prints it. *)
Definition printDay (n : Z) : string := slice10 (toISOString (n * msPerDay)).

(** The card [createAndPushNotification] stores. *)
Definition card (title body type badgeId : string) (now : Z) : Notification :=
  {| n_title := if (title =? "")%string then "Notification" else title;
     n_body := body;
     n_type := if (type =? "")%string then "generic" else type;
     n_badgeId := badgeId;
     n_read := false;
     n_createdAt := now |}.

(** The rows a successful [getUnlockedBadges] ranges over: the stored
    badges that have [unlockedAt], newest first. *)
Definition listed (uid : string) (w : World) : list (string * BadgeDoc) :=
  merge_sort newerFirst
    (List.filter (fun d => bool_decide (is_Some (unlockedAt d.2))) (badgesOf uid w)).

End Props.

(** ** Sample environments *)

Module Examples.
Import Js JsDate Fire Notifications DailyLogs Badges Spec.

(** A host on UTC. *)
Definition utc : Runtime := {| StringToNumber := fun _ => JNaN; LocalTZA := 0 |}.

(** A host two hours east of UTC (Europe/Athens in winter). *)
Definition athensWinter : Runtime :=
  {| StringToNumber := fun _ => JNaN; LocalTZA := 7200000 |}.

Definition permissionDenied : Error :=
  {| code := "permission-denied"; message := "Missing or insufficient permissions." |}.

Definition unavailable : Error :=
  {| code := "unavailable"; message := "The service is unavailable." |}.

Definition profile1 : Profile :=
  {| quit_date := JString "2024-01-01";
     cigarettes_per_day_before := JNumber (int 20);
     cost_per_pack := JNumber (int 5);
     cigarettes_per_pack := JNumber (int 20);
     ai_messages_count := JUndefined;
     audio_sessions_count := JUndefined;
     health_stage_id := JString "mo1";
     createdAt := JNumber (int 1704067200000) |}.

(** The same smoker with the pack size entered as 0. *)
Definition profileZeroPack : Profile :=
  {| quit_date := JString "2024-01-01";
     cigarettes_per_day_before := JNumber (int 20);
     cost_per_pack := JNumber (int 5);
     cigarettes_per_pack := JNumber (int 0);
     ai_messages_count := JUndefined;
     audio_sessions_count := JUndefined;
     health_stage_id := JString "mo1";
     createdAt := JNumber (int 1704067200000) |}.

(** Three cigarettes a day from packs of ten at 9 euros. *)
Definition profileThreeADay : Profile :=
  {| quit_date := JString "2024-01-01";
     cigarettes_per_day_before := JNumber (int 3);
     cost_per_pack := JNumber (int 9);
     cigarettes_per_pack := JNumber (int 10);
     ai_messages_count := JUndefined;
     audio_sessions_count := JUndefined;
     health_stage_id := JString "mo1";
     createdAt := JNumber (int 1704067200000) |}.

(** A profile whose daily cost overflows: 1e308 cigarettes a day at 1e308
    a pack of one. *)
Definition profileOverflow : Profile :=
  {| quit_date := JString "2024-01-01";
     cigarettes_per_day_before := JNumber (binary64 (inject_Z (10 ^ 308)));
     cost_per_pack := JNumber (binary64 (inject_Z (10 ^ 308)));
     cigarettes_per_pack := JNumber (int 1);
     ai_messages_count := JUndefined;
     audio_sessions_count := JUndefined;
     health_stage_id := JString "mo1";
     createdAt := JNumber (int 1704067200000) |}.

Definition slip (day : string) (cigs : Z) : LogDoc :=
  {| date := JString day; cigarettes_smoked := JNumber (int cigs); smoke_free := JBool false |}.

(** User "u1" on 2024-01-10 at 01:00 UTC: signed in, quit on 2024-01-01,
    one slip logged on 2024-01-05, nothing unlocked yet. *)
Definition world1 : World :=
  {| currentUser := Some "u1";
     clock := 1704848400000;
     users := {[ "u1" := profile1 ]};
     dailyLogs := {[ ("u1", "2024-01-05") := slip "2024-01-05" 2 ]};
     badges := ∅;
     challenges := ∅;
     leaderboard := ∅;
     notifications := [];
     inFlightUnlocks := ∅;
     isNativePlatform := false;
     idToken := Some "token";
     faults := [];
     trace := [] |}.

(** The transaction succeeds, then both notification attempts fail: the
    token refresh of the server route and the write of the local card. *)
Definition world2 : World := with_faults [None; Some unavailable; Some unavailable] world1.

(** The first twelve calls of an evaluation succeed and the thirteenth is
    refused: the user signed out after the first unlock. *)
Definition world3 : World :=
  with_faults (replicate 12 None ++ [Some permissionDenied]) world1.

(** A log submitted with no cigarettes and the flag explicitly off. *)
Definition flaggedInput : LogInput :=
  {| in_cigarettes_smoked := JNumber (int 0); in_smoke_free := JBool false |}.

Definition row (pts : Z) : LeaderRow :=
  {| uid_field := JUndefined; points := Some (int pts); streak := None; saved := None |}.

(** Four users on the points board. *)
Definition world4 : World :=
  {| currentUser := Some "u1";
     clock := 1704848400000;
     users := {[ "u1" := profile1 ]};
     dailyLogs := ∅;
     badges := ∅;
     challenges := ∅;
     leaderboard := {[ "u1" := row 30; "u2" := row 50; "u3" := row 10; "u4" := row 40 ]};
     notifications := [];
     inFlightUnlocks := ∅;
     isNativePlatform := false;
     idToken := Some "token";
     faults := [];
     trace := [] |}.

(** A snapshot with a 30-day streak and nothing else. *)
Definition thirtyDays : Snapshot :=
  {| profileCreated := false; streakDays := int 30; logsCount := 0; aiCount := int 0;
     hypCount := int 0; savings := int 0; pointsRank := None; streakRank := None;
     savedRank := None; completedChallenges := 0; healthRank := -1 |}.

End Examples.

(** * Proofs *)

Import Js JsDate Fire Notifications DailyLogs DailyLogPage Badges Spec Props Examples.

(** Unfold the effect primitives down to functions on worlds. *)
Ltac unfold_calls :=
  unfold getFirebaseIdToken, fetch, read, external, nextFault, called, warn, emit, modify, gets,
    catch, throw, mbind, mret, M_bind, M_ret.

Ltac next_fault fl := destruct fl as [|[?|] fl]; simpl.

Ltac close_trace :=
  do 3 eexists; split; [reflexivity|]; split; [by constructor|]; simpl;
  rewrite <- ?app_assoc; simpl; split; [reflexivity|]; repeat constructor.

(** ** The unlock transaction and its notifications *)

Section Unlock.


(** The server route records its entry first and touches neither the badge
  store nor the in-flight set, whether it returns or throws. *)
Lemma notifyBadgeUnlocked_spec b n w :
∃ r w' t, notifyBadgeUnlocked b n w = (r, w') ∧ frame w w'
          ∧ trace w' = trace w ++ EvServerNotify b n :: t ∧ Forall plumbing t.
Proof.
unfold notifyBadgeUnlocked; unfold_calls.
destruct w as [cu cl us dl bd ch lb nt inf nat tok fl tr]; simpl.
next_fault fl.
all: destruct tok as [tk|]; simpl; try destruct (tk =? "")%string; simpl.
all: try next_fault fl.
all: close_trace.
Qed.

(** The same for the local card. *)
Lemma createAndPushNotification_spec title body type b push w :
∃ r w' t, createAndPushNotification title body type b push w = (r, w') ∧ frame w w'
          ∧ trace w' = trace w ++ EvLocalNotify title body :: t ∧ Forall plumbing t.
Proof.
unfold createAndPushNotification; unfold_calls.
destruct w as [cu cl us dl bd ch lb nt inf nat tok fl tr]; simpl.
destruct cu as [u|]; simpl; [destruct (u =? "")%string; simpl|].
all: next_fault fl.
all: destruct push, nat; simpl.
all: try next_fault fl.
all: try (destruct tok as [tk|]; simpl; try destruct (tk =? "")%string; simpl).
all: try next_fault fl.
all: close_trace.
Qed.

Lemma plumbing_quiet t : Forall plumbing t → Forall quiet t.
Proof. intros H. eapply Forall_impl; [exact H|]. by intros []. Qed.

(** The two attempts together never throw and always report the unlock. *)
Lemma announce_spec bid b w :
∃ w' t, announce bid b w = (Ok (plainResult bid), w') ∧ frame w w'
        ∧ trace w' = trace w ++ EvServerNotify b (titleOf b) :: t ∧ Forall quiet t.
Proof.
unfold announce, catch, mbind, M_bind, mret, M_ret.
destruct (notifyBadgeUnlocked_spec b (titleOf b) w) as (r & w1 & t1 & -> & F1 & T1 & P1).
destruct r as [[]|e]; simpl.
{ exists w1, t1. repeat split; try apply F1; auto using plumbing_quiet. }
unfold warn, emit, modify; simpl.
set (w2 := with_trace _ w1).
destruct (createAndPushNotification_spec "New badge unlocked!" (localBody b)
            "badge_unlocked" b true w2) as (r & w3 & t3 & -> & F3 & T3 & P3).
assert (F2 : frame w w2) by (destruct F1; by constructor).
destruct r as [n|e']; simpl.
all: eexists _, _; split; [reflexivity|]; split;
  [destruct F2, F3; constructor; simpl; congruence|]; simpl.
all: rewrite T3; subst w2; simpl; rewrite T1, <- ?app_assoc; simpl; split; [reflexivity|].
all: repeat (rewrite Forall_app || rewrite Forall_cons || rewrite Forall_nil).
all: repeat split; auto using plumbing_quiet.
Qed.

(** The transaction body is a check-and-set. *)
Lemma unlockTx_spec u b now docs :
unlockTx u b now {| tx_docs := docs; tx_writes := [] |} =
  match docs !! (u, b) with
  | Some _ => (false, {| tx_docs := docs; tx_writes := [] |})
  | None => (true, {| tx_docs := <[(u, b) := newBadge now]> docs; tx_writes := [(u, b)] |})
  end.
Proof.
unfold unlockTx, tx_bind, tx_get, tx_set_merge, tx_ret; simpl.
destruct (docs !! (u, b)) eqn:E; simpl; [done|].
by rewrite E.
Qed.

Lemma inflight_restore (b : string) (I : gset string) : b ∉ I → ({[ b ]} ∪ I) ∖ {[ b ]} = I.
Proof.
intros Hb. apply set_eq. intros x.
rewrite elem_of_difference, elem_of_union, elem_of_singleton.
split; [intros [[->|Hx] Hne]; done | intros Hx; split; [by right | by intros ->]].
Qed.

(** Every call of [unlock] ends in one of the five outcomes. *)
Lemma unlock_outcome uid bid w : outcome uid bid w (unlock uid bid w).1 (unlock uid bid w).2.
Proof.
unfold unlock.
destruct (missing uid || missing bid) eqn:Hm; simpl.
{ by constructor. }
set (u := default EmptyString uid). set (b := default EmptyString bid).
unfold mbind, M_bind, gets, modify, finally; simpl.
case_bool_decide as Hin; simpl.
{ by constructor. }
set (w0 := with_inFlight _ w).
unfold attempt, catch, mbind, M_bind, runTransaction, external.
assert (Hf : nextFault w0 = nextFault w) by done.
rewrite Hf.
destruct (nextFault w) as [e|] eqn:Hn.
- (* the transaction throws *)
  destruct (code e =? "already-exists")%string eqn:Hc; simpl.
  all: pose proof (out_failed uid bid w e) as Ho; rewrite Hc in Ho; apply Ho; auto.
  all: try (constructor; simpl; auto using inflight_restore).
- rewrite unlockTx_spec. simpl.
  destruct (badges w !! (u, b)) as [d|] eqn:Hb; simpl.
  + apply out_deduped; auto.
    * constructor; simpl; auto using inflight_restore.
    * simpl. by rewrite app_nil_r.
  + match goal with |- context [announce bid b ?w1] =>
      destruct (announce_spec bid b w1) as (w' & t & -> & F & T & Q) end.
    simpl. eapply out_created; eauto.
    * simpl. destruct F as [Fb _ _]. by rewrite Fb.
    * simpl. destruct F as [_ Fi _]. rewrite Fi. simpl. by apply inflight_restore.
    * simpl. rewrite T. simpl. by rewrite <- !app_assoc.
Qed.


Lemma creations_app u b t1 t2 :
creations u b (t1 ++ t2) = (creations u b t1 + creations u b t2)%nat.
Proof. unfold creations. by rewrite filter_app, length_app. Qed.

Lemma serverNotifies_app b t1 t2 :
serverNotifies b (t1 ++ t2) = (serverNotifies b t1 + serverNotifies b t2)%nat.
Proof. unfold serverNotifies. by rewrite filter_app, length_app. Qed.

Lemma notified_app t1 t2 : notified (t1 ++ t2) = (notified t1 + notified t2)%nat.
Proof. unfold notified. by rewrite filter_app, length_app. Qed.

Lemma quiet_creations u b t : Forall quiet t → creations u b t = 0%nat.
Proof.
unfold creations. induction 1 as [|ev t Hq _ IH]; [done|].
rewrite filter_cons. destruct (decide (ev = EvBadgeSet u b)) as [->|]; [done|apply IH].
Qed.

Lemma quiet_serverNotifies b t : Forall quiet t → serverNotifies b t = 0%nat.
Proof.
unfold serverNotifies. induction 1 as [|ev t Hq _ IH]; [done|].
rewrite filter_cons. destruct (decide (isServerNotify b ev)) as [Hs|]; [|apply IH].
by destruct ev.
Qed.

Lemma transaction_uncounted u b u' b' :
creations u b [EvTransaction u' b'] = 0%nat
∧ serverNotifies b [EvTransaction u' b'] = 0%nat
∧ notified [EvTransaction u' b'] = 0%nat.
Proof.
unfold creations, serverNotifies, notified.
rewrite !filter_cons, !filter_nil. repeat case_decide; done.
Qed.

(** What one call does to the badge store and to the counters. *)
Lemma unlock_effect uid bid w :
let u := default EmptyString uid in
let b := default EmptyString bid in
let w' := (unlock uid bid w).2 in
(badges w' = badges w
 ∧ creations u b (trace w') = creations u b (trace w)
 ∧ serverNotifies b (trace w') = serverNotifies b (trace w)
 ∧ notified (trace w') = notified (trace w)
 ∧ notifications w' = notifications w)
∨ (badges w !! (u, b) = None
   ∧ badges w' = <[(u, b) := newBadge (clock w + 1)]> (badges w)
   ∧ creations u b (trace w') = S (creations u b (trace w))
   ∧ serverNotifies b (trace w') = S (serverNotifies b (trace w))).
Proof.
intros u b w'. subst u b w'.
destruct (unlock_outcome uid bid w) as [Hm|Hm Hin|e w' Hm Hin Hn F N T|w' Hm Hin Hn Hb F N T
                                        |w' t Hm Hin Hn Hb B I T Q].
- by left.
- by left.
- left. rewrite T, creations_app, serverNotifies_app, notified_app.
  destruct (transaction_uncounted (default EmptyString uid) (default EmptyString bid)
              (default EmptyString uid) (default EmptyString bid)) as (-> & -> & ->).
  destruct F as [-> _ _]. repeat split; try done; lia.
- left. rewrite T, creations_app, serverNotifies_app, notified_app.
  destruct (transaction_uncounted (default EmptyString uid) (default EmptyString bid)
              (default EmptyString uid) (default EmptyString bid)) as (-> & -> & ->).
  destruct F as [-> _ _]. repeat split; try done; lia.
- right. set (u := default EmptyString uid) in *. set (b := default EmptyString bid) in *.
  rewrite T, B.
  rewrite creations_app, serverNotifies_app.
  change (EvTransaction u b :: EvBadgeSet u b :: EvServerNotify b (titleOf b) :: t)
    with ([EvTransaction u b; EvBadgeSet u b; EvServerNotify b (titleOf b)] ++ t).
  rewrite creations_app, serverNotifies_app, (quiet_creations u b t Q),
    (quiet_serverNotifies b t Q).
  repeat split; try done.
  + unfold creations. rewrite !filter_cons, filter_nil.
    repeat case_decide; try done; simpl; lia.
  + unfold serverNotifies. rewrite !filter_cons, filter_nil.
    repeat case_decide; simpl in *; try done; lia.
Qed.

Lemma unlock_present uid bid w :
is_Some (badges w !! (default EmptyString uid, default EmptyString bid)) →
let w' := (unlock uid bid w).2 in
badges w' = badges w
∧ creations (default EmptyString uid) (default EmptyString bid) (trace w')
  = creations (default EmptyString uid) (default EmptyString bid) (trace w)
∧ serverNotifies (default EmptyString bid) (trace w')
  = serverNotifies (default EmptyString bid) (trace w)
∧ notified (trace w') = notified (trace w).
Proof.
intros [d Hd]. destruct (unlock_effect uid bid w) as [(?&?&?&?&?)|(Hn&_)]; [done|congruence].
Qed.

Lemma unlock_keeps_records uid bid w k d :
badges w !! k = Some d → badges (unlock uid bid w).2 !! k = Some d.
Proof.
intros Hk. destruct (unlock_effect uid bid w) as [(->&_)|(Hn&->&_)]; [done|].
rewrite lookup_insert_ne; [done|]. intros <-. congruence.
Qed.

Lemma unlockTimes_present n uid bid w :
is_Some (badges w !! (default EmptyString uid, default EmptyString bid)) →
let w' := unlockTimes n uid bid w in
badges w' = badges w
∧ creations (default EmptyString uid) (default EmptyString bid) (trace w')
  = creations (default EmptyString uid) (default EmptyString bid) (trace w)
∧ serverNotifies (default EmptyString bid) (trace w')
  = serverNotifies (default EmptyString bid) (trace w).
Proof.
revert w. induction n as [|n IH]; intros w Hs; simpl; [done|].
destruct (unlock_present uid bid w Hs) as (Hb & Hc & Hv & _).
destruct (IH (unlock uid bid w).2) as (Hb' & Hc' & Hv').
{ by rewrite Hb. }
repeat split; congruence.
Qed.

Lemma unlockTimes_at_most_once n uid bid w :
let w' := unlockTimes n uid bid w in
(creations (default EmptyString uid) (default EmptyString bid) (trace w')
 ≤ creations (default EmptyString uid) (default EmptyString bid) (trace w) + 1)%nat
∧ (serverNotifies (default EmptyString bid) (trace w')
   ≤ serverNotifies (default EmptyString bid) (trace w) + 1)%nat.
Proof.
revert w. induction n as [|n IH]; intros w; simpl; [lia|].
destruct (unlock_effect uid bid w) as [(Hb&Hc&Hv&_)|(Hn&Hb&Hc&Hv)].
- specialize (IH (unlock uid bid w).2). simpl in IH. lia.
- destruct (unlockTimes_present n uid bid (unlock uid bid w).2) as (_ & Hc' & Hv').
  { rewrite Hb, lookup_insert_eq. eauto. }
  simpl in *. lia.
Qed.

Lemma unlockTimes_keeps_records n uid bid w k d :
badges w !! k = Some d → badges (unlockTimes n uid bid w) !! k = Some d.
Proof.
revert w. induction n as [|n IH]; intros w Hk; simpl; [done|].
apply IH. by apply unlock_keeps_records.
Qed.


(** C10.  When the user id or the badge id is missing (null, undefined or
  the empty string), [unlock] returns [{ id, skipped: "missing" }] and the
  world is exactly what it was: no read, no write, no notification, no
  call recorded. *)
Theorem unlock_missing_noop (uid badgeId : option string) (w : World) :
missing uid = true ∨ missing badgeId = true →
unlock uid badgeId w = (Ok (skippedResult badgeId "missing"), w).
Proof.
intros H. unfold unlock.
assert (missing uid || missing badgeId = true) as -> by (destruct H as [-> | ->]; [done|apply orb_true_r]).
done.
Qed.

Lemma unlock_missing_noop_witness :
missing None = true
∧ unlock None (Some "streak1") world1 = (Ok (skippedResult (Some "streak1") "missing"), world1).
Proof. split; [reflexivity | apply unlock_missing_noop; left; reflexivity]. Defined.

Lemma present_ids (u b : string) : u ≠ EmptyString → b ≠ EmptyString → missing (Some u) || missing (Some b) = false.
Proof.
intros Hu Hb. simpl. apply orb_false_iff. split; by apply String.eqb_neq.
Qed.

(** A call that reaches the transaction, by what it finds there. *)
Lemma unlock_reaching_transaction (u b : string) (w : World) :
u ≠ EmptyString → b ≠ EmptyString → b ∉ inFlightUnlocks w → nextFault w = None →
let r := unlock (Some u) (Some b) w in
match badges w !! (u, b) with
| Some _ =>
    r.1 = Ok (dedupedResult (Some b)) ∧ badges r.2 = badges w
    ∧ creations u b (trace r.2) = creations u b (trace w)
| None =>
    r.1 = Ok (plainResult (Some b))
    ∧ badges r.2 = <[(u, b) := newBadge (clock w + 1)]> (badges w)
    ∧ creations u b (trace r.2) = S (creations u b (trace w))
end.
Proof.
intros Hu Hb Hin Hn r.
assert (Hm := present_ids u b Hu Hb).
subst r.
pose proof (unlock_effect (Some u) (Some b) w) as He. simpl in He.
destruct (unlock_outcome (Some u) (Some b) w)
  as [Hm'|Hm' Hin'|e w' _ _ Hn' _ _ _|w' _ _ _ Hs F N T|w' t _ _ _ Hs B I T Q]; simpl in *.
- congruence.
- done.
- congruence.
- destruct Hs as [d Hd]. rewrite Hd.
  destruct He as [(?&?&_)|(?&_)]; [done|congruence].
- rewrite Hs. destruct He as [(Hb'&Hc&_)|(_&?&?&_)]; [|done].
  rewrite B in Hb'. apply (f_equal (lookup (u, b))) in Hb'.
  rewrite lookup_insert_eq in Hb'. congruence.
Qed.

(** C1.  For a call that reaches the transaction (ids present, badge not in
  flight, the transaction not failing): the transaction body is one
  check-and-set on the badge document; when the record exists nothing is
  written and the call reports [deduped]; when it is absent the record
  is created with [unlockedAt] the commit time and [seen = false].  After
  that call any number of further calls leave the badge store as it is and
  write nothing, and from any world whatever a sequence of calls writes the
  record at most once and never changes or removes an existing record. *)
Theorem unlock_check_and_set (u b : string) (w : World) :
u ≠ EmptyString → b ≠ EmptyString → b ∉ inFlightUnlocks w → nextFault w = None →
let r := unlock (Some u) (Some b) w in
(∀ now docs,
   unlockTx u b now {| tx_docs := docs; tx_writes := [] |} =
   match docs !! (u, b) with
   | Some _ => (false, {| tx_docs := docs; tx_writes := [] |})
   | None => (true, {| tx_docs := <[(u, b) := newBadge now]> docs; tx_writes := [(u, b)] |})
   end)
∧ match badges w !! (u, b) with
  | Some _ =>
      r.1 = Ok (dedupedResult (Some b)) ∧ badges r.2 = badges w
      ∧ creations u b (trace r.2) = creations u b (trace w)
  | None =>
      r.1 = Ok (plainResult (Some b))
      ∧ badges r.2 = <[(u, b) := newBadge (clock w + 1)]> (badges w)
      ∧ creations u b (trace r.2) = S (creations u b (trace w))
  end
∧ (∀ n, badges (unlockTimes n (Some u) (Some b) r.2) = badges r.2
        ∧ creations u b (trace (unlockTimes n (Some u) (Some b) r.2))
          = creations u b (trace r.2))
∧ (∀ n w0,
     (creations u b (trace (unlockTimes n (Some u) (Some b) w0))
      ≤ creations u b (trace w0) + 1)%nat
     ∧ ∀ k d, badges w0 !! k = Some d →
              badges (unlockTimes n (Some u) (Some b) w0) !! k = Some d).
Proof.
intros Hu Hb Hin Hn r.
pose proof (unlock_reaching_transaction u b w Hu Hb Hin Hn) as Hcase. fold r in Hcase.
split; [intros; apply unlockTx_spec|].
split; [exact Hcase|].
split.
- intros n.
  destruct (unlockTimes_present n (Some u) (Some b) r.2) as (? & ? & _); [|done].
  simpl. destruct (badges w !! (u, b)) as [d|] eqn:Hd.
  + destruct Hcase as (_ & -> & _). by rewrite Hd.
  + destruct Hcase as (_ & -> & _). rewrite lookup_insert_eq. eauto.
- intros n w0. split.
  + apply (unlockTimes_at_most_once n (Some u) (Some b) w0).
  + intros k d. apply unlockTimes_keeps_records.
Qed.

Lemma unlock_check_and_set_witness :
let r := unlock (Some "u1") (Some "streak1") world1 in
r.1 = Ok (plainResult (Some "streak1"))
∧ badges r.2 = <[("u1", "streak1") := newBadge 1704848400001]> ∅
∧ badges (unlockTimes 2 (Some "u1") (Some "streak1") r.2) = badges r.2.
Proof.
pose proof (unlock_check_and_set "u1" "streak1" world1) as H.
destruct H as (_ & H1 & H2 & _);
  [discriminate | discriminate | apply not_elem_of_empty | reflexivity |].
change (badges world1 !! ("u1", "streak1")) with (@None BadgeDoc) in H1.
destruct H1 as (Hr & Hb & _).
split; [exact Hr|]. split; [exact Hb|]. apply (H2 2%nat).
Defined.

(** C5.  A call that reports [deduped] has only the transaction attempt to
  show: no event of either notification path and no notification card.
  A call whose trace gains a notification event is one that created the
  record, and over any sequence of calls for one achievement the server
  route is entered at most once. *)
Theorem unlock_deduped_no_notification (uid badgeId : option string) (w w' : World)
  (r : UnlockResult) :
unlock uid badgeId w = (Ok r, w') → r_deduped r = true →
trace w' = trace w ++ [EvTransaction (default EmptyString uid) (default EmptyString badgeId)]
∧ notified (trace w') = notified (trace w)
∧ notifications w' = notifications w
∧ (∀ w0, notified (trace (unlock uid badgeId w0).2) ≠ notified (trace w0) →
         badges w0 !! (default EmptyString uid, default EmptyString badgeId) = None
         ∧ is_Some (badges (unlock uid badgeId w0).2
                      !! (default EmptyString uid, default EmptyString badgeId)))
∧ (∀ n w0, (serverNotifies (default EmptyString badgeId)
              (trace (unlockTimes n uid badgeId w0))
            ≤ serverNotifies (default EmptyString badgeId) (trace w0) + 1)%nat).
Proof.
intros Hu Hd.
assert (Hfirst :
  trace w' = trace w ++ [EvTransaction (default EmptyString uid) (default EmptyString badgeId)]
  ∧ notifications w' = notifications w).
{ pose proof (unlock_outcome uid badgeId w) as Ho. rewrite Hu in Ho. simpl in Ho.
  inversion Ho as [Hm Hr|Hm Hin Hr|e w1 Hm Hin Hn F N T Hr|w1 Hm Hin Hn Hs F N T Hr
                   |w1 t Hm Hin Hn Hs B I T Q Hr]; subst; try done.
  all: rewrite <- ?Hr in Hd; simpl in Hd; try done. }
destruct Hfirst as [Ht Hn].
split; [exact Ht|]. split.
{ rewrite Ht, notified_app.
  destruct (transaction_uncounted EmptyString EmptyString (default EmptyString uid)
              (default EmptyString badgeId)) as (_ & _ & ->). lia. }
split; [exact Hn|]. split.
- intros w0 Hne.
  destruct (unlock_effect uid badgeId w0) as [(_&_&_&?&_)|(?&->&_)]; [done|].
  split; [done|]. rewrite lookup_insert_eq. eauto.
- intros n w0. apply (unlockTimes_at_most_once n uid badgeId w0).
Qed.

Lemma unlock_deduped_no_notification_witness :
let w1 := (unlock (Some "u1") (Some "streak1") world1).2 in
let w2 := (unlock (Some "u1") (Some "streak1") w1).2 in
unlock (Some "u1") (Some "streak1") w1 = (Ok (dedupedResult (Some "streak1")), w2)
∧ trace w2 = trace w1 ++ [EvTransaction "u1" "streak1"]
∧ notified (trace w2) = notified (trace w1).
Proof.
intros w1 w2.
assert (Hcall : unlock (Some "u1") (Some "streak1") w1
                = (Ok (dedupedResult (Some "streak1")), w2)) by (vm_compute; reflexivity).
destruct (unlock_deduped_no_notification (Some "u1") (Some "streak1") w1 w2
            (dedupedResult (Some "streak1")) Hcall eq_refl) as (H1 & H2 & _).
split; [exact Hcall|]. split; [exact H1|exact H2].
Defined.

Lemma isUnlocked_ok u b w :
nextFault w = None →
isUnlocked u b w = (Ok (bool_decide (is_Some (badges w !! (u, b)))), called (EvRead "badges") w).
Proof. intros Hn. unfold isUnlocked, read, external. by rewrite Hn. Qed.

(** C6.  Once the transaction has created the record, [unlock] returns
  [{ id }] and the record is in the store, whatever the environment does to
  the notification calls that follow; the evaluator's loop then pushes the
  id. *)
Theorem unlock_survives_notification_failure (u b : string) (w : World) :
u ≠ EmptyString → b ≠ EmptyString → b ∉ inFlightUnlocks w → nextFault w = None →
badges w !! (u, b) = None →
let r := unlock (Some u) (Some b) w in
r.1 = Ok (plainResult (Some b))
∧ badges r.2 !! (u, b) = Some (newBadge (clock w + 1))
∧ (∀ acc w0, nextFault w0 = None → w = called (EvRead "badges") w0 →
             (iteration u acc (b, true) w0).1 = Ok (Next (acc ++ [b]))).
Proof.
intros Hu Hb Hin Hn Hnone r.
pose proof (unlock_reaching_transaction u b w Hu Hb Hin Hn) as Hcase.
rewrite Hnone in Hcase. destruct Hcase as (Hr & Hbad & _). fold r in Hr, Hbad.
split; [exact Hr|]. split; [by rewrite Hbad, lookup_insert_eq|].
intros acc w0 Hn0 Hw.
unfold iteration, catch, mbind, M_bind.
rewrite (isUnlocked_ok u b w0 Hn0), <- Hw.
assert (badges w0 !! (u, b) = None) as -> by (rewrite <- Hnone, Hw; done).
rewrite bool_decide_eq_false_2 by (by intros [? ?]). simpl.
fold r. destruct r as [[res|e] w']; simpl in *; [done|congruence].
Qed.

Lemma unlock_survives_notification_failure_witness :
let r := unlock (Some "u1") (Some "streak1") world2 in
r.1 = Ok (plainResult (Some "streak1"))
∧ badges r.2 !! ("u1", "streak1") = Some (newBadge 1704848400001).
Proof.
destruct (unlock_survives_notification_failure "u1" "streak1" world2) as (H1 & H2 & _);
  [discriminate | discriminate | apply not_elem_of_empty | reflexivity
  | vm_compute; reflexivity |].
split; [exact H1|exact H2].
Defined.

(** In [world2] both attempts were made and both failed. *)
Example both_notifications_fail :
trace (unlock (Some "u1") (Some "streak1") world2).2 =
  [ EvTransaction "u1" "streak1"; EvBadgeSet "u1" "streak1";
    EvServerNotify "streak1" "1-Day Streak"; EvToken;
    EvWarn "notifyBadgeUnlocked failed, falling back to local notification:";
    EvLocalNotify "New badge unlocked!" "You unlocked: 1-Day Streak";
    EvAddNotification "u1";
    EvWarn "Local badge unlock notification failed:" ].
Proof. vm_compute. reflexivity. Qed.

End Unlock.

(** ** The savings metric, the log write and the condition table *)

Section Savings.
Context `{Runtime}.

Lemma binary64_not_NaN (q : Q) : binary64 q ≠ JNaN.
Proof.
  unfold binary64. cbv zeta. destruct (_ =? 0); [done|].
  destruct (0 <=? _); [|done]. by destruct (_ <=? _).
Qed.

Lemma round_NaN (a : number) : round a = JNaN ↔ a = JNaN.
Proof. by destruct a. Qed.

(** A product of finite numbers is not [NaN]. *)
Lemma mul_finite_not_NaN (x y : Q) : mul (JNum x) (JNum y) ≠ JNaN.
Proof. apply binary64_not_NaN. Qed.

(** What a day costs, [(perDay / pack) * price], is a number or an infinity
    when the pack size and the price are not zero. *)
Lemma daily_cost_not_NaN (a p c : Q) :
  Qeq_bool p 0 = false → Qeq_bool c 0 = false →
  mul (div (JNum a) (JNum p)) (JNum c) ≠ JNaN.
Proof.
  intros Hp Hc. unfold div. rewrite Hp.
  pose proof (binary64_not_NaN (a / p)) as Hd.
  destruct (binary64 (a / p)) as [|s|x]; [done| |apply binary64_not_NaN].
  unfold mul. by rewrite Hc.
Qed.

(** Times a finite streak it is [NaN] exactly when an infinity meets 0. *)
Lemma mul_streak_NaN (x : number) (d : Q) :
  x ≠ JNaN → (mul x (JNum d) = JNaN ↔ Qeq_bool d 0 = true ∧ ∃ s, x = JInf s).
Proof.
  intros Hx. destruct x as [|s|q]; [done| |].
  - unfold mul. destruct (Qeq_bool d 0); split; try done.
    + intros _. eauto.
    + by intros [? _].
  - split; [by intros ?%binary64_not_NaN|]. by intros (_ & s & ?).
Qed.

Lemma savings_zero_without (profile : option Profile) (streakDays : number) :
  truthy (field profile cigarettes_per_day_before) = false
  ∨ truthy (field profile cost_per_pack) = false →
  computeSavingsEuros profile streakDays = int 0.
Proof.
  intros Hf. unfold computeSavingsEuros, or_else.
  destruct Hf as [-> | ->]; simpl; by rewrite ?orb_true_r.
Qed.

(** The pack size the formula uses. *)
Lemma pack_default (pk : option Q) :
  ToNumber (or_else match pk with Some p => JNumber (JNum p) | None => JUndefined end
                    (JNumber (int 20))) = JNum (packSize pk)
  ∧ Qeq_bool (packSize pk) 0 = false.
Proof.
  unfold or_else. destruct pk as [p|]; simpl; [|done].
  destruct (Qeq_bool p 0) eqn:E; simpl; [done|]. by rewrite E.
Qed.

Lemma savings_formula (profile : Profile) (a c : Q) (pk : option Q) (streakDays : number) :
  cigarettes_per_day_before profile = JNumber (JNum a) →
  cost_per_pack profile = JNumber (JNum c) →
  cigarettes_per_pack profile
    = match pk with Some p => JNumber (JNum p) | None => JUndefined end →
  computeSavingsEuros (Some profile) streakDays
  = if Qeq_bool a 0 || Qeq_bool c 0 then int 0
    else round (mul (mul (div (JNum a) (JNum (packSize pk))) (JNum c)) streakDays).
Proof.
  intros Ha Hc Hk. destruct (pack_default pk) as [Hpack Hp].
  unfold computeSavingsEuros, field. rewrite Ha, Hc, Hk, Hpack.
  change (falsy_number (JNum (packSize pk))) with (Qeq_bool (packSize pk) 0). rewrite Hp.
  cbv zeta. unfold or_else, truthy, falsy_number.
  destruct (Qeq_bool a 0) eqn:Ea, (Qeq_bool c 0) eqn:Ec; cbn [negb ToNumber orb falsy_number];
    rewrite ?Ea, ?Ec; reflexivity.
Qed.

(** C3, amended.  With the profile fields numbers (or the pack size
    missing), the savings are 0 when cigarettes per day or cost per pack is
    zero, and otherwise
    [Math.round(((perDay / pack) * price) * streakDays)], each operation
    rounded to a double, where [pack] is the profile's pack size when it is
    not zero and 20 otherwise.  For a finite streak the result is [NaN]
    exactly when the streak is 0 and [(perDay / pack) * price] has
    overflowed to an infinity.  For any profile and any streak the result
    is 0 whenever cigarettes per day or cost per pack is missing or
    falsy. *)
Theorem computeSavingsEuros_default_pack (profile : Profile) (a c : Q) (pk : option Q) :
  cigarettes_per_day_before profile = JNumber (JNum a) →
  cost_per_pack profile = JNumber (JNum c) →
  cigarettes_per_pack profile
    = match pk with Some p => JNumber (JNum p) | None => JUndefined end →
  (∀ streakDays,
     computeSavingsEuros (Some profile) streakDays
     = if Qeq_bool a 0 || Qeq_bool c 0 then int 0
       else round (mul (mul (div (JNum a) (JNum (packSize pk))) (JNum c)) streakDays))
  ∧ (∀ d, computeSavingsEuros (Some profile) (JNum d) = JNaN
          ↔ Qeq_bool a 0 || Qeq_bool c 0 = false
            ∧ Qeq_bool d 0 = true
            ∧ ∃ s, mul (div (JNum a) (JNum (packSize pk))) (JNum c) = JInf s)
  ∧ (∀ p n, truthy (field p cigarettes_per_day_before) = false
            ∨ truthy (field p cost_per_pack) = false →
            computeSavingsEuros p n = int 0).
Proof.
  intros Ha Hc Hk.
  split; [intros; by apply savings_formula|].
  split; [|intros; by apply savings_zero_without].
  intros d. rewrite (savings_formula profile a c pk (JNum d) Ha Hc Hk).
  destruct (Qeq_bool a 0 || Qeq_bool c 0) eqn:G.
  { split; [done|by intros [? _]]. }
  apply orb_false_iff in G as [_ Ec]. destruct (pack_default pk) as [_ Hp].
  rewrite round_NaN, (mul_streak_NaN _ d (daily_cost_not_NaN a _ c Hp Ec)).
  split; [by intros [? ?]|by intros (_ & ? & ?)].
Qed.
End Savings.

Section Hardware.
Import PrimFloat.

(** [binary64], [mul] and [div] round as the hardware does: on the
    savings of three cigarettes a day, on an overflow, on a tie, where the
    result is subnormal and where it underflows. *)
Example binary64_as_hardware :
  Js.div (int 3) (int 10) = of_float (3 / 10)%float
  ∧ Js.mul (Js.div (int 3) (int 10)) (int 9) = of_float (3 / 10 * 9)%float
  ∧ Js.mul (Js.mul (Js.div (int 3) (int 10)) (int 9)) (int 185)
    = of_float (3 / 10 * 9 * 185)%float
  ∧ Js.div (int 1) (int 3) = of_float (1 / 3)%float
  ∧ Js.div (int (-2)) (int 3) = of_float (-2 / 3)%float
  ∧ Js.mul (of_float 0x1p1023%float) (int 2) = of_float (0x1p1023 * 2)%float
  ∧ Js.mul (of_float 0x1.fffffffffffffp1023%float) (of_float 0x1.0000000000001p0%float)
    = of_float (0x1.fffffffffffffp1023 * 0x1.0000000000001p0)%float
  ∧ binary64 (inject_Z 9007199254740993) = of_float (9007199254740992 + 1)%float
  ∧ binary64 (inject_Z 9007199254740995) = of_float (9007199254740994 + 1)%float
  ∧ Js.div (of_float 0x1p-1022%float) (int 3) = of_float (0x1p-1022 / 3)%float
  ∧ Js.div (of_float 0x1p-1074%float) (int 2) = of_float (0x1p-1074 / 2)%float
  ∧ Js.mul (of_float 0x1p-1074%float) (of_float 0x1.8p0%float)
    = of_float (0x1p-1074 * 0x1.8p0)%float.
Proof. repeat split; vm_compute; reflexivity. Qed.
End Hardware.

(** Rounding each operation matters: three cigarettes a day from packs of
    ten at 9 euros save 499 euros in 185 days, where the exact product,
    499.5, rounds to 500. *)
Example savings_rounding :
  @computeSavingsEuros utc (Some profileThreeADay) (int 185) = int 499
  ∧ Qfloor ((3 # 10) * 9 * 185 + (1 # 2)) = 500.
Proof. split; vm_compute; reflexivity. Qed.

(** On a streak of 0 days a daily cost that overflows gives [NaN]. *)
Example savings_overflow :
  @computeSavingsEuros utc (Some profileOverflow) (int 0) = JNaN
  ∧ @computeSavingsEuros utc (Some profileOverflow) (int 1) = JInf false.
Proof. split; vm_compute; reflexivity. Qed.

Lemma computeSavingsEuros_default_pack_witness :
  @computeSavingsEuros utc (Some profileZeroPack) (int 10)
  = round (mul (mul (div (int 20) (JNum (packSize (Some (inject_Z 0))))) (int 5)) (int 10)).
Proof.
  exact (proj1 (@computeSavingsEuros_default_pack utc profileZeroPack (inject_Z 20) (inject_Z 5)
                  (Some (inject_Z 0)) eq_refl eq_refl eq_refl) (int 10)).
Defined.

(** C3 as stated fails: with the pack size 0 the savings are 50, not 0. *)
Lemma savings_zero_pack_counterexample :
  cigarettes_per_pack profileZeroPack = JNumber (int 0)
  ∧ @computeSavingsEuros utc (Some profileZeroPack) (int 10) = int 50
  ∧ @computeSavingsEuros utc (Some profileZeroPack) (int 10) ≠ int 0.
Proof. split; [reflexivity|]. split; [vm_compute; reflexivity | vm_compute; discriminate]. Qed.

Section DailyLogWrite.
Context `{Runtime}.

Lemma upsertDailyLog_ok uid day data w r w' :
  upsertDailyLog uid day data w = (Ok r, w') →
  nextFault w = None ∧ r = true
  ∧ dailyLogs w' = <[(uid, day) := normalized day data]> (dailyLogs w).
Proof.
  unfold upsertDailyLog, external, mbind, M_bind, mret, M_ret.
  destruct (nextFault w); [done|]. simpl. intros [= <- <-]. done.
Qed.

(** C7, amended.  After a successful write the stored entry holds the
    converted cigarette count and a boolean [smoke_free] that is true only
    when the count is 0; it equals [count == 0] when the caller gave no
    boolean, and [given && count == 0] when the caller gave one. *)
Theorem upsertDailyLog_smoke_free (uid day : string) (data : option LogInput)
    (w w' : World) (r : bool) :
  upsertDailyLog uid day data w = (Ok r, w') →
  ∃ n b,
    dailyLogs w' !! (uid, day)
      = Some {| date := JString day; cigarettes_smoked := JNumber n; smoke_free := JBool b |}
    ∧ n = ToNumber (nullish (input_field data in_cigarettes_smoked) (JNumber (int 0)))
    ∧ (b = true → is_zero n = true)
    ∧ match input_field data in_smoke_free with
      | JBool x => b = x && is_zero n
      | _ => b = is_zero n
      end.
Proof.
  intros Hw. apply upsertDailyLog_ok in Hw as (_ & _ & ->).
  rewrite lookup_insert_eq. unfold normalized.
  set (n := ToNumber _).
  destruct (input_field data in_smoke_free) as [| |x| |] eqn:E.
  all: eexists n, _; split; [reflexivity|]; split; [reflexivity|]; split; [|reflexivity].
  all: try done.
  by intros [_ ?]%andb_true_iff.
Qed.
End DailyLogWrite.

Lemma upsertDailyLog_smoke_free_witness :
  ∃ n b,
    dailyLogs (@upsertDailyLog utc "u1" "2024-01-09" (Some flaggedInput) world1).2
      !! ("u1", "2024-01-09")
    = Some {| date := JString "2024-01-09"; cigarettes_smoked := JNumber n;
              smoke_free := JBool b |}
    ∧ (b = true → is_zero n = true).
Proof.
  destruct (@upsertDailyLog_smoke_free utc "u1" "2024-01-09" (Some flaggedInput) world1
              (@upsertDailyLog utc "u1" "2024-01-09" (Some flaggedInput) world1).2 true)
    as (n & b & H1 & _ & H2 & _); [vm_compute; reflexivity|].
  exists n, b. split; [exact H1 | exact H2].
Defined.

(** C7 as stated fails: an explicit [smoke_free = false] with no cigarettes
    is stored as [false] although the count is 0. *)
Lemma upsertDailyLog_explicit_false_counterexample :
  dailyLogs (@upsertDailyLog utc "u1" "2024-01-09" (Some flaggedInput) world1).2
    !! ("u1", "2024-01-09")
  = Some {| date := JString "2024-01-09"; cigarettes_smoked := JNumber (int 0);
            smoke_free := JBool false |}
  ∧ JBool false ≠ JBool (is_zero (int 0)).
Proof. split; [vm_compute; reflexivity | vm_compute; discriminate]. Qed.

Section Conditions.

Lemma ge_mono (a : number) (lo hi : Z) : lo ≤ hi → ge a hi = true → ge a lo = true.
Proof.
  destruct a as [|neg|x]; simpl; [done|done|].
  intros Hle Hhi. apply Qle_bool_iff. apply Qle_bool_iff in Hhi.
  eapply Qle_trans; [|exact Hhi]. by rewrite <- Zle_Qle.
Qed.

Lemma streakTable_checks (s : Snapshot) :
  Forall (fun p => check s p.1 = Some (ge (streakDays s) p.2)) streakTable.
Proof. unfold streakTable. repeat constructor. Qed.

(** C8.  Of two streak achievements, the one with the lower threshold holds
    whenever the one with the higher threshold does; in particular
    [streak30] implies [streak1] to [streak20]. *)
Theorem streak_conditions_monotonic (s : Snapshot) (lo hi : string) (klo khi : Z) :
  (lo, klo) ∈ streakTable → (hi, khi) ∈ streakTable → klo ≤ khi →
  check s hi = Some true → check s lo = Some true.
Proof.
  intros Hlo Hhi Hle Hc.
  pose proof (streakTable_checks s) as Ht. rewrite Forall_forall in Ht.
  pose proof (Ht _ Hlo) as Elo. pose proof (Ht _ Hhi) as Ehi. simpl in *.
  rewrite Elo. rewrite Ehi in Hc. injection Hc as Hc. f_equal. by eapply ge_mono.
Qed.
End Conditions.

Lemma streak_conditions_monotonic_witness :
  check thirtyDays "streak30" = Some true ∧ check thirtyDays "streak20" = Some true.
Proof.
  assert (H30 : check thirtyDays "streak30" = Some true) by reflexivity.
  split; [exact H30|].
  apply (streak_conditions_monotonic thirtyDays "streak20" "streak30" 20 30).
  - unfold streakTable. do 5 apply list_elem_of_further. apply list_elem_of_here.
  - unfold streakTable. do 6 apply list_elem_of_further. apply list_elem_of_here.
  - lia.
  - exact H30.
Defined.

(** ** The leaderboard rank *)

Section Leaderboard.

Lemma num_leb_total a b : num_leb a b = true ∨ num_leb b a = true.
Proof.
  destruct a as [|[]|x], b as [|[]|y]; simpl; auto.
  destruct (Qlt_le_dec y x) as [Hlt|Hle].
  - right. apply Qle_bool_iff. by apply Qlt_le_weak.
  - left. by apply Qle_bool_iff.
Qed.

Lemma num_leb_trans a b c : num_leb a b = true → num_leb b c = true → num_leb a c = true.
Proof.
  destruct a as [|[]|x], b as [|[]|y], c as [|[]|z]; simpl; try done.
  rewrite !Qle_bool_iff. apply Qle_trans.
Qed.

#[local] Instance before_total field : Total (before field).
Proof. intros a b. unfold before. destruct (num_leb_total (key field b) (key field a)); auto. Qed.

#[local] Instance before_trans field : Transitive (before field).
Proof. intros a b c Hab Hbc. unfold before in *. by eapply num_leb_trans. Qed.

(** The loop, started at position [p] with no rank yet, finds the first
    matching row. *)
Lemma fold_rank_found uid rows r p :
  (fold_left (rankStep uid) rows (Some r, p)).1 = Some r.
Proof.
  revert p. induction rows as [|d rows IH]; intros p; simpl; [done|].
  unfold rankStep at 2. simpl. rewrite andb_false_r. apply IH.
Qed.

Lemma fold_rank_position uid rows p :
  (fold_left (rankStep uid) rows (None, p)).1 = (fun k => p + k) <$> positionOf uid rows.
Proof.
  revert p. induction rows as [|d rows IH]; intros p; simpl; [done|].
  unfold rankStep at 2. simpl. fold (isRowOf uid d).
  destruct (isRowOf uid d); simpl.
  - by rewrite fold_rank_found.
  - rewrite IH. destruct (positionOf uid rows); simpl; [|done]. f_equal. lia.
Qed.

Lemma rankIn_positionOf uid rows : rankIn uid rows = positionOf uid rows.
Proof.
  unfold rankIn. rewrite fold_rank_position.
  destruct (positionOf uid rows); simpl; [f_equal; lia|done].
Qed.

Lemma positionOf_bounds uid rows k :
  positionOf uid rows = Some k → 1 ≤ k ≤ Z.of_nat (length rows).
Proof.
  revert k. induction rows as [|d rows IH]; intros k; simpl; [done|].
  destruct (isRowOf uid d); [intros [= <-]; lia|].
  destruct (positionOf uid rows) as [j|]; simpl; [|done].
  intros [= <-]. specialize (IH j eq_refl). lia.
Qed.

Lemma positionOf_first uid rows k :
  positionOf uid rows = Some k →
  ∃ i d, k = Z.of_nat i + 1 ∧ rows !! i = Some d ∧ isRowOf uid d = true
         ∧ ∀ j d', (j < i)%nat → rows !! j = Some d' → isRowOf uid d' = false.
Proof.
  revert k. induction rows as [|d rows IH]; intros k; simpl; [done|].
  destruct (isRowOf uid d) eqn:E.
  - intros [= <-]. exists 0%nat, d. repeat split; try done. intros j d' Hj. lia.
  - destruct (positionOf uid rows) as [j|]; simpl; [|done].
    intros [= <-]. destruct (IH j eq_refl) as (i & d0 & -> & Hi & Hd & Hbefore).
    exists (S i), d0. repeat split; try done; [lia|].
    intros [|j'] d' Hj; simpl; [by intros [= <-]|]. apply Hbefore. lia.
Qed.

Lemma positionOf_none uid rows :
  positionOf uid rows = None → ∀ d, d ∈ rows → isRowOf uid d = false.
Proof.
  induction rows as [|d rows IH]; simpl; [intros _ d Hd; by apply elem_of_nil in Hd|].
  destruct (isRowOf uid d) eqn:E; [done|].
  destruct (positionOf uid rows); simpl; [done|].
  intros _ d' [->|Hd']%elem_of_cons; [done|by apply IH].
Qed.

(** C9.  When the read succeeds, the rank is the 1-based position of the
    first row of the user among the first three rows of the leaderboard
    ordered descending by the field (the rows that have the field), or
    null when none of the three is the user's; it is null, 1, 2 or 3. *)
Theorem getLeaderboardRankTop3_position (field uid : string) (w : World) :
  nextFault w = None →
  let rows := orderByDesc field (map_to_list (leaderboard w)) in
  let rank := positionOf uid (take 3 rows) in
  getLeaderboardRankTop3 field uid w = (Ok rank, called (EvRead "leaderboard") w)
  ∧ (rank = None ∨ rank = Some 1 ∨ rank = Some 2 ∨ rank = Some 3)
  ∧ StronglySorted (before field) rows
  ∧ rows ≡ₚ List.filter (hasMetric field) (map_to_list (leaderboard w))
  ∧ (∀ k, rank = Some k →
       ∃ i d, k = Z.of_nat i + 1 ∧ take 3 rows !! i = Some d ∧ isRowOf uid d = true
              ∧ ∀ j d', (j < i)%nat → take 3 rows !! j = Some d' → isRowOf uid d' = false)
  ∧ (rank = None → ∀ d, d ∈ take 3 rows → isRowOf uid d = false).
Proof.
  intros Hn rows rank.
  split.
  { unfold getLeaderboardRankTop3, read, external, mbind, M_bind, mret, M_ret.
    rewrite Hn. simpl. by rewrite rankIn_positionOf. }
  split.
  { destruct rank as [k|] eqn:E; [|by left]. right.
    apply positionOf_bounds in E. rewrite length_take in E.
    assert (k = 1 ∨ k = 2 ∨ k = 3) as [->| [->| ->]] by lia; auto. }
  split; [apply StronglySorted_merge_sort; apply _|].
  split; [apply merge_sort_Permutation|].
  split; [apply positionOf_first | apply positionOf_none].
Qed.

End Leaderboard.

Lemma getLeaderboardRankTop3_position_witness :
  (getLeaderboardRankTop3 "points" "u1" world4).1 = Ok (Some 3)
  ∧ (getLeaderboardRankTop3 "points" "u3" world4).1 = Ok None.
Proof.
  split.
  - rewrite (proj1 (getLeaderboardRankTop3_position "points" "u1" world4 eq_refl)).
    vm_compute. reflexivity.
  - rewrite (proj1 (getLeaderboardRankTop3_position "points" "u3" world4 eq_refl)).
    vm_compute. reflexivity.
Defined.

(** ** The evaluation pass *)

Section Evaluator.
Context `{Runtime}.

(** A [try] whose handler never throws never throws. *)
Lemma catch_total {A} (m : M A) (h : Error → M A) :
  (∀ e w, ∃ a, (h e w).1 = Ok a) → ∀ w, ∃ a, (catch m h w).1 = Ok a.
Proof.
  intros Hh w. unfold catch. destruct (m w) as [[a|e] w']; [by exists a|apply Hh].
Qed.

Lemma keeps_ret {A} (a : A) : keepsBadges (mret a).
Proof. by intros w. Qed.

Lemma keeps_throw {A} e : keepsBadges (@throw A e).
Proof. by intros w. Qed.

Lemma keeps_gets {A} (f : World → A) : keepsBadges (gets f).
Proof. by intros w. Qed.

Lemma keeps_read {A} path (f : World → A) : keepsBadges (read path f).
Proof. intros w. unfold read, external. by destruct (nextFault w). Qed.

Lemma keeps_bind {A B} (m : M A) (k : A → M B) :
  keepsBadges m → (∀ a, keepsBadges (k a)) → keepsBadges (m ≫= k).
Proof.
  intros Hm Hk w. unfold mbind, M_bind. specialize (Hm w).
  destruct (m w) as [[a|e] w1]; simpl in *; [|done]. by rewrite Hk.
Qed.

Lemma keeps_catch {A} (m : M A) (h : Error → M A) :
  keepsBadges m → (∀ e, keepsBadges (h e)) → keepsBadges (catch m h).
Proof.
  intros Hm Hh w. unfold catch. specialize (Hm w).
  destruct (m w) as [[a|e] w1]; simpl in *; [done|]. by rewrite Hh.
Qed.

Lemma keeps_settle {A} (m : M A) : keepsBadges m → keepsBadges (settle m).
Proof. intros Hm w. unfold settle. specialize (Hm w). by destruct (m w). Qed.

Lemma keeps_computeStreakFromQuit uid quitIso todayIso :
  keepsBadges (computeStreakFromQuit uid quitIso todayIso).
Proof.
  unfold computeStreakFromQuit. destruct (missing quitIso); [apply keeps_ret|].
  apply keeps_bind; [apply keeps_settle, keeps_read|]. intros r1.
  apply keeps_bind; [apply keeps_settle, keeps_read|]. intros r2.
  destruct r1, r2; try apply keeps_throw.
  destruct (streakOf _ _ _ _); [apply keeps_ret | apply keeps_throw].
Qed.

Lemma keeps_getLeaderboardRankTop3 field uid : keepsBadges (getLeaderboardRankTop3 field uid).
Proof.
  unfold getLeaderboardRankTop3. apply keeps_bind; [apply keeps_read|]. intros; apply keeps_ret.
Qed.

Lemma keeps_snapshot u : keepsBadges (snapshot u).
Proof.
  unfold snapshot.
  apply keeps_bind; [apply keeps_read|]. intros profile.
  apply keeps_bind; [apply keeps_gets|]. intros now.
  destruct (quitIsoOf profile); [|apply keeps_throw].
  apply keeps_bind; [apply keeps_computeStreakFromQuit|]. intros streak.
  apply keeps_bind; [apply keeps_read|]. intros logs.
  apply keeps_bind.
  { apply keeps_catch.
    - apply keeps_bind; [apply keeps_read|]. intros; apply keeps_ret.
    - intros e. destruct (code e =? "permission-denied")%string; apply keeps_ret. }
  intros [l|n]; [apply keeps_ret|].
  apply keeps_bind; [apply keeps_getLeaderboardRankTop3|]. intros r1.
  apply keeps_bind; [apply keeps_getLeaderboardRankTop3|]. intros r2.
  apply keeps_bind; [apply keeps_getLeaderboardRankTop3|]. intros r3.
  apply keeps_ret.
Qed.

Lemma evaluate_never_throws uid w : ∃ l, (evaluateAndUnlockBadges uid w).1 = Ok l.
Proof.
  unfold evaluateAndUnlockBadges, mbind, M_bind, gets.
  destruct (missing uid || negb (bool_decide (uid = curUid w))); [by exists []|].
  apply catch_total. intros e w'.
  destruct (isPermissionError e); by exists [].
Qed.

Lemma evaluate_auth_mismatch uid w :
  missing uid = true ∨ uid ≠ curUid w → evaluateAndUnlockBadges uid w = (Ok [], w).
Proof.
  intros Hm. unfold evaluateAndUnlockBadges, mbind, M_bind, gets.
  destruct Hm as [-> | Hne]; [done|].
  rewrite (bool_decide_eq_false_2 _ Hne). simpl. by rewrite orb_true_r.
Qed.

Lemma evaluate_signed_in (u : string) w :
  u ≠ EmptyString → curUid w = Some u →
  missing (Some u) || negb (bool_decide (Some u = curUid w)) = false.
Proof.
  intros Hu ->. simpl. rewrite bool_decide_eq_true_2 by done.
  apply orb_false_iff. split; [by apply String.eqb_neq|done].
Qed.

Lemma evaluate_snapshot_throws (u : string) w e w' :
  u ≠ EmptyString → curUid w = Some u → snapshot u w = (Throw e, w') →
  (evaluateAndUnlockBadges (Some u) w).1 = Ok [].
Proof.
  intros Hu Hc Hs. unfold evaluateAndUnlockBadges, mbind, M_bind, gets.
  rewrite (evaluate_signed_in u w Hu Hc). unfold catch. simpl. rewrite Hs.
  by destruct (isPermissionError e).
Qed.

(** The only early return of the snapshot is the refused challenge query,
    and it returns the empty list. *)
Lemma snapshot_early_return u w l w' : snapshot u w = (Ok (inl l), w') → l = [].
Proof.
  unfold snapshot, mbind, M_bind, mret, M_ret, throw.
  destruct (read "users" _ w) as [[profile|e0] w1]; [|done].
  unfold gets. destruct (quitIsoOf profile) as [quitIso|e1]; [|done].
  destruct (computeStreakFromQuit u quitIso _ w1) as [[streak|e2] w2]; [|done].
  destruct (countDailyLogs u w2) as [[logs|e3] w3]; [|done].
  unfold catch at 1.
  destruct (read "Challenge" (completedOf u) w3) as [[n|e4] w4]; simpl.
  - destruct (getLeaderboardRankTop3 "points" u w4) as [[r1|e5] w5]; [|done].
    destruct (getLeaderboardRankTop3 "streak" u w5) as [[r2|e6] w6]; [|done].
    by destruct (getLeaderboardRankTop3 "saved" u w6) as [[r3|e7] w7].
  - destruct (code e4 =? "permission-denied")%string; simpl; [by intros [= <- _]|].
    destruct (getLeaderboardRankTop3 "points" u w4) as [[r1|e5] w5]; [|done].
    destruct (getLeaderboardRankTop3 "streak" u w5) as [[r2|e6] w6]; [|done].
    by destruct (getLeaderboardRankTop3 "saved" u w6) as [[r3|e7] w7].
Qed.

Lemma evaluate_snapshot_returns (u : string) w l w' :
  u ≠ EmptyString → curUid w = Some u → snapshot u w = (Ok (inl l), w') →
  evaluateAndUnlockBadges (Some u) w = (Ok [], w').
Proof.
  intros Hu Hc Hs. pose proof (snapshot_early_return u w l w' Hs) as ->.
  unfold evaluateAndUnlockBadges, mbind, M_bind, gets.
  rewrite (evaluate_signed_in u w Hu Hc). unfold catch. simpl. by rewrite Hs.
Qed.

(** A refused [isUnlocked] read ends the loop with what was pushed so far. *)
Lemma iterations_read_refused u entry rest acc w e :
  nextFault w = Some e → isPermissionError e = true →
  iterations u (entry :: rest) acc w = (Ok acc, called (EvRead "badges") w).
Proof.
  intros Hn Hp. destruct entry as [id chk]. simpl.
  unfold mbind, M_bind, iteration, catch, isUnlocked, read, external.
  rewrite Hn. simpl. by rewrite Hp.
Qed.

(** A refused transaction ends it the same way. *)
Lemma iterations_write_refused u id rest acc w e :
  u ≠ EmptyString → id ≠ EmptyString →
  nextFault w = None → badges w !! (u, id) = None → id ∉ inFlightUnlocks w →
  nextFault (called (EvRead "badges") w) = Some e → code e = "permission-denied" →
  (iterations u ((id, true) :: rest) acc w).1 = Ok acc.
Proof.
  intros Hu Hi Hn Hb Hin Hn' Hc. simpl.
  unfold mbind, M_bind, iteration, catch.
  rewrite (isUnlocked_ok u id w Hn), Hb.
  rewrite bool_decide_eq_false_2 by (by intros [? ?]). simpl.
  pose proof (unlock_outcome (Some u) (Some id) (called (EvRead "badges") w)) as Ho.
  destruct (unlock (Some u) (Some id) (called (EvRead "badges") w)) as [r w1]. simpl in Ho.
  assert (r = Throw e) as ->.
  { inversion Ho as [Hm|Hm Hi'|e' w2 Hm Hi' Hf F N T Hr|w2 Hm Hi' Hf Hs F N T
                     |w2 t Hm Hi' Hf Hs B I T Q]; subst; simpl in *.
    - apply orb_true_iff in Hm as [Hm|Hm]; by apply String.eqb_eq in Hm.
    - done.
    - rewrite Hn' in Hf. injection Hf as <-. by rewrite Hc.
    - congruence.
    - congruence. }
  simpl. unfold isPermissionError. by rewrite Hc.
Qed.

Lemma refusedAt_now e w : refusedAt 0 e w → nextFault w = Some e.
Proof. intros [rest Hf]. unfold nextFault. by rewrite Hf. Qed.

Lemma refusedAt_later k e w ev :
  refusedAt (S k) e w → nextFault w = None ∧ refusedAt k e (called ev w).
Proof.
  intros [rest Hf]. split.
  - unfold nextFault. by rewrite Hf.
  - exists rest. unfold called. simpl. by rewrite Hf.
Qed.

Lemma read_refused {A} path (f : World → A) e w :
  refusedAt 0 e w → read path f w = (Throw e, called (EvRead path) w).
Proof. intros Hn%refusedAt_now. unfold read, external. by rewrite Hn. Qed.

Lemma read_passed {A} path (f : World → A) k e w :
  refusedAt (S k) e w →
  read path f w = (Ok (f (called (EvRead path) w)), called (EvRead path) w)
  ∧ refusedAt k e (called (EvRead path) w).
Proof.
  intros [Hn Hr]%(refusedAt_later k e w (EvRead path)). split; [|done].
  unfold read, external. by rewrite Hn.
Qed.

(** The streak queries under a refusal: the call throws when one of its two
    reads is refused, and otherwise leaves the refusal two calls nearer. *)
Lemma computeStreakFromQuit_refused u quitIso today k e w :
  refusedAt k e w →
  match computeStreakFromQuit u quitIso today w with
  | (Throw _, _) => True
  | (Ok _, w') =>
      ∃ k', refusedAt k' e w' ∧ k = (k' + if missing quitIso then 0 else 2)%nat
  end.
Proof.
  intros Hr. unfold computeStreakFromQuit.
  destruct (missing quitIso).
  { exists k. split; [done|lia]. }
  unfold mbind, M_bind, settle.
  destruct k as [|k].
  { rewrite (read_refused _ _ e w Hr).
    by destruct (read "dailyLogs" _ (called (EvRead "dailyLogs") w)) as [[?|?] ?]. }
  destruct (read_passed "dailyLogs"
              (λ w0, slipQuery (λ d, is_false (smoke_free d)) (default EmptyString quitIso)
                       today (logsOf u w0)) k e w Hr) as [-> Hr1].
  destruct k as [|k].
  { by rewrite (read_refused _ _ e _ Hr1). }
  destruct (read_passed "dailyLogs"
              (λ w0, slipQuery (λ d, gt_zero (cigarettes_smoked d)) (default EmptyString quitIso)
                       today (logsOf u w0)) k e _ Hr1) as [-> Hr2].
  destruct (streakOf _ _ _ _); [|done].
  exists k. split; [done|lia].
Qed.

(** What ends the snapshot when one of its reads is refused. *)
Lemma snapshot_refused u w k e :
  refusedAt k e w → code e = "permission-denied" → (k < snapshotReads u w)%nat →
  match (snapshot u w).1 with
  | Throw _ => True
  | Ok (inl l) => l = []
  | Ok (inr _) => False
  end.
Proof.
  intros Hr Hc Hk. unfold snapshot, snapshotReads in *.
  unfold mbind at 1, M_bind at 1.
  destruct k as [|k].
  { rewrite (read_refused _ _ e w Hr). done. }
  destruct (read_passed "users" (λ w0, users w0 !! u) k e w Hr) as [-> Hr1].
  change (users (called (EvRead "users") w) !! u) with (users w !! u).
  unfold gets, mbind at 1, M_bind at 1.
  destruct (quitIsoOf (users w !! u)) as [quitIso|e0]; [|done].
  unfold mbind at 1, M_bind at 1.
  pose proof (computeStreakFromQuit_refused u quitIso
                (slice10 (toISOString (clock (called (EvRead "users") w)))) k e _ Hr1) as Hs.
  destruct (computeStreakFromQuit u quitIso _ _) as [[streak|e1] w2]; [|done].
  destruct Hs as (k2 & Hr2 & Hk2).
  assert (Hk' : (k2 < 5)%nat) by (destruct (missing quitIso); lia).
  clear Hk Hk2 Hr1 Hr.
  (* the log count *)
  unfold mbind at 1, M_bind at 1, countDailyLogs.
  destruct k2 as [|k3].
  { rewrite (read_refused _ _ e w2 Hr2). done. }
  destruct (read_passed "dailyLogs" (λ w0, Z.of_nat (length (logsOf u w0))) k3 e w2 Hr2)
    as [-> Hr3].
  (* the challenge query *)
  unfold mbind at 1, M_bind at 1, catch.
  unfold mbind at 1, M_bind at 1.
  destruct k3 as [|k4].
  { rewrite (read_refused _ _ e _ Hr3). by rewrite Hc. }
  destruct (read_passed "Challenge" (completedOf u) k4 e _ Hr3) as [-> Hr4].
  cbn [mret M_ret].
  (* the three boards *)
  unfold getLeaderboardRankTop3.
  unfold mbind at 1, M_bind at 1. unfold mbind at 1, M_bind at 1.
  destruct k4 as [|k5].
  { rewrite (read_refused _ _ e _ Hr4). done. }
  destruct (read_passed "leaderboard" (topQuery "points") k5 e _ Hr4) as [-> Hr5].
  cbn [mret M_ret].
  unfold mbind at 1, M_bind at 1. unfold mbind at 1, M_bind at 1.
  destruct k5 as [|k6].
  { rewrite (read_refused _ _ e _ Hr5). done. }
  destruct (read_passed "leaderboard" (topQuery "streak") k6 e _ Hr5) as [-> Hr6].
  cbn [mret M_ret].
  unfold mbind at 1, M_bind at 1. unfold mbind at 1, M_bind at 1.
  destruct k6 as [|k7]; [|lia].
  rewrite (read_refused _ _ e _ Hr6). done.
Qed.

Lemma evaluate_snapshot_refused (u : string) w k e :
  u ≠ EmptyString → curUid w = Some u →
  refusedAt k e w → code e = "permission-denied" → (k < snapshotReads u w)%nat →
  (evaluateAndUnlockBadges (Some u) w).1 = Ok []
  ∧ badges (evaluateAndUnlockBadges (Some u) w).2 = badges w.
Proof.
  intros Hu Hcur Hr Hc Hk.
  pose proof (snapshot_refused u w k e Hr Hc Hk) as Hs.
  pose proof (keeps_snapshot u w) as Hb.
  unfold evaluateAndUnlockBadges, mbind, M_bind, gets.
  rewrite (evaluate_signed_in u w Hu Hcur). unfold catch. cbv beta.
  change (default EmptyString (Some u)) with u.
  destruct (snapshot u w) as [[[l|snap]|e'] w1]; cbn [fst snd] in *.
  - subst l. done.
  - done.
  - by destruct (isPermissionError e').
Qed.

(** C4, amended.  [evaluateAndUnlockBadges] never throws.  It returns the
    empty list, doing nothing, when the uid is missing or is not the
    signed-in user.  When the environment refuses, with
    [permission-denied], one of the reads of the snapshot (the profile, a
    streak query, the log count, the challenge query, a leaderboard query)
    it returns the empty list and leaves the badges as they were.  When a
    badge read or an unlock transaction inside the loop is refused it
    returns the list pushed so far, at once. *)
Theorem evaluate_permission_failure :
  (∀ uid w, ∃ l, (evaluateAndUnlockBadges uid w).1 = Ok l)
  ∧ (∀ uid w, missing uid = true ∨ uid ≠ curUid w →
              evaluateAndUnlockBadges uid w = (Ok [], w))
  ∧ (∀ (u : string) w k e, u ≠ EmptyString → curUid w = Some u →
       refusedAt k e w → code e = "permission-denied" → (k < snapshotReads u w)%nat →
       (evaluateAndUnlockBadges (Some u) w).1 = Ok []
       ∧ badges (evaluateAndUnlockBadges (Some u) w).2 = badges w)
  ∧ (∀ u entry rest acc w e, nextFault w = Some e → isPermissionError e = true →
       iterations u (entry :: rest) acc w = (Ok acc, called (EvRead "badges") w))
  ∧ (∀ u id rest acc w e, u ≠ EmptyString → id ≠ EmptyString →
       nextFault w = None → badges w !! (u, id) = None → id ∉ inFlightUnlocks w →
       nextFault (called (EvRead "badges") w) = Some e → code e = "permission-denied" →
       (iterations u ((id, true) :: rest) acc w).1 = Ok acc).
Proof.
  split; [apply evaluate_never_throws|].
  split; [apply evaluate_auth_mismatch|].
  split; [apply evaluate_snapshot_refused|].
  split; [apply iterations_read_refused | apply iterations_write_refused].
Qed.
End Evaluator.

(** The challenge query, the fifth read of [world1]'s snapshot, is refused:
    the pass ends there with the empty list. *)
Lemma evaluate_permission_failure_witness :
  (@evaluateAndUnlockBadges utc (Some "u1")
     (with_faults (replicate 4 None ++ [Some permissionDenied]) world1)).1 = Ok [].
Proof.
  destruct (@evaluate_permission_failure utc) as (_ & _ & H3 & _).
  destruct (H3 "u1" (with_faults (replicate 4 None ++ [Some permissionDenied]) world1)
              4%nat permissionDenied) as [Hr _];
    [discriminate | reflexivity | by exists [] | reflexivity | vm_compute; lia | exact Hr].
Defined.

(** Refused with another code, the challenge query counts as 0 and the
    pass goes on to unlock. *)
Example evaluate_challenge_unavailable :
  (@evaluateAndUnlockBadges utc (Some "u1")
     (with_faults (replicate 4 None ++ [Some unavailable]) world1)).1 ≠ Ok [].
Proof. vm_compute. discriminate. Qed.

(** C4 as stated fails: the thirteenth call of the pass is refused after
    "welcome" was unlocked, and the pass returns ["welcome"]. *)
Lemma evaluate_mid_loop_counterexample :
  isPermissionError permissionDenied = true
  ∧ faults world3 = replicate 12 None ++ [Some permissionDenied]
  ∧ faults (@evaluateAndUnlockBadges utc (Some "u1") world3).2 = []
  ∧ (@evaluateAndUnlockBadges utc (Some "u1") world3).1 = Ok ["welcome"]
  ∧ (@evaluateAndUnlockBadges utc (Some "u1") world3).1 ≠ Ok [].
Proof.
  split; [vm_compute; reflexivity|].
  split; [vm_compute; reflexivity|].
  split; [vm_compute; reflexivity|].
  split; [vm_compute; reflexivity|].
  vm_compute. discriminate.
Qed.

(** ** The streak calculator *)

(** C2, at the specification's example.  On a host on UTC the streak starts
    on 2024-01-06 and counts 4 days; on a host two hours east of UTC the
    "next day" is printed from UTC and stays 2024-01-05, and the streak
    counts 5 days. *)
Theorem computeStreakFromQuit_east_of_utc :
  (@computeStreakFromQuit utc "u1" (Some "2024-01-01") "2024-01-10" world1).1
  = Ok {| current_streak_days := int 4;
          streak_start_date := Some "2024-01-06";
          last_slip_date := Some "2024-01-05" |}
  ∧ (@computeStreakFromQuit athensWinter "u1" (Some "2024-01-01") "2024-01-10" world1).1
    = Ok {| current_streak_days := int 5;
            streak_start_date := Some "2024-01-05";
            last_slip_date := Some "2024-01-05" |}.
Proof. split; vm_compute; reflexivity. Qed.

(** * Further properties

    What follows covers the rest of the badge and daily-log services: how
    [unlock] leaves the in-flight set and reports transaction errors, what
    one evaluation pass can return, the seen flag and the badge list, the
    slip the streak calculator picks, the calendar arithmetic behind the
    streak, the write path of the daily-log page and the notification
    card. *)

(** ** The in-flight set and transaction errors *)

Section InFlight.

(** X1.  [unlock] leaves the in-flight set as it found it, whether it
    returns or throws: the [finally] block of the source runs on every path
    that added the badge id, and the two early returns add nothing. *)
Theorem unlock_restores_inFlight (uid badgeId : option string) (w : World) :
  inFlightUnlocks (unlock uid badgeId w).2 = inFlightUnlocks w.
Proof.
  destruct (unlock_outcome uid badgeId w)
    as [Hm|Hm Hin|e w' Hm Hin Hn F N T|w' Hm Hin Hn Hb F N T|w' t Hm Hin Hn Hb B I T Q];
    try done; by destruct F.
Qed.

(** X2.  A transaction that fails with anything but [already-exists] makes
    [unlock] throw that very error: no badge is written, no notification is
    stored or attempted, and the only call made is the transaction. *)
Theorem unlock_rethrows (u b : string) (w : World) (e : Error) :
  u ≠ EmptyString → b ≠ EmptyString → b ∉ inFlightUnlocks w →
  nextFault w = Some e → code e ≠ "already-exists" →
  (unlock (Some u) (Some b) w).1 = Throw e
  ∧ badges (unlock (Some u) (Some b) w).2 = badges w
  ∧ notifications (unlock (Some u) (Some b) w).2 = notifications w
  ∧ trace (unlock (Some u) (Some b) w).2 = trace w ++ [EvTransaction u b].
Proof.
  intros Hu Hb Hin Hn Hc.
  pose proof (present_ids u b Hu Hb) as Hm.
  destruct (unlock_outcome (Some u) (Some b) w)
    as [Hm'|Hm' Hin'|e' w' _ _ Hn' F N T|w' _ _ Hn' _ F N T|w' t _ _ Hn' _ B I T Q];
    simpl in *; try congruence; try done.
  rewrite Hn in Hn'. injection Hn' as <-.
  apply String.eqb_neq in Hc. rewrite Hc. by destruct F.
Qed.

End InFlight.

Lemma unlock_rethrows_witness :
(unlock (Some "u1") (Some "streak1") (with_faults [Some unavailable] world1)).1
= Throw unavailable.
Proof.
apply (unlock_rethrows "u1" "streak1" (with_faults [Some unavailable] world1) unavailable).
- discriminate.
- discriminate.
- apply not_elem_of_empty.
- reflexivity.
- discriminate.
Defined.

(** ** One evaluation pass *)

Section Pass.
Context `{Runtime}.

Lemma conditions_ids (s : Snapshot) : (conditions s).*1 = conditionIds.
Proof. reflexivity. Qed.

Lemma conditionIds_NoDup : NoDup conditionIds.
Proof. apply (bool_decide_unpack _). vm_compute. exact I. Qed.

(** One iteration pushes its own id or nothing. *)
Lemma iteration_pushes u acc id chk w r w' :
  iteration u acc (id, chk) w = (Ok r, w') →
  match r with
  | Next l => l = acc ∨ (l = acc ++ [id] ∧ chk = true ∧ badges w !! (u, id) = None)
  | Return l => l = acc
  end.
Proof.
  unfold iteration, catch, mbind, M_bind, mret, M_ret, isUnlocked, read, external.
  destruct (nextFault w) as [e|]; simpl.
  { destruct (isPermissionError e); simpl; intros [= <- _]; auto. }
  case_bool_decide as Hs; simpl.
  { intros [= <- _]. auto. }
  destruct chk; simpl; [|intros [= <- _]; auto].
  destruct (unlock (Some u) (Some id) _) as [[res|e] w1]; simpl.
  - intros [= <- _]. right. repeat split.
    destruct (badges w !! (u, id)) eqn:E; [|done]. exfalso. apply Hs. eauto.
  - destruct (isPermissionError e); simpl; intros [= <- _]; auto.
Qed.

Lemma iteration_keeps_records u acc entry w k d :
  badges w !! k = Some d → badges (iteration u acc entry w).2 !! k = Some d.
Proof.
  destruct entry as [id chk]. intros Hk.
  unfold iteration, catch, mbind, M_bind, mret, M_ret, isUnlocked, read, external.
  destruct (nextFault w) as [e|]; simpl.
  { by destruct (isPermissionError e). }
  destruct (negb _ && chk); simpl; [|done].
  pose proof (unlock_keeps_records (Some u) (Some id) (called (EvRead "badges") w) k d Hk) as Hu.
  destruct (unlock (Some u) (Some id) _) as [[res|e] w1]; simpl in *; [done|].
  by destruct (isPermissionError e).
Qed.

Lemma iterations_report u entries acc w l w' :
  iterations u entries acc w = (Ok l, w') →
  ∃ l', l = acc ++ l' ∧ l' `sublist_of` entries.*1
        ∧ ∀ id, id ∈ l' → badges w !! (u, id) = None.
Proof.
  revert acc w. induction entries as [|[id chk] rest IH]; intros acc w; cbn [iterations].
  { intros [= <- _]. exists []. rewrite app_nil_r.
    split; [done|]. split; [done|]. intros id Hid. by apply elem_of_nil in Hid. }
  unfold mbind, M_bind.
  destruct (iteration u acc (id, chk) w) as [[r|e] w1] eqn:Hit; simpl; [|done].
  pose proof (iteration_pushes u acc id chk w r w1 Hit) as Hp.
  assert (Hkeep : ∀ k d, badges w !! k = Some d → badges w1 !! k = Some d).
  { intros k d Hk. pose proof (iteration_keeps_records u acc (id, chk) w k d Hk) as Hq.
    by rewrite Hit in Hq. }
  assert (Hback : ∀ k, badges w1 !! k = None → badges w !! k = None).
  { intros k Hk. destruct (badges w !! k) eqn:E; [|done].
    apply Hkeep in E. congruence. }
  destruct r as [l0|l0].
  - intros Hrest. destruct (IH l0 w1 Hrest) as (l' & -> & Hsub & Hnone).
    destruct Hp as [-> | (-> & _ & Hb)].
    + exists l'. split; [done|]. split; [by apply sublist_cons|].
      intros i Hi. apply Hback, Hnone, Hi.
    + exists (id :: l'). rewrite <- app_assoc. split; [done|].
      split; [by apply sublist_skip|].
      intros i [-> | Hi]%elem_of_cons; [done|]. apply Hback, Hnone, Hi.
  - intros [= <- _]. subst l0. exists []. rewrite app_nil_r.
    split; [done|]. split; [apply sublist_nil_l|].
    intros i Hi. by apply elem_of_nil in Hi.
Qed.

(** X3.  Whatever the environment does, the list a pass returns names
    conditions of the table in the table's order, each at most once, and
    only badges that had no record when the pass began. *)
Theorem evaluate_reports_locked_in_order (uid : option string) (w : World) (l : list string) :
  (evaluateAndUnlockBadges uid w).1 = Ok l →
  l `sublist_of` conditionIds
  ∧ NoDup l
  ∧ ∀ id, id ∈ l → badges w !! (default EmptyString uid, id) = None.
Proof.
  intros He.
  assert (Hmain : l `sublist_of` conditionIds
                  ∧ ∀ id, id ∈ l → badges w !! (default EmptyString uid, id) = None).
  { revert He. unfold evaluateAndUnlockBadges, mbind, M_bind, gets.
    destruct (missing uid || negb (bool_decide (uid = curUid w))).
    { intros [= <-]. split; [apply sublist_nil_l|]. intros i Hi. by apply elem_of_nil in Hi. }
    unfold catch. cbv beta.
    pose proof (keeps_snapshot (default EmptyString uid) w) as Hk.
    destruct (snapshot (default EmptyString uid) w) as [[[l0|snap]|e] w1] eqn:Hs;
      cbv beta iota; cbn [fst snd] in *.
    - apply snapshot_early_return in Hs as ->. intros [= <-].
      split; [apply sublist_nil_l|]. intros i Hi. by apply elem_of_nil in Hi.
    - destruct (iterations (default EmptyString uid) (conditions snap) [] w1)
        as [[l1|e] w2] eqn:Hit; cbv beta iota; cbn [fst snd].
      + intros [= <-]. apply iterations_report in Hit as (l' & -> & Hsub & Hnone).
        rewrite conditions_ids in Hsub. rewrite app_nil_l. split; [done|].
        intros i Hi. rewrite <- Hk. by apply Hnone.
      + destruct (isPermissionError e); cbv beta iota; cbn [fst snd]; intros [= <-].
        all: split; [apply sublist_nil_l|]; intros i Hi; by apply elem_of_nil in Hi.
    - destruct (isPermissionError e); cbv beta iota; cbn [fst snd]; intros [= <-].
      all: split; [apply sublist_nil_l|]; intros i Hi; by apply elem_of_nil in Hi. }
  destruct Hmain as [Hsub Hnone]. split; [done|]. split; [|done].
  eapply sublist_NoDup; [apply conditionIds_NoDup | exact Hsub].
Qed.
End Pass.

Lemma evaluate_reports_locked_in_order_witness :
["welcome"] `sublist_of` conditionIds ∧ badges world3 !! ("u1", "welcome") = None.
Proof.
destruct (@evaluate_reports_locked_in_order utc (Some "u1") world3 ["welcome"])
  as (H1 & _ & H3); [vm_compute; reflexivity|].
split; [exact H1|]. apply (H3 "welcome"). apply list_elem_of_here.
Defined.

(** ** The seen flag and the badge list *)

Section SeenAndListed.

Lemma markBadgeSeen_ok u b w :
  nextFault w = None →
  markBadgeSeen u b w
  = (Ok tt,
     with_badges
       (<[(u, b) := merge_badge (badges w !! (u, b))
                      {| unlockedAt := None; seen := Some true;
                         seenAt := Some (clock w + 1) |}]> (badges w))
       (called (EvBadgeSet u b) w)).
Proof. intros Hn. unfold markBadgeSeen, external. by rewrite Hn. Qed.

#[local] Instance newerFirst_total : Total newerFirst.
Proof. intros a b. unfold newerFirst. lia. Qed.

#[local] Instance newerFirst_trans : Transitive newerFirst.
Proof. intros a b c. unfold newerFirst. lia. Qed.

Lemma badgesOf_elem uid w id d :
  (id, d) ∈ badgesOf uid w ↔ badges w !! (uid, id) = Some d.
Proof.
  unfold badgesOf. rewrite list_elem_of_fmap. split.
  - intros ([[u i] d'] & [= -> ->] & Hin). simpl in *.
    apply list_elem_of_filter in Hin as [Hu Hin]. simpl in Hu. subst u.
    by apply elem_of_map_to_list in Hin.
  - intros Hb. exists ((uid, id), d). split; [done|].
    apply list_elem_of_filter. split; [done|]. by apply elem_of_map_to_list.
Qed.

Lemma listed_elem uid w id d :
  (id, d) ∈ listed uid w ↔ badges w !! (uid, id) = Some d ∧ is_Some (unlockedAt d).
Proof.
  unfold listed. rewrite merge_sort_Permutation.
  rewrite list_elem_of_In, filter_In, <- list_elem_of_In, badgesOf_elem. simpl.
  by rewrite bool_decide_eq_true.
Qed.

Lemma getUnlockedBadges_ok uid limitN w :
  nextFault w = None →
  getUnlockedBadges uid limitN w
  = (Ok match limitN with Some (S n) => take (S n) (listed uid w) | _ => listed uid w end,
     called (EvRead "badges") w).
Proof. intros Hn. unfold getUnlockedBadges, read, external. by rewrite Hn. Qed.

Lemma getUnlockedBadges_elem uid limitN w rows id d :
  nextFault w = None → (getUnlockedBadges uid limitN w).1 = Ok rows → (id, d) ∈ rows →
  badges w !! (uid, id) = Some d ∧ is_Some (unlockedAt d).
Proof.
  intros Hn. rewrite (getUnlockedBadges_ok uid limitN w Hn). simpl. intros [= <-] Hin.
  apply listed_elem. destruct limitN as [[|n]|]; try done. by eapply subseteq_take.
Qed.

Lemma getUnlockedBadges_all uid w rows id d :
  nextFault w = None → (getUnlockedBadges uid None w).1 = Ok rows →
  badges w !! (uid, id) = Some d → is_Some (unlockedAt d) → (id, d) ∈ rows.
Proof.
  intros Hn. rewrite (getUnlockedBadges_ok uid None w Hn). simpl. intros [= <-] Hb Hu.
  by apply listed_elem.
Qed.

(** X4.  A successful [getUnlockedBadges] returns stored badges of the user
    that have [unlockedAt], newest first, at most [limitN] of them when a
    positive limit is given and all of them otherwise (a limit of 0 is no
    limit); it writes nothing. *)
Theorem getUnlockedBadges_rows (uid : string) (limitN : option nat) (w : World) :
  nextFault w = None →
  ∃ rows,
    (getUnlockedBadges uid limitN w).1 = Ok rows
    ∧ (∀ id d, (id, d) ∈ rows → badges w !! (uid, id) = Some d ∧ is_Some (unlockedAt d))
    ∧ StronglySorted newerFirst rows
    ∧ (∀ n, limitN = Some (S n) → (length rows ≤ S n)%nat)
    ∧ (limitN = None ∨ limitN = Some 0%nat →
       ∀ id d, badges w !! (uid, id) = Some d → is_Some (unlockedAt d) → (id, d) ∈ rows)
    ∧ badges (getUnlockedBadges uid limitN w).2 = badges w.
Proof.
  intros Hn. rewrite (getUnlockedBadges_ok uid limitN w Hn). simpl.
  eexists. split; [reflexivity|].
  assert (Hs : StronglySorted newerFirst (listed uid w))
    by (apply StronglySorted_merge_sort; apply _).
  split; [|split; [|split; [|split]]].
  - intros id d Hin. apply listed_elem.
    destruct limitN as [[|n]|]; try done. by eapply subseteq_take.
  - destruct limitN as [[|n]|]; try done.
    rewrite <- (take_drop (S n) (listed uid w)) in Hs.
    by apply StronglySorted_app_1_l in Hs.
  - intros n ->. rewrite length_take. lia.
  - intros [-> | ->] id d Hb Hu; by apply listed_elem.
  - done.
Qed.

(** X5.  Marking an unlocked badge as seen sets [seen] and [seenAt] and
    keeps its [unlockedAt]; no other badge changes, and a refused write
    changes nothing. *)
Theorem markBadgeSeen_keeps_unlockedAt (u b : string) (w : World) (d : BadgeDoc) :
  nextFault w = None → badges w !! (u, b) = Some d →
  let w' := (markBadgeSeen u b w).2 in
  badges w' !! (u, b)
  = Some {| unlockedAt := unlockedAt d; seen := Some true; seenAt := Some (clock w + 1) |}
  ∧ (∀ k, k ≠ (u, b) → badges w' !! k = badges w !! k)
  ∧ (∀ w0 e, nextFault w0 = Some e →
       (markBadgeSeen u b w0).1 = Throw e ∧ badges (markBadgeSeen u b w0).2 = badges w0).
Proof.
  intros Hn Hd w'. subst w'. rewrite (markBadgeSeen_ok u b w Hn). simpl.
  rewrite lookup_insert_eq, Hd. split; [done|]. split.
  - intros k Hk. by rewrite lookup_insert_ne.
  - intros w0 e He. unfold markBadgeSeen, external. by rewrite He.
Qed.

(** X6.  [markBadgeSeen] does not check that the badge is unlocked: on a
    badge with no record the merge creates one, without [unlockedAt].  From
    then on [isUnlocked] answers true and [unlock] reports [deduped] and
    writes nothing, while [getUnlockedBadges] never lists the badge. *)
Theorem markBadgeSeen_unlocks_locked (u b : string) (w : World) :
  nextFault w = None → badges w !! (u, b) = None →
  let w1 := (markBadgeSeen u b w).2 in
  badges w1 !! (u, b)
  = Some {| unlockedAt := None; seen := Some true; seenAt := Some (clock w + 1) |}
  ∧ (nextFault w1 = None → (isUnlocked u b w1).1 = Ok true)
  ∧ (u ≠ EmptyString → b ≠ EmptyString → b ∉ inFlightUnlocks w → nextFault w1 = None →
     (unlock (Some u) (Some b) w1).1 = Ok (dedupedResult (Some b))
     ∧ badges (unlock (Some u) (Some b) w1).2 = badges w1)
  ∧ (nextFault w1 = None →
     ∀ limitN rows d, (getUnlockedBadges u limitN w1).1 = Ok rows → (b, d) ∉ rows).
Proof.
  intros Hn Hb w1.
  assert (Hw1 : badges w1 !! (u, b)
                = Some {| unlockedAt := None; seen := Some true;
                          seenAt := Some (clock w + 1) |}).
  { subst w1. rewrite (markBadgeSeen_ok u b w Hn). simpl.
    by rewrite lookup_insert_eq, Hb. }
  assert (Hin1 : inFlightUnlocks w1 = inFlightUnlocks w).
  { subst w1. by rewrite (markBadgeSeen_ok u b w Hn). }
  split; [exact Hw1|]. split; [|split].
  - intros Hn1. rewrite (isUnlocked_ok u b w1 Hn1). simpl. by rewrite Hw1.
  - intros Hu Hb' Hin Hn1.
    pose proof (unlock_reaching_transaction u b w1 Hu Hb') as Hc.
    rewrite Hin1 in Hc. specialize (Hc Hin Hn1). simpl in Hc. rewrite Hw1 in Hc.
    by destruct Hc as (? & ? & _).
  - intros Hn1 limitN rows d Hr Hin.
    destruct (getUnlockedBadges_elem u limitN w1 rows b d Hn1 Hr Hin) as [Hd [x Hx]].
    rewrite Hw1 in Hd. injection Hd as <-. discriminate.
Qed.
End SeenAndListed.

Lemma getUnlockedBadges_rows_witness :
∃ rows, (getUnlockedBadges "u1" (Some 1%nat)
           (unlock (Some "u1") (Some "streak1") world1).2).1 = Ok rows
        ∧ (length rows ≤ 1)%nat.
Proof.
destruct (getUnlockedBadges_rows "u1" (Some 1%nat)
            (unlock (Some "u1") (Some "streak1") world1).2)
  as (rows & Hr & _ & _ & Hl & _); [vm_compute; reflexivity|].
exists rows. split; [exact Hr | exact (Hl 0%nat eq_refl)].
Defined.

Lemma markBadgeSeen_keeps_unlockedAt_witness :
let w1 := (unlock (Some "u1") (Some "streak1") world1).2 in
badges (markBadgeSeen "u1" "streak1" w1).2 !! ("u1", "streak1")
= Some {| unlockedAt := Some 1704848400001; seen := Some true;
          seenAt := Some (clock w1 + 1) |}.
Proof.
intros w1.
exact (proj1 (markBadgeSeen_keeps_unlockedAt "u1" "streak1" w1 (newBadge 1704848400001)
                ltac:(vm_compute; reflexivity) ltac:(vm_compute; reflexivity))).
Defined.

Lemma markBadgeSeen_unlocks_locked_witness :
badges (markBadgeSeen "u1" "streak30" world1).2 !! ("u1", "streak30")
= Some {| unlockedAt := None; seen := Some true; seenAt := Some 1704848400001 |}
∧ (isUnlocked "u1" "streak30" (markBadgeSeen "u1" "streak30" world1).2).1 = Ok true.
Proof.
destruct (markBadgeSeen_unlocks_locked "u1" "streak30" world1) as (H1 & H2 & _);
  [reflexivity | vm_compute; reflexivity |].
split; [exact H1|]. apply H2. vm_compute. reflexivity.
Defined.

(** ** The slip the streak starts from *)

Section Streak.
Context `{Runtime}.

Lemma string_leb_trans (a b c : string) :
  String.leb a b = true → String.leb b c = true → String.leb a c = true.
Proof.
  unfold String.leb. revert b c.
  induction a as [|x a IH]; intros [|y b] [|z c]; simpl; try done.
  unfold Ascii.compare.
  destruct (N.compare_spec (N_of_ascii x) (N_of_ascii y)) as [E1|L1|G1],
           (N.compare_spec (N_of_ascii y) (N_of_ascii z)) as [E2|L2|G2],
           (N.compare_spec (N_of_ascii x) (N_of_ascii z)) as [E3|L3|G3];
    try done; try lia.
  apply IH.
Qed.

#[local] Instance desc_total : Total desc.
Proof. intros a b. unfold desc. destruct (String.leb_total a b); auto. Qed.

#[local] Instance desc_trans : Transitive desc.
Proof. intros a b c Hab Hbc. unfold desc in *. by eapply string_leb_trans. Qed.

Lemma string_leb_refl (a : string) : String.leb a a = true.
Proof. by destruct (String.leb_total a a). Qed.

(** The first element of a list sorted descending is its maximum. *)
Lemma head_sorted_max (l : list string) (d : string) :
  head (merge_sort desc l) = Some d → d ∈ l ∧ ∀ x, x ∈ l → String.leb x d = true.
Proof.
  intros Hh.
  pose proof (StronglySorted_merge_sort desc l) as Hs.
  pose proof (merge_sort_Permutation desc l) as Hp.
  destruct (merge_sort desc l) as [|y rest]; [done|]. injection Hh as ->.
  split.
  - rewrite <- Hp. apply list_elem_of_here.
  - intros x Hx. rewrite <- Hp in Hx. apply elem_of_cons in Hx as [->|Hx].
    + apply string_leb_refl.
    + apply StronglySorted_inv in Hs as [_ Hall]. rewrite Forall_forall in Hall.
      by apply Hall.
Qed.

Lemma head_sorted_none (l : list string) : head (merge_sort desc l) = None → l = [].
Proof.
  intros Hh. pose proof (merge_sort_Permutation desc l) as Hp.
  destruct (merge_sort desc l); [|done]. symmetry in Hp. by apply Permutation_nil_r in Hp.
Qed.

Lemma slipQuery_head flag lo hi docs :
  take 1 (slipQuery flag lo hi docs) = slipQuery flag lo hi docs
  ∧ head (slipQuery flag lo hi docs)
    = head (merge_sort desc
              (date_string <$> List.filter (fun d => flag d && in_range lo hi (date d)) docs)).
Proof.
  unfold slipQuery. split; [by rewrite take_take|].
  by destruct (merge_sort desc _).
Qed.

Lemma slipDates_elem lo hi docs x :
  x ∈ slipDates lo hi docs ↔
  x ∈ date_string <$> List.filter (fun d => is_false (smoke_free d) && in_range lo hi (date d)) docs
  ∨ x ∈ date_string <$> List.filter (fun d => gt_zero (cigarettes_smoked d) && in_range lo hi (date d)) docs.
Proof.
  unfold slipDates, isSlip. rewrite !list_elem_of_fmap. split.
  - intros (d & -> & Hd). apply list_elem_of_In, filter_In in Hd as [Hin Hf].
    apply andb_true_iff in Hf as [Hs Hr]. apply orb_true_iff in Hs as [Hs|Hs].
    + left. exists d. split; [done|]. apply list_elem_of_In, filter_In. by rewrite Hs, Hr.
    + right. exists d. split; [done|]. apply list_elem_of_In, filter_In. by rewrite Hs, Hr.
  - intros [(d & -> & Hd)|(d & -> & Hd)]; exists d; (split; [done|]).
    all: apply list_elem_of_In, filter_In in Hd as [Hin Hf].
    all: apply andb_true_iff in Hf as [Hs Hr].
    all: apply list_elem_of_In, filter_In; split; [done|]; rewrite Hs, Hr; by rewrite ?orb_true_r.
Qed.

Lemma slipDates_in_range lo hi docs x :
  x ∈ slipDates lo hi docs → String.leb lo x = true ∧ String.leb x hi = true.
Proof.
  unfold slipDates. rewrite list_elem_of_fmap. intros (d & -> & Hd).
  apply list_elem_of_In, filter_In in Hd as [_ Hf]. apply andb_true_iff in Hf as [_ Hr].
  unfold in_range, date_string in *. destruct (date d); try done.
  by apply andb_true_iff in Hr.
Qed.

(** The last slip the two queries find is the latest slip date in range. *)
Lemma lastSlip_max lo hi docs :
  let snap1 := slipQuery (fun d => is_false (smoke_free d)) lo hi docs in
  let snap2 := slipQuery (fun d => gt_zero (cigarettes_smoked d)) lo hi docs in
  let last := head (merge_sort desc (take 1 snap1 ++ take 1 snap2)) in
  (last = None → slipDates lo hi docs = [])
  ∧ ∀ d, last = Some d →
      d ∈ slipDates lo hi docs ∧ ∀ x, x ∈ slipDates lo hi docs → String.leb x d = true.
Proof.
  intros snap1 snap2 last.
  destruct (slipQuery_head (fun d => is_false (smoke_free d)) lo hi docs) as [T1 H1].
  destruct (slipQuery_head (fun d => gt_zero (cigarettes_smoked d)) lo hi docs) as [T2 H2].
  fold snap1 in T1, H1. fold snap2 in T2, H2.
  set (l1 := date_string <$> List.filter (fun d => is_false (smoke_free d) && in_range lo hi (date d)) docs) in *.
  set (l2 := date_string <$> List.filter (fun d => gt_zero (cigarettes_smoked d) && in_range lo hi (date d)) docs) in *.
  assert (Hone : ∀ s : list string,
                   take 1 s = match head s with Some x => [x] | None => [] end).
  { intros [|x [|y s]]; done. }
  subst last. rewrite (Hone snap1), (Hone snap2), H1, H2.
  split.
  - intros Hnone. apply head_sorted_none in Hnone.
    destruct (head (merge_sort desc l1)) eqn:E1; [done|].
    destruct (head (merge_sort desc l2)) eqn:E2; [done|].
    apply head_sorted_none in E1, E2.
    apply elem_of_nil_inv. intros x Hx. apply slipDates_elem in Hx.
    fold l1 l2 in Hx. rewrite E1, E2 in Hx. destruct Hx as [Hx|Hx]; by apply elem_of_nil in Hx.
  - intros d Hd. apply head_sorted_max in Hd as [Hin Hmax].
    assert (Hbound1 : ∀ m, head (merge_sort desc l1) = Some m →
                           m ∈ l1 ∧ ∀ x, x ∈ l1 → String.leb x m = true)
      by (intros m; apply head_sorted_max).
    assert (Hbound2 : ∀ m, head (merge_sort desc l2) = Some m →
                           m ∈ l2 ∧ ∀ x, x ∈ l2 → String.leb x m = true)
      by (intros m; apply head_sorted_max).
    split.
    + apply slipDates_elem. fold l1 l2.
      destruct (head (merge_sort desc l1)) as [m1|] eqn:E1,
               (head (merge_sort desc l2)) as [m2|] eqn:E2; simpl in Hin.
      * apply elem_of_cons in Hin as [->|Hin]; [left; by apply Hbound1|].
        apply list_elem_of_singleton in Hin as ->. right; by apply Hbound2.
      * apply list_elem_of_singleton in Hin as ->. left; by apply Hbound1.
      * apply list_elem_of_singleton in Hin as ->. right; by apply Hbound2.
      * by apply elem_of_nil in Hin.
    + intros x Hx. apply slipDates_elem in Hx. fold l1 l2 in Hx.
      destruct Hx as [Hx|Hx].
      * destruct (head (merge_sort desc l1)) as [m1|] eqn:E1.
        -- destruct (Hbound1 m1 eq_refl) as [_ Hm]. eapply string_leb_trans; [by apply Hm|].
           apply Hmax. simpl. apply list_elem_of_here.
        -- apply head_sorted_none in E1. rewrite E1 in Hx. by apply elem_of_nil in Hx.
      * destruct (head (merge_sort desc l2)) as [m2|] eqn:E2.
        -- destruct (Hbound2 m2 eq_refl) as [_ Hm]. eapply string_leb_trans; [by apply Hm|].
           apply Hmax. apply elem_of_app. right. apply list_elem_of_here.
        -- apply head_sorted_none in E2. rewrite E2 in Hx. by apply elem_of_nil in Hx.
Qed.

Lemma computeStreakFromQuit_ok uid q today w s w' :
  q ≠ EmptyString →
  computeStreakFromQuit uid (Some q) today w = (Ok s, w') →
  w' = called (EvRead "dailyLogs") (called (EvRead "dailyLogs") w)
  ∧ streakOf q today
      (slipQuery (fun d => is_false (smoke_free d)) q today (logsOf uid w))
      (slipQuery (fun d => gt_zero (cigarettes_smoked d)) q today (logsOf uid w)) = Ok s.
Proof.
  intros Hq. unfold computeStreakFromQuit. simpl.
  apply String.eqb_neq in Hq. rewrite Hq.
  unfold mbind, M_bind, settle, read, external, throw, mret, M_ret.
  destruct (nextFault w) as [e|] eqn:Hn; simpl.
  { destruct (nextFault (called _ w)); simpl; done. }
  destruct (nextFault (called _ w)) as [e|] eqn:Hn'; simpl; [done|].
  change (logsOf uid (called (EvRead "dailyLogs") w)) with (logsOf uid w).
  destruct (streakOf _ _ _ _) as [s0|e] eqn:Hs; [|done].
  intros [= <- <-]. done.
Qed.

(** The result of a successful call, part by part. *)
Lemma computeStreakFromQuit_shape (uid q today : string) (w w' : World) (s : Streak) :
  q ≠ EmptyString →
  computeStreakFromQuit uid (Some q) today w = (Ok s, w') →
  let slips := slipDates q today (logsOf uid w) in
  (last_slip_date s = None → slips = [] ∧ streak_start_date s = Some q)
  ∧ (∀ d, last_slip_date s = Some d →
       d ∈ slips
       ∧ (∀ x, x ∈ slips → String.leb x d = true)
       ∧ String.leb q d = true ∧ String.leb d today = true
       ∧ ∃ start, nextDay d = Ok start ∧ streak_start_date s = Some start)
  ∧ current_streak_days s = diffDays (default EmptyString (streak_start_date s)) today
  ∧ dailyLogs w' = dailyLogs w ∧ badges w' = badges w ∧ users w' = users w.
Proof.
  intros Hq Hc slips. apply (computeStreakFromQuit_ok uid q today w s w' Hq) in Hc as [-> Hs].
  destruct (lastSlip_max q today (logsOf uid w)) as [Hnone Hsome].
  unfold streakOf in Hs.
  set (last := head (merge_sort desc _)) in *.
  destruct last as [d|] eqn:El.
  - destruct (Hsome d eq_refl) as [Hin Hmax].
    destruct (slipDates_in_range q today _ d Hin) as [Hlo Hhi].
    assert (Hd : missing (Some d) = false).
    { simpl. apply String.eqb_neq. intros ->. destruct q; [done|]. discriminate Hlo. }
    rewrite Hd in Hs. simpl in Hs.
    destruct (nextDay d) as [start|e] eqn:En; [|done]. injection Hs as <-. simpl.
    split; [done|]. split; [|done].
    intros d' [= <-]. repeat split; try done. by exists start.
  - simpl in Hs. injection Hs as <-. simpl.
    split; [intros _; split; [by apply Hnone|done]|]. split; [done|done].
Qed.

(** X7.  The last slip of a successful call is the latest date, between the
    quit date and today, of a log that is a slip by either sign
    ([smoke_free] false or a positive cigarette count); there is none
    exactly when no log in that range is a slip.  The call only reads. *)
Theorem computeStreakFromQuit_last_slip (uid q today : string) (w w' : World) (s : Streak) :
  q ≠ EmptyString →
  computeStreakFromQuit uid (Some q) today w = (Ok s, w') →
  let slips := slipDates q today (logsOf uid w) in
  (last_slip_date s = None ↔ slips = [])
  ∧ (∀ d, last_slip_date s = Some d →
       d ∈ slips ∧ (∀ x, x ∈ slips → String.leb x d = true)
       ∧ String.leb q d = true ∧ String.leb d today = true)
  ∧ dailyLogs w' = dailyLogs w ∧ badges w' = badges w ∧ users w' = users w.
Proof.
  intros Hq Hc slips.
  destruct (computeStreakFromQuit_shape uid q today w w' s Hq Hc) as (Hnone & Hsome & _ & Hro).
  split; [|split; [|exact Hro]].
  - split; [by intros Hn; apply Hnone|].
    intros Hnil. destruct (last_slip_date s) as [d|]; [|done].
    destruct (Hsome d eq_refl) as [Hin _]. fold slips in Hin. rewrite Hnil in Hin.
    by apply elem_of_nil in Hin.
  - intros d Hd. destruct (Hsome d Hd) as (? & ? & ? & ? & _). done.
Qed.
End Streak.

Lemma computeStreakFromQuit_last_slip_witness :
"2024-01-05" ∈ slipDates "2024-01-01" "2024-01-10" (logsOf "u1" world1)
∧ String.leb "2024-01-05" "2024-01-10" = true.
Proof.
destruct (@computeStreakFromQuit_last_slip utc "u1" "2024-01-01" "2024-01-10" world1
            (@computeStreakFromQuit utc "u1" (Some "2024-01-01") "2024-01-10" world1).2
            {| current_streak_days := int 4;
               streak_start_date := Some "2024-01-06";
               last_slip_date := Some "2024-01-05" |})
  as (_ & H2 & _); [discriminate | vm_compute; reflexivity |].
destruct (H2 "2024-01-05" eq_refl) as (Hin & _ & _ & Hhi).
split; [exact Hin | exact Hhi].
Defined.

(** ** Calendar arithmetic *)

Section Calendar.
Context `{Runtime}.

Lemma list_ascii_app (a b : string) :
  list_ascii_of_string (a ++ b) = list_ascii_of_string a ++ list_ascii_of_string b.
Proof. induction a as [|c a IH]; simpl; [done|]. by rewrite IH. Qed.

(** Local midnight of a date string is its day number, shifted by the
    zone offset; a string that names no day is an invalid date. *)
Lemma parse_local_midnight (iso : string) :
  parse_local (iso ++ "T00:00:00") = (fun n => n * msPerDay - LocalTZA) <$> isoDay iso.
Proof.
  unfold parse_local, isoDay. rewrite list_ascii_app.
  generalize (list_ascii_of_string iso). intros l.
  destruct l as [|c1 [|c2 [|c3 [|c4 [|c5 [|c6 [|c7 [|c8 [|c9 [|c10 l]]]]]]]]]];
    try reflexivity.
  destruct l as [|? l].
  2:{ do 9 (destruct l as [|? l]; [reflexivity|]). reflexivity. }
  cbn -[number_of daysInMonth MakeDay MakeDate UTC msPerDay Z.leb Z.mul Z.sub].
  rewrite !andb_true_r.
  destruct (negb _); [reflexivity|].
  destruct (number_of [c1; c2; c3; c4]) as [y|]; [|reflexivity].
  destruct (number_of [c6; c7]) as [m|]; [|reflexivity].
  destruct (number_of [c9; c10]) as [d|]; [|reflexivity].
  change (number_of ["0"%char; "0"%char]) with (Some 0).
  cbn -[daysInMonth MakeDay MakeDate UTC msPerDay Z.leb Z.mul Z.sub].
  change (0 <=? 23) with true. change (0 <=? 59) with true. rewrite !andb_true_r.
  destruct (_ && _); [|reflexivity].
  simpl. unfold UTC, MakeDate. f_equal. lia.
Qed.

(** Between two days the streak counts the calendar days, never less than
    0, whatever the zone. *)
Lemma diffDays_calendar (startIso todayIso : string) :
  diffDays startIso todayIso
  = match isoDay startIso, isoDay todayIso with
    | Some a, Some b => int (Z.max 0 (b - a))
    | _, _ => JNaN
    end.
Proof.
  unfold diffDays. rewrite !parse_local_midnight.
  destruct (isoDay startIso) as [a|], (isoDay todayIso) as [b|]; simpl; try done.
  do 2 f_equal.
  replace (b * msPerDay - LocalTZA - (a * msPerDay - LocalTZA)) with ((b - a) * msPerDay) by lia.
  by rewrite Z.div_mul.
Qed.
End Calendar.

Section RoundTrip.

(** Within an era the year of era is at most 399 and the month index at
    most 11. *)
Lemma era_bounds (doe : Z) :
  0 ≤ doe < 146097 →
  let yoe := (doe - doe / 1460 + doe / 36524 - doe / 146096) / 365 in
  let doy := doe - (365 * yoe + yoe / 4 - yoe / 100) in
  0 ≤ yoe ≤ 399 ∧ 0 ≤ (5 * doy + 2) / 153 ≤ 11.
Proof.
  intros Hd yoe doy. subst yoe doy.
  Z.div_mod_to_equations; lia.
Qed.

(** The day number of the date of a day number is that day number. *)
Lemma days_from_civil_from_days (n : Z) :
  days_from_civil (civil_from_days n).1.1 (civil_from_days n).1.2 (civil_from_days n).2 = n.
Proof.
  unfold civil_from_days. cbv zeta.
  set (z := n + 719468). set (era := z / 146097). set (doe := z - era * 146097).
  assert (Hdoe : 0 ≤ doe < 146097).
  { subst doe era. pose proof (Z.mod_pos_bound z 146097 eq_refl).
    rewrite Z.mod_eq in * by done. lia. }
  pose proof (era_bounds doe Hdoe) as Hb. cbv zeta in Hb.
  set (yoe := (doe - doe / 1460 + doe / 36524 - doe / 146096) / 365) in *.
  set (doy := doe - (365 * yoe + yoe / 4 - yoe / 100)) in *.
  set (mp := (5 * doy + 2) / 153) in *.
  destruct Hb as [Hy Hm].
  assert (Hera : ∀ k, 0 ≤ k ≤ 399 → (k + era * 400) / 400 = era ∧ (k + era * 400) - era * 400 = k).
  { intros k Hk. split; [|lia]. rewrite Z.div_add by done. rewrite Z.div_small by lia. lia. }
  unfold days_from_civil. cbn [fst snd].
  destruct (Z.ltb_spec mp 10) as [Hlt|Hge].
  - (* March to December *)
    replace (mp + 3 <=? 2) with false by (symmetry; apply Z.leb_gt; lia).
    replace (2 <? mp + 3) with true by (symmetry; apply Z.ltb_lt; lia).
    cbv zeta. destruct (Hera yoe Hy) as [-> ->].
    replace (mp + 3 - 3) with mp by lia. subst doy doe z. lia.
  - (* January and February *)
    replace (mp - 9 <=? 2) with true by (symmetry; apply Z.leb_le; lia).
    replace (2 <? mp - 9) with false by (symmetry; apply Z.ltb_ge; lia).
    cbv zeta. replace (yoe + era * 400 + 1 - 1) with (yoe + era * 400) by lia.
    destruct (Hera yoe Hy) as [-> ->].
    replace (mp - 9 + 9) with mp by lia. subst doy doe z. lia.
Qed.

Lemma Day_midnight (n : Z) : Day (n * msPerDay) = n.
Proof. unfold Day. by rewrite Z.div_mul. Qed.

(** The first ten characters of [toISOString] are the UTC date. *)
Lemma slice10_toISOString (t : Z) : slice10 (toISOString t) = printDay (Day t).
Proof.
  unfold printDay, toISOString. rewrite Day_midnight.
  destruct (civil_from_days (Day t)) as [[y m] d].
  destruct ((0 <=? y) && (y <=? 9999)); [reflexivity|].
  destruct (y <? 0); reflexivity.
Qed.

Lemma MakeDay_next (t : Z) :
  MakeDay (YearFromTime t) (MonthFromTime t) (DateFromTime t + 1) = Day t + 1.
Proof.
  unfold MakeDay, YearFromTime, MonthFromTime, DateFromTime.
  pose proof (days_from_civil_from_days (Day t)) as Hr.
  destruct (civil_from_days (Day t)) as [[y m] d]. cbn [fst snd] in *.
  replace (m - 1 + 1) with m by lia.
  unfold days_from_civil in *. lia.
Qed.
End RoundTrip.

Section NextDay.
Context `{Runtime}.

(** [nextDay] by zone: one calendar day later at or west of UTC, the same
    day east of UTC. *)
Lemma nextDay_by_zone (iso : string) (n : Z) :
  isoDay iso = Some n →
  (- msPerDay < LocalTZA ≤ 0 → nextDay iso = Ok (printDay (n + 1)))
  ∧ (0 < LocalTZA ≤ msPerDay → nextDay iso = Ok (printDay n)).
Proof.
  intros Hn. unfold nextDay. rewrite parse_local_midnight, Hn. simpl.
  unfold setDate, getDate, LocalTime, UTC.
  replace (n * msPerDay - LocalTZA + LocalTZA) with (n * msPerDay) by lia.
  rewrite MakeDay_next, Day_midnight.
  unfold TimeWithinDay, MakeDate. rewrite Z.mod_mul by done.
  rewrite slice10_toISOString. unfold Day.
  split; intros Hz; do 2 f_equal.
  - replace ((n + 1) * msPerDay + 0 - LocalTZA) with (- LocalTZA + (n + 1) * msPerDay) by lia.
    rewrite Z.div_add by done. rewrite Z.div_small by lia. lia.
  - replace ((n + 1) * msPerDay + 0 - LocalTZA)
      with ((msPerDay - LocalTZA) + n * msPerDay) by lia.
    rewrite Z.div_add by done. rewrite Z.div_small by lia. lia.
Qed.
End NextDay.

Section RoundTrip2.

Lemma isLeap_spec y : isLeap y = true ↔ (y mod 4 = 0 ∧ (y mod 100 ≠ 0 ∨ y mod 400 = 0)).
Proof.
  unfold isLeap. rewrite andb_true_iff, orb_true_iff, negb_true_iff.
  rewrite !Z.eqb_eq, Z.eqb_neq. tauto.
Qed.

(** The date of the day number of a calendar date is that date. *)
Lemma civil_from_days_from_civil (y m d : Z) :
  1 ≤ m ≤ 12 → 1 ≤ d ≤ daysInMonth y m →
  civil_from_days (days_from_civil y m d) = (y, m, d).
Proof.
  intros Hm Hd.
  assert (Hdays : (m = 2 ∧ d ≤ 28)
                  ∨ (m = 2 ∧ d = 29 ∧ y mod 4 = 0 ∧ (y mod 100 ≠ 0 ∨ y mod 400 = 0))
                  ∨ (m ≠ 2 ∧ d ≤ 30)
                  ∨ (d = 31 ∧ (m = 1 ∨ m = 3 ∨ m = 5 ∨ m = 7 ∨ m = 8 ∨ m = 10 ∨ m = 12))).
  { unfold daysInMonth in Hd.
    destruct (Z.eqb_spec m 2) as [->|Hne].
    - destruct (isLeap y) eqn:El.
      + apply isLeap_spec in El. assert (d ≤ 28 ∨ d = 29) as [?|?] by lia; auto.
      + left. lia.
    - destruct (Z.eqb_spec m 4), (Z.eqb_spec m 6), (Z.eqb_spec m 9), (Z.eqb_spec m 11);
        simpl in Hd; try (right; right; left; lia).
      assert (d ≤ 30 ∨ d = 31) as [?|?] by lia; [right; right; left; lia|].
      right; right; right. lia. }
  assert (Hd1 : 1 ≤ d) by lia. clear Hd.
  assert (Hmonth : m = 1 ∨ m = 2 ∨ m = 3 ∨ m = 4 ∨ m = 5 ∨ m = 6 ∨ m = 7 ∨ m = 8 ∨ m = 9
                   ∨ m = 10 ∨ m = 11 ∨ m = 12) by lia.
  unfold days_from_civil.
  set (y' := if m <=? 2 then y - 1 else y).
  set (era := y' / 400). set (yoe := y' - era * 400).
  set (mp := if 2 <? m then m - 3 else m + 9).
  cbv zeta.
  set (doy := (153 * mp + 2) / 5 + d - 1).
  set (doe := yoe * 365 + yoe / 4 - yoe / 100 + doy).
  assert (Hyoe : 0 ≤ yoe ≤ 399 ∧ y' = yoe + 400 * era).
  { subst yoe era. pose proof (Z.mod_pos_bound y' 400 eq_refl).
    rewrite Z.mod_eq in * by done. lia. }
  unfold civil_from_days. cbv zeta.
  replace (era * 146097 + doe - 719468 + 719468) with (doe + era * 146097) by lia.
  assert (Hdoe : 0 ≤ doe < 146097 ∧ (doe - doe / 1460 + doe / 36524 - doe / 146096) / 365 = yoe
                 ∧ (5 * doy + 2) / 153 = mp).
  { subst doe doy mp y'. clearbody yoe era.
    destruct Hmonth as [->|[->|[->|[->|[->|[->|[->|[->|[->|[->|[->| ->]]]]]]]]]]];
      cbn [Z.leb Z.ltb Z.compare Pos.compare Pos.compare_cont] in *;
      (Z.div_mod_to_equations; lia). }
  destruct Hdoe as (Hb & Hy & Hmp).
  rewrite (Z.div_add doe era 146097) by done. rewrite (Z.div_small doe 146097) by lia.
  rewrite Z.add_0_l.
  replace (doe + era * 146097 - era * 146097) with doe by lia.
  rewrite Hy.
  replace (doe - (365 * yoe + yoe / 4 - yoe / 100)) with doy by (subst doe; lia).
  rewrite Hmp.
  subst mp doy y'. clearbody yoe era.
  destruct Hmonth as [->|[->|[->|[->|[->|[->|[->|[->|[->|[->|[->| ->]]]]]]]]]]];
    repeat match goal with
           | |- context [if ?b then _ else _] =>
               let v := eval vm_compute in b in change b with v; cbv iota
           end;
    cbn [Z.leb Z.ltb Z.compare Pos.compare Pos.compare_cont] in Hyoe;
    (f_equal; [f_equal|]); Z.div_mod_to_equations; lia.
Qed.
End RoundTrip2.

Section Valid.

Lemma daysInMonth_cases y m :
  daysInMonth y m =
    if m =? 2 then (if isLeap y then 29 else 28)
    else if (m =? 4) || (m =? 6) || (m =? 9) || (m =? 11) then 30 else 31.
Proof. reflexivity. Qed.

(** The date of a day number is a calendar date. *)
Lemma civil_from_days_valid (n : Z) :
  1 ≤ (civil_from_days n).1.2 ≤ 12
  ∧ 1 ≤ (civil_from_days n).2 ≤ daysInMonth (civil_from_days n).1.1 (civil_from_days n).1.2.
Proof.
  unfold civil_from_days. cbv zeta.
  set (z := n + 719468). set (era := z / 146097). set (doe := z - era * 146097).
  assert (Hdoe : 0 ≤ doe < 146097).
  { subst doe era. pose proof (Z.mod_pos_bound z 146097 eq_refl).
    rewrite Z.mod_eq in * by done. lia. }
  clearbody doe era. clear z.
  set (yoe := (doe - doe / 1460 + doe / 36524 - doe / 146096) / 365).
  set (doy := doe - (365 * yoe + yoe / 4 - yoe / 100)).
  set (mp := (5 * doy + 2) / 153).
  cbn [fst snd].
  assert (Hfacts : 0 ≤ yoe ≤ 399 ∧ 0 ≤ mp ≤ 11 ∧ 0 ≤ doy
                   ∧ (doy ≤ 364 ∨ (doy = 365 ∧ (yoe + 1) mod 4 = 0
                                   ∧ ((yoe + 1) mod 100 ≠ 0 ∨ (yoe + 1) mod 400 = 0)))).
  { subst mp doy yoe. Z.div_mod_to_equations. lia. }
  destruct Hfacts as (Hy & Hmp & Hdoy0 & Hdoy).
  assert (Hmcase : mp = 0 ∨ mp = 1 ∨ mp = 2 ∨ mp = 3 ∨ mp = 4 ∨ mp = 5 ∨ mp = 6 ∨ mp = 7
                   ∨ mp = 8 ∨ mp = 9 ∨ mp = 10 ∨ mp = 11) by lia.
  assert (Hmp' : 153 * mp ≤ 5 * doy + 2 < 153 * mp + 153).
  { subst mp. Z.div_mod_to_equations. lia. }
  clearbody mp doy yoe.
  destruct Hmcase as [->|[->|[->|[->|[->|[->|[->|[->|[->|[->|[->| ->]]]]]]]]]]];
    match goal with
    | |- context [if ?a <? 10 then ?x else ?y] =>
        let v := eval vm_compute in (if a <? 10 then x else y) in
        change (if a <? 10 then x else y) with v
    end;
    unfold daysInMonth; cbn -[Z.div Z.mul Z.add Z.sub isLeap].
  1-11: (split; [lia|]; Z.div_mod_to_equations; lia).
  (* February *)
  split; [lia|].
  destruct (isLeap (yoe + era * 400 + 1)) eqn:El.
  - Z.div_mod_to_equations. lia.
  - assert (Hnl : ¬ ((yoe + era * 400 + 1) mod 4 = 0
                     ∧ ((yoe + era * 400 + 1) mod 100 ≠ 0
                        ∨ (yoe + era * 400 + 1) mod 400 = 0))).
    { rewrite <- isLeap_spec. by rewrite El. }
    Z.div_mod_to_equations. lia.
Qed.
End Valid.

Section Digits.

Lemma digit_inv (c : ascii) (d : Z) :
  digit c = Some d → 0 ≤ d ≤ 9 ∧ digit_char d = c.
Proof.
  destruct c as [b0 b1 b2 b3 b4 b5 b6 b7].
  destruct b0, b1, b2, b3, b4, b5, b6, b7; vm_compute; intros [= <-];
    (split; [split; discriminate | reflexivity]).
Qed.

Lemma digit_digit_char (d : Z) : 0 ≤ d ≤ 9 → digit (digit_char d) = Some d.
Proof.
  intros Hd.
  assert (d = 0 ∨ d = 1 ∨ d = 2 ∨ d = 3 ∨ d = 4 ∨ d = 5 ∨ d = 6 ∨ d = 7 ∨ d = 8 ∨ d = 9)
    as [->|[->|[->|[->|[->|[->|[->|[->|[->| ->]]]]]]]]] by lia; reflexivity.
Qed.

Lemma digit_char_mod (a b : Z) : a mod 10 = b mod 10 → digit_char a = digit_char b.
Proof. unfold digit_char. by intros ->. Qed.

Lemma number_of_2 c1 c2 n :
  number_of [c1; c2] = Some n →
  0 ≤ n ≤ 99 ∧ digit_char (n / 10) = c1 ∧ digit_char n = c2.
Proof.
  unfold number_of, digits.
  destruct (digit c1) as [d1|] eqn:E1; [|done].
  destruct (digit c2) as [d2|] eqn:E2; [|done].
  apply digit_inv in E1 as [H1 <-]. apply digit_inv in E2 as [H2 <-].
  intros [= <-]. split; [lia|]. split; apply digit_char_mod; Z.div_mod_to_equations; lia.
Qed.

Lemma number_of_4 c1 c2 c3 c4 n :
  number_of [c1; c2; c3; c4] = Some n →
  0 ≤ n ≤ 9999
  ∧ digit_char (n / 10 / 10 / 10) = c1 ∧ digit_char (n / 10 / 10) = c2
  ∧ digit_char (n / 10) = c3 ∧ digit_char n = c4.
Proof.
  unfold number_of, digits.
  destruct (digit c1) as [d1|] eqn:E1; [|done].
  destruct (digit c2) as [d2|] eqn:E2; [|done].
  destruct (digit c3) as [d3|] eqn:E3; [|done].
  destruct (digit c4) as [d4|] eqn:E4; [|done].
  apply digit_inv in E1 as [H1 <-]. apply digit_inv in E2 as [H2 <-].
  apply digit_inv in E3 as [H3 <-]. apply digit_inv in E4 as [H4 <-].
  intros [= <-]. split; [lia|].
  repeat split; apply digit_char_mod; Z.div_mod_to_equations; lia.
Qed.

Lemma MakeDay_civil y m d : MakeDay y (m - 1) d = days_from_civil y m d.
Proof. unfold MakeDay. replace (m - 1 + 1) with m by lia. unfold days_from_civil. lia. Qed.

(** What [isoDay] accepts. *)
Lemma isoDay_inv (iso : string) (n : Z) :
  isoDay iso = Some n →
  ∃ y m d c1 c2 c3 c4 c6 c7 c9 c10,
    iso = string_of_list_ascii [c1; c2; c3; c4; "-"%char; c6; c7; "-"%char; c9; c10]
    ∧ number_of [c1; c2; c3; c4] = Some y ∧ number_of [c6; c7] = Some m
    ∧ number_of [c9; c10] = Some d
    ∧ 1 ≤ m ≤ 12 ∧ 1 ≤ d ≤ daysInMonth y m ∧ n = days_from_civil y m d.
Proof.
  unfold isoDay. intros Hi.
  rewrite <- (string_of_list_ascii_of_string iso).
  destruct (list_ascii_of_string iso) as [|c1 [|c2 [|c3 [|c4 [|c5 [|c6 [|c7 [|c8 [|c9 [|c10 [|c11 l]]]]]]]]]]];
    try done.
  destruct (Ascii.eqb_spec c5 "-") as [->|]; [|done].
  destruct (Ascii.eqb_spec c8 "-") as [->|]; [|done].
  cbn [negb andb] in Hi.
  destruct (number_of [c1; c2; c3; c4]) as [y|] eqn:Ey; [|done].
  destruct (number_of [c6; c7]) as [m|] eqn:Em; [|done].
  destruct (number_of [c9; c10]) as [d|] eqn:Ed; [|done].
  destruct ((1 <=? m) && (m <=? 12) && (1 <=? d) && (d <=? daysInMonth y m)) eqn:Ev; [|done].
  injection Hi as <-.
  apply andb_true_iff in Ev as [Ev Hd2]. apply andb_true_iff in Ev as [Ev Hd1].
  apply andb_true_iff in Ev as [Hm1 Hm2].
  exists y, m, d, c1, c2, c3, c4, c6, c7, c9, c10.
  repeat split; try done; try lia. apply MakeDay_civil.
Qed.

(** Printing the day number of a date string gives the string back. *)
Lemma printDay_isoDay (iso : string) (n : Z) : isoDay iso = Some n → printDay n = iso.
Proof.
  intros Hi.
  destruct (isoDay_inv iso n Hi)
    as (y & m & d & c1 & c2 & c3 & c4 & c6 & c7 & c9 & c10 & -> & Hy & Hm & Hd & Vm & Vd & ->).
  unfold printDay, toISOString. rewrite Day_midnight.
  rewrite (civil_from_days_from_civil y m d Vm Vd).
  apply number_of_4 in Hy as (Hy & <- & <- & <- & <-).
  apply number_of_2 in Hm as (_ & <- & <-).
  apply number_of_2 in Hd as (_ & <- & <-).
  replace ((0 <=? y) && (y <=? 9999)) with true
    by (symmetry; apply andb_true_iff; split; apply Z.leb_le; lia).
  reflexivity.
Qed.
End Digits.

Section PrintParse.

Lemma digit_digit_char_mod (x : Z) : digit (digit_char x) = Some (x mod 10).
Proof.
  pose proof (Z.mod_pos_bound x 10 eq_refl) as Hb.
  rewrite <- (digit_digit_char (x mod 10) ltac:(lia)).
  f_equal. apply digit_char_mod. by rewrite Z.mod_mod.
Qed.

Lemma number_of_pad2 (n : Z) : 0 ≤ n ≤ 99 →
  number_of [digit_char (n / 10); digit_char n] = Some n.
Proof.
  intros Hn. unfold number_of, digits. rewrite !digit_digit_char_mod.
  f_equal. Z.div_mod_to_equations. lia.
Qed.

Lemma number_of_pad4 (n : Z) : 0 ≤ n ≤ 9999 →
  number_of [digit_char (n / 10 / 10 / 10); digit_char (n / 10 / 10); digit_char (n / 10);
             digit_char n] = Some n.
Proof.
  intros Hn. unfold number_of, digits. rewrite !digit_digit_char_mod.
  f_equal. Z.div_mod_to_equations. lia.
Qed.

(** The years of the days from 0000-01-01 to 9999-12-31. *)
Lemma year_range (y m d : Z) :
  1 ≤ m ≤ 12 → 1 ≤ d ≤ 31 →
  days_from_civil 0 1 1 ≤ days_from_civil y m d ≤ days_from_civil 9999 12 31 →
  0 ≤ y ≤ 9999.
Proof.
  intros Hm Hd. change (days_from_civil 0 1 1) with (-719528).
  change (days_from_civil 9999 12 31) with 2932896.
  unfold days_from_civil.
  destruct (Z.leb_spec m 2), (Z.ltb_spec 2 m); try lia; cbv zeta;
    intros Hr; Z.div_mod_to_equations; lia.
Qed.

Lemma daysInMonth_le_31 y m : daysInMonth y m ≤ 31.
Proof.
  unfold daysInMonth. destruct (m =? 2); [destruct (isLeap y); lia|].
  destruct (_ || _); lia.
Qed.

(** Reading back a printed day gives the day, for the days that print
    with a four-digit year. *)
Lemma isoDay_printDay (n : Z) :
  days_from_civil 0 1 1 ≤ n ≤ days_from_civil 9999 12 31 → isoDay (printDay n) = Some n.
Proof.
  intros Hn.
  pose proof (civil_from_days_valid n) as [Vm Vd].
  pose proof (days_from_civil_from_days n) as Hr.
  unfold printDay, toISOString. rewrite Day_midnight.
  destruct (civil_from_days n) as [[y m] d]. cbn [fst snd] in *.
  pose proof (daysInMonth_le_31 y m) as H31.
  assert (Hy : 0 ≤ y ≤ 9999) by (apply (year_range y m d); [lia|lia|by rewrite Hr]).
  replace ((0 <=? y) && (y <=? 9999)) with true
    by (symmetry; apply andb_true_iff; split; apply Z.leb_le; lia).
  assert (Hp : slice10
                 (pad 4 y ++ "-" ++ pad 2 m ++ "-" ++ pad 2 d ++ "T"
                    ++ pad 2 (TimeWithinDay (n * msPerDay) / 3600000) ++ ":"
                    ++ pad 2 (TimeWithinDay (n * msPerDay) / 60000 mod 60) ++ ":"
                    ++ pad 2 (TimeWithinDay (n * msPerDay) / 1000 mod 60) ++ "."
                    ++ pad 3 (TimeWithinDay (n * msPerDay) mod 1000) ++ "Z")%string
               = string_of_list_ascii
                   [digit_char (y / 10 / 10 / 10); digit_char (y / 10 / 10);
                    digit_char (y / 10); digit_char y; "-"%char;
                    digit_char (m / 10); digit_char m; "-"%char;
                    digit_char (d / 10); digit_char d]) by reflexivity.
  rewrite Hp. unfold isoDay. rewrite list_ascii_of_string_of_list_ascii.
  rewrite !Ascii.eqb_refl. cbn [negb andb].
  rewrite (number_of_pad4 y Hy), (number_of_pad2 m ltac:(lia)), (number_of_pad2 d ltac:(lia)).
  replace ((1 <=? m) && (m <=? 12) && (1 <=? d) && (d <=? daysInMonth y m)) with true.
  - by rewrite MakeDay_civil, Hr.
  - symmetry. rewrite !andb_true_iff. repeat split; apply Z.leb_le; lia.
Qed.
End PrintParse.

(** ** The streak in days *)

Section StreakByZone.
Context `{Runtime}.

(** X8.  The streak a slip leaves, by the zone of the host.  At or west of
    UTC (offset in (-24h, 0]) it starts on the calendar day after the last
    slip and counts the days from there to today.  East of UTC (offset in
    (0, 24h]) it starts on the slip day itself and counts one day more:
    [nextDay] adds a local day and prints the UTC date. *)
Theorem computeStreakFromQuit_by_zone (uid q today d : string) (w w' : World) (s : Streak) :
  q ≠ EmptyString →
  computeStreakFromQuit uid (Some q) today w = (Ok s, w') →
  last_slip_date s = Some d →
  ∃ n, isoDay d = Some n
       ∧ (- msPerDay < LocalTZA ≤ 0 →
          streak_start_date s = Some (printDay (n + 1))
          ∧ (n < days_from_civil 9999 12 31 →
             current_streak_days s
             = match isoDay today with
               | Some b => int (Z.max 0 (b - (n + 1)))
               | None => JNaN
               end))
       ∧ (0 < LocalTZA ≤ msPerDay →
          streak_start_date s = Some d
          ∧ current_streak_days s
            = match isoDay today with
              | Some b => int (Z.max 0 (b - n))
              | None => JNaN
              end).
Proof.
  intros Hq Hc Hl.
  destruct (computeStreakFromQuit_shape uid q today w w' s Hq Hc) as (_ & Hsome & Hcur & _).
  destruct (Hsome d Hl) as (_ & _ & _ & _ & start & Hnd & Hst).
  rewrite Hst in Hcur. simpl in Hcur.
  destruct (isoDay d) as [n|] eqn:Hn.
  2:{ unfold nextDay in Hnd. by rewrite parse_local_midnight, Hn in Hnd. }
  exists n. split; [done|].
  destruct (nextDay_by_zone d n Hn) as [Hwest Heast].
  split; intros Hz.
  - rewrite (Hwest Hz) in Hnd. injection Hnd as <-. split; [done|].
    intros Hlast. rewrite Hcur, diffDays_calendar.
    rewrite isoDay_printDay; [done|].
    destruct (isoDay_inv d n Hn) as (y & m & dd & ? & ? & ? & ? & ? & ? & ? & ? & _ & Hy & _ & _ & Vm & Vd & Hnn).
    apply number_of_4 in Hy as [Hy _].
    assert (days_from_civil 0 1 1 ≤ n).
    { subst n. change (days_from_civil 0 1 1) with (-719528). unfold days_from_civil.
      pose proof (daysInMonth_le_31 y m).
      destruct (Z.leb_spec m 2), (Z.ltb_spec 2 m); try lia; cbv zeta;
        Z.div_mod_to_equations; lia. }
    lia.
  - rewrite (Heast Hz), (printDay_isoDay d n Hn) in Hnd. injection Hnd as <-.
    split; [done|]. by rewrite Hcur, diffDays_calendar, Hn.
Qed.
End StreakByZone.

Lemma computeStreakFromQuit_by_zone_witness :
∃ n, isoDay "2024-01-05" = Some n
     ∧ int 5 = match isoDay "2024-01-10" with
               | Some b => int (Z.max 0 (b - n))
               | None => JNaN
               end.
Proof.
destruct (@computeStreakFromQuit_by_zone athensWinter "u1" "2024-01-01" "2024-01-10"
            "2024-01-05" world1
            (@computeStreakFromQuit athensWinter "u1" (Some "2024-01-01") "2024-01-10" world1).2
            {| current_streak_days := int 5;
               streak_start_date := Some "2024-01-05";
               last_slip_date := Some "2024-01-05" |})
  as (n & Hn & _ & Heast); [discriminate | vm_compute; reflexivity | reflexivity |].
exists n. split; [exact Hn|].
destruct Heast as [_ Hc]; [|exact Hc].
split; [reflexivity | discriminate].
Defined.

Section StreakMore.
Context `{Runtime}.

(** X9.  On a host whose offset from UTC is fixed, when the start date
    and today are calendar dates, the streak is the number of calendar days
    from its start date to today, never less than 0; with no slip the start
    date is the quit date. *)
Theorem computeStreakFromQuit_counts_days (uid q today : string) (w w' : World) (s : Streak)
    (a b : Z) :
  q ≠ EmptyString →
  computeStreakFromQuit uid (Some q) today w = (Ok s, w') →
  isoDay (default EmptyString (streak_start_date s)) = Some a →
  isoDay today = Some b →
  current_streak_days s = int (Z.max 0 (b - a))
  ∧ (last_slip_date s = None → streak_start_date s = Some q).
Proof.
  intros Hq Hc Ha Hb.
  destruct (computeStreakFromQuit_shape uid q today w w' s Hq Hc) as (Hnone & _ & Hcur & _).
  split.
  - by rewrite Hcur, diffDays_calendar, Ha, Hb.
  - intros Hl. by destruct (Hnone Hl).
Qed.

Lemma last_slip_determined uid q t1 t2 w w1 w2 s1 s2 :
  q ≠ EmptyString →
  computeStreakFromQuit uid (Some q) t1 w = (Ok s1, w1) →
  computeStreakFromQuit uid (Some q) t2 w = (Ok s2, w2) →
  slipDates q t2 (logsOf uid w) = slipDates q t1 (logsOf uid w) →
  last_slip_date s2 = last_slip_date s1 ∧ streak_start_date s2 = streak_start_date s1.
Proof.
  intros Hq H1 H2 Heq.
  destruct (computeStreakFromQuit_shape uid q t1 w w1 s1 Hq H1) as (Hn1 & Hs1 & _).
  destruct (computeStreakFromQuit_shape uid q t2 w w2 s2 Hq H2) as (Hn2 & Hs2 & _).
  cbv zeta in *. rewrite Heq in Hn2, Hs2.
  destruct (last_slip_date s1) as [d1|] eqn:E1, (last_slip_date s2) as [d2|] eqn:E2.
  - destruct (Hs1 d1 eq_refl) as (Hin1 & Hmax1 & _ & _ & st1 & Hnd1 & Hst1).
    destruct (Hs2 d2 eq_refl) as (Hin2 & Hmax2 & _ & _ & st2 & Hnd2 & Hst2).
    assert (d2 = d1) as -> by (apply String.leb_antisym; auto).
    split; [done|]. rewrite Hst1, Hst2. congruence.
  - destruct (Hs1 d1 eq_refl) as (Hin1 & _). destruct (Hn2 eq_refl) as [Hnil _].
    rewrite Hnil in Hin1. by apply elem_of_nil in Hin1.
  - destruct (Hs2 d2 eq_refl) as (Hin2 & _). destruct (Hn1 eq_refl) as [Hnil _].
    rewrite Hnil in Hin2. by apply elem_of_nil in Hin2.
  - destruct (Hn1 eq_refl) as [_ ->]. by destruct (Hn2 eq_refl) as [_ ->].
Qed.

(** X10.  On a host whose offset from UTC is fixed: one calendar day
    later, with no slip logged for the added day, the last slip and the
    start date are the same and the streak is one day longer, provided
    the streak had started (its start date is not after today). *)
Theorem computeStreakFromQuit_next_day (uid q today tomorrow : string) (w w1 w2 : World)
    (s s' : Streak) (a b : Z) :
  q ≠ EmptyString →
  computeStreakFromQuit uid (Some q) today w = (Ok s, w1) →
  computeStreakFromQuit uid (Some q) tomorrow w = (Ok s', w2) →
  slipDates q tomorrow (logsOf uid w) = slipDates q today (logsOf uid w) →
  isoDay today = Some b → isoDay tomorrow = Some (b + 1) →
  isoDay (default EmptyString (streak_start_date s)) = Some a → a ≤ b →
  last_slip_date s' = last_slip_date s
  ∧ streak_start_date s' = streak_start_date s
  ∧ current_streak_days s = int (b - a)
  ∧ current_streak_days s' = int (b - a + 1).
Proof.
  intros Hq H1 H2 Heq Hb Hb' Ha Hle.
  destruct (last_slip_determined uid q today tomorrow w w1 w2 s s' Hq H1 H2 Heq) as [Hl Hst].
  destruct (computeStreakFromQuit_shape uid q today w w1 s Hq H1) as (_ & _ & Hc & _).
  destruct (computeStreakFromQuit_shape uid q tomorrow w w2 s' Hq H2) as (_ & _ & Hc' & _).
  rewrite Hst in Hc'. rewrite diffDays_calendar, Ha, Hb in Hc.
  rewrite diffDays_calendar, Ha, Hb' in Hc'.
  split; [done|]. split; [done|].
  rewrite Hc, Hc'. split; f_equal; lia.
Qed.
End StreakMore.

Lemma computeStreakFromQuit_counts_days_witness :
int 4 = int (Z.max 0 (days_from_civil 2024 1 10 - days_from_civil 2024 1 6)).
Proof.
destruct (@computeStreakFromQuit_counts_days utc "u1" "2024-01-01" "2024-01-10" world1
            (@computeStreakFromQuit utc "u1" (Some "2024-01-01") "2024-01-10" world1).2
            {| current_streak_days := int 4;
               streak_start_date := Some "2024-01-06";
               last_slip_date := Some "2024-01-05" |}
            (days_from_civil 2024 1 6) (days_from_civil 2024 1 10))
  as [Hc _];
  [ discriminate | vm_compute; reflexivity | vm_compute; reflexivity
  | vm_compute; reflexivity | exact Hc ].
Defined.

Lemma computeStreakFromQuit_next_day_witness :
int 5 = int (days_from_civil 2024 1 10 - days_from_civil 2024 1 6 + 1).
Proof.
destruct (@computeStreakFromQuit_next_day utc "u1" "2024-01-01" "2024-01-10" "2024-01-11"
            world1
            (@computeStreakFromQuit utc "u1" (Some "2024-01-01") "2024-01-10" world1).2
            (@computeStreakFromQuit utc "u1" (Some "2024-01-01") "2024-01-11" world1).2
            {| current_streak_days := int 4;
               streak_start_date := Some "2024-01-06";
               last_slip_date := Some "2024-01-05" |}
            {| current_streak_days := int 5;
               streak_start_date := Some "2024-01-06";
               last_slip_date := Some "2024-01-05" |}
            (days_from_civil 2024 1 6) (days_from_civil 2024 1 10))
  as (_ & _ & _ & Hc);
  [ discriminate | vm_compute; reflexivity | vm_compute; reflexivity
  | vm_compute; reflexivity | vm_compute; reflexivity | vm_compute; reflexivity
  | vm_compute; reflexivity | vm_compute; discriminate | exact Hc ].
Defined.

(** ** Daily logs: what is written, read back and counted *)

Section LogRoundTrip.
Context `{Runtime}.

Lemma logsOf_elem uid w d :
  d ∈ logsOf uid w ↔ ∃ day, dailyLogs w !! (uid, day) = Some d.
Proof.
  unfold logsOf. rewrite list_elem_of_fmap. split.
  - intros ([[u day] d'] & -> & Hin). simpl.
    apply list_elem_of_filter in Hin as [Hu Hin]. simpl in Hu. subst u.
    exists day. by apply elem_of_map_to_list in Hin.
  - intros [day Hd]. exists ((uid, day), d). split; [done|].
    apply list_elem_of_filter. split; [done|]. by apply elem_of_map_to_list.
Qed.

(** X11.  After a successful [upsertDailyLog], [getDailyLog] of that day
    returns the normalised entry under the day as its id; every other day
    of every user reads as before the write; reading writes nothing. *)
Theorem getDailyLog_after_upsert (uid day : string) (data : option LogInput)
    (w w1 : World) (r : bool) :
  upsertDailyLog uid day data w = (Ok r, w1) →
  nextFault w1 = None →
  (getDailyLog uid day w1).1 = Ok (Some (day, normalized day data))
  ∧ (∀ u' d', (u', d') ≠ (uid, day) →
       (getDailyLog u' d' w1).1 = (getDailyLog u' d' (with_faults [] w)).1)
  ∧ dailyLogs (getDailyLog uid day w1).2 = dailyLogs w1.
Proof.
  intros Hu Hn. apply upsertDailyLog_ok in Hu as (_ & _ & Hd).
  unfold getDailyLog, read, external. rewrite Hn. simpl.
  split; [by rewrite Hd, lookup_insert_eq|]. split; [|done].
  intros u' d' Hne. rewrite Hd, lookup_insert_ne by done. done.
Qed.

(** X12.  A day saved with a positive cigarette count, between the quit
    date and today, is a slip for the streak calculator whatever
    [smoke_free] the caller sent: the next successful computation has a
    last slip on that day or later. *)
Theorem upsertDailyLog_slip_detected (uid day q today : string) (data : option LogInput)
    (w w1 w2 : World) (r : bool) (s : Streak) :
  upsertDailyLog uid day data w = (Ok r, w1) →
  is_pos (ToNumber (nullish (input_field data in_cigarettes_smoked) (JNumber (int 0)))) = true →
  q ≠ EmptyString → String.leb q day = true → String.leb day today = true →
  computeStreakFromQuit uid (Some q) today w1 = (Ok s, w2) →
  ∃ d, last_slip_date s = Some d ∧ String.leb day d = true.
Proof.
  intros Hu Hpos Hq Hlo Hhi Hc. apply upsertDailyLog_ok in Hu as (_ & _ & Hd).
  destruct (computeStreakFromQuit_shape uid q today w1 w2 s Hq Hc) as (Hnone & Hsome & _).
  assert (Hin : day ∈ slipDates q today (logsOf uid w1)).
  { unfold slipDates. apply list_elem_of_fmap. exists (normalized day data).
    split; [done|]. apply list_elem_of_In, filter_In. split.
    - apply list_elem_of_In, logsOf_elem. exists day. by rewrite Hd, lookup_insert_eq.
    - unfold isSlip, normalized. cbn [smoke_free cigarettes_smoked date gt_zero in_range].
      rewrite Hpos, Hlo, Hhi. by rewrite orb_true_r. }
  destruct (last_slip_date s) as [d|] eqn:El.
  - exists d. split; [done|]. destruct (Hsome d eq_refl) as (_ & Hmax & _). by apply Hmax.
  - destruct (Hnone eq_refl) as [Hnil _]. rewrite Hnil in Hin. by apply elem_of_nil in Hin.
Qed.

(** X13.  Every entry the daily-log page saves satisfies the invariant in
    both directions: the stored count is the number of the form field (0
    when the field is empty) and [smoke_free] is true exactly when that
    count is 0. *)
Theorem save_keeps_invariant (uid day : string) (form_cigarettes_smoked : value)
    (w w1 : World) (r : bool) :
  save uid day form_cigarettes_smoked w = (Ok r, w1) →
  ∃ n, dailyLogs w1 !! (uid, day)
       = Some {| date := JString day; cigarettes_smoked := JNumber n;
                 smoke_free := JBool (is_zero n) |}
       ∧ n = ToNumber (or_else form_cigarettes_smoked (JNumber (int 0))).
Proof.
  unfold save. intros Hu. apply upsertDailyLog_ok in Hu as (_ & _ & ->).
  rewrite lookup_insert_eq. eexists. split; [|reflexivity].
  unfold normalized, payload, input_field. cbn [in_cigarettes_smoked in_smoke_free nullish ToNumber].
  by rewrite andb_diag.
Qed.
End LogRoundTrip.

Lemma getDailyLog_after_upsert_witness :
(getDailyLog "u1" "2024-01-08"
   (@upsertDailyLog utc "u1" "2024-01-08"
      (Some {| in_cigarettes_smoked := JNumber (int 3); in_smoke_free := JBool true |})
      world1).2).1
= Ok (Some ("2024-01-08",
            @normalized utc "2024-01-08"
              (Some {| in_cigarettes_smoked := JNumber (int 3);
                       in_smoke_free := JBool true |}))).
Proof.
refine (proj1 (@getDailyLog_after_upsert utc "u1" "2024-01-08" _ world1 _ true _ _));
  vm_compute; reflexivity.
Defined.

Lemma upsertDailyLog_slip_detected_witness :
∃ d, Some "2024-01-08" = Some d ∧ String.leb "2024-01-08" d = true.
Proof.
apply (@upsertDailyLog_slip_detected utc "u1" "2024-01-08" "2024-01-01" "2024-01-10"
         (Some {| in_cigarettes_smoked := JNumber (int 3); in_smoke_free := JBool true |})
         world1
         (@upsertDailyLog utc "u1" "2024-01-08"
            (Some {| in_cigarettes_smoked := JNumber (int 3); in_smoke_free := JBool true |})
            world1).2
         (@computeStreakFromQuit utc "u1" (Some "2024-01-01") "2024-01-10"
            (@upsertDailyLog utc "u1" "2024-01-08"
               (Some {| in_cigarettes_smoked := JNumber (int 3);
                        in_smoke_free := JBool true |})
               world1).2).2
         true
         {| current_streak_days := int 1;
            streak_start_date := Some "2024-01-09";
            last_slip_date := Some "2024-01-08" |}).
- vm_compute; reflexivity.
- vm_compute; reflexivity.
- discriminate.
- vm_compute; reflexivity.
- vm_compute; reflexivity.
- vm_compute; reflexivity.
Defined.

Lemma save_keeps_invariant_witness :
∃ n, dailyLogs (@save utc "u1" "2024-01-08" (JNumber (int 3)) world1).2
       !! ("u1", "2024-01-08")
     = Some {| date := JString "2024-01-08"; cigarettes_smoked := JNumber n;
               smoke_free := JBool (is_zero n) |}.
Proof.
destruct (@save_keeps_invariant utc "u1" "2024-01-08" (JNumber (int 3)) world1
            (@save utc "u1" "2024-01-08" (JNumber (int 3)) world1).2 true)
  as (n & Hl & _); [vm_compute; reflexivity|].
exists n. exact Hl.
Defined.

(** ** The notification card *)

Section Cards.

(** X14.  [createAndPushNotification] stores at most one card, for the
    signed-in user, with the defaults for an empty title or type.  When it
    returns, the card is stored and the result is its id; signed out, it
    throws before any call; without a push to send, a throw means no card
    was stored.  It never touches the badges. *)
Theorem createAndPushNotification_one_card (title body type b : string) (push : bool)
    (w : World) :
  let r := createAndPushNotification title body type b push w in
  let stored := notifications w
                  ++ [(default EmptyString (currentUser w),
                       card title body type b (clock w + 1))] in
  (notifications r.2 = notifications w ∨ notifications r.2 = stored)
  ∧ (∀ n, r.1 = Ok n → n = length (notifications w) ∧ notifications r.2 = stored)
  ∧ (missing (currentUser w) = true →
     r.1 = Throw {| code := ""; message := "No authenticated user" |}
     ∧ faults r.2 = faults w ∧ notifications r.2 = notifications w)
  ∧ (isNativePlatform w = false ∨ push = false →
     ∀ e, r.1 = Throw e → notifications r.2 = notifications w)
  ∧ badges r.2 = badges w.
Proof.
  unfold createAndPushNotification, card; unfold_calls.
  destruct w as [cu cl us dl bd ch lb nt inf nat tok fl tr]; simpl.
  destruct cu as [u|]; simpl; [destruct (u =? "")%string eqn:Eu; simpl|].
  all: next_fault fl.
  all: destruct push, nat; simpl.
  all: try next_fault fl.
  all: try (destruct tok as [tk|]; simpl; try destruct (tk =? "")%string; simpl).
  all: try next_fault fl.
  all: repeat split; auto; try done; try (by intros [?|?]); try (intros; by simplify_eq).
Qed.
End Cards.

(** ** Reading after an unlock *)

Section UnlockThenRead.

(** X15.  After a call of [unlock] that reached the transaction the badge
    has a record, whatever happened to the notifications: [isUnlocked]
    answers true, and a badge created by this call is in the list of
    [getUnlockedBadges]. *)
Theorem unlock_then_isUnlocked (u b : string) (w : World) :
  u ≠ EmptyString → b ≠ EmptyString → b ∉ inFlightUnlocks w → nextFault w = None →
  let w1 := (unlock (Some u) (Some b) w).2 in
  is_Some (badges w1 !! (u, b))
  ∧ (nextFault w1 = None → (isUnlocked u b w1).1 = Ok true)
  ∧ (badges w !! (u, b) = None → nextFault w1 = None →
     ∀ rows, (getUnlockedBadges u None w1).1 = Ok rows →
             (b, newBadge (clock w + 1)) ∈ rows).
Proof.
  intros Hu Hb Hin Hn w1. subst w1.
  pose proof (unlock_reaching_transaction u b w Hu Hb Hin Hn) as Hc. cbv zeta in Hc.
  assert (Hs : is_Some (badges (unlock (Some u) (Some b) w).2 !! (u, b))).
  { destruct (badges w !! (u, b)) as [d|] eqn:Ed.
    - destruct Hc as (_ & -> & _). rewrite Ed. eauto.
    - destruct Hc as (_ & -> & _). rewrite lookup_insert_eq. eauto. }
  split; [done|]. split.
  - intros Hn1. rewrite (isUnlocked_ok u b _ Hn1). simpl. f_equal.
    by apply bool_decide_eq_true_2.
  - intros Hnone Hn1 rows Hr. rewrite Hnone in Hc. destruct Hc as (_ & Hb1 & _).
    apply (getUnlockedBadges_all u _ rows b _ Hn1 Hr); [|by eexists].
    by rewrite Hb1, lookup_insert_eq.
Qed.
End UnlockThenRead.

Lemma unlock_then_isUnlocked_witness :
(isUnlocked "u1" "streak1" (unlock (Some "u1") (Some "streak1") world1).2).1 = Ok true.
Proof.
destruct (unlock_then_isUnlocked "u1" "streak1" world1) as (_ & H2 & _);
  [discriminate | discriminate | apply not_elem_of_empty | reflexivity |].
apply H2. vm_compute. reflexivity.
Defined.

(** ** What a pass writes and what it reports *)

Section PassWrites.
Context `{Runtime}.

(** One iteration leaves the stored badges alone or adds the record of its
  own badge, and only when the condition holds. *)
Lemma iteration_adds u acc id chk w k d :
badges (iteration u acc (id, chk) w).2 !! k = Some d →
badges w !! k = Some d
∨ (badges w !! k = None ∧ k = (u, id) ∧ chk = true ∧ ∃ t, d = newBadge t).
Proof.
unfold iteration, catch, mbind, M_bind, mret, M_ret, isUnlocked, read, external.
destruct (nextFault w) as [e|]; simpl.
{ destruct (isPermissionError e); simpl; auto. }
destruct (negb _ && chk) eqn:Hc; simpl; [|auto].
apply andb_true_iff in Hc as [_ ->].
pose proof (unlock_effect (Some u) (Some id) (called (EvRead "badges") w)) as He.
simpl in He.
destruct (unlock (Some u) (Some id) (called (EvRead "badges") w)) as [[r|e] w1];
  cbn [fst snd] in *.
2: destruct (isPermissionError e); cbn [fst snd].
all: intros Hk; change (badges _ !! k = Some d) with (badges w1 !! k = Some d) in Hk.
all: destruct He as [(Hb & _)|(Hn & Hb & _)]; rewrite Hb in Hk; [by left|].
all: destruct (decide (k = (u, id))) as [->|Hne];
  [ rewrite lookup_insert_eq in Hk; injection Hk as <-; right; eauto 6
  | rewrite lookup_insert_ne in Hk by done; by left ].
Qed.

Lemma iterations_add u entries acc w k d :
badges (iterations u entries acc w).2 !! k = Some d →
badges w !! k = Some d
∨ (badges w !! k = None ∧ ∃ id t, k = (u, id) ∧ (id, true) ∈ entries ∧ d = newBadge t).
Proof.
revert acc w. induction entries as [|[id chk] rest IH]; intros acc w; cbn [iterations].
{ by left. }
unfold mbind, M_bind.
pose proof (iteration_adds u acc id chk w k) as Hone.
pose proof (iteration_keeps_records u acc (id, chk) w k) as Hkeep.
destruct (iteration u acc (id, chk) w) as [[r|e] w1]; cbn [fst snd] in *.
- assert (Hstep : ∀ d0, badges w1 !! k = Some d0 →
                    badges w !! k = Some d0
                    ∨ (badges w !! k = None
                       ∧ ∃ id0 t, k = (u, id0) ∧ (id0, true) ∈ (id, chk) :: rest
                                  ∧ d0 = newBadge t)).
  { intros d0 Hd0. destruct (Hone d0 Hd0) as [?|(Hn & -> & -> & t & ->)]; [by left|].
    right. split; [done|]. exists id, t. split; [done|]. split; [apply list_elem_of_here|done]. }
  destruct r as [l|l]; [|by apply Hstep].
  intros Hk. destruct (IH l w1 Hk) as [Hd1|(Hn1 & id1 & t & -> & Hin & ->)]; [by apply Hstep|].
  right. split.
  + destruct (badges w !! (u, id1)) as [d0|] eqn:Hw; [|done].
    specialize (Hkeep d0 eq_refl). congruence.
  + exists id1, t. split; [done|]. split; [by apply list_elem_of_further|done].
- intros Hk. destruct (Hone d Hk) as [?|(Hn & -> & -> & t & ->)]; [by left|].
  right. split; [done|]. exists id, t. split; [done|]. split; [apply list_elem_of_here|done].
Qed.

(** X16.  A pass never changes or removes a stored badge.  A record it adds
  belongs to the signed-in user the pass was called for, is a fresh
  [{unlockedAt, seen: false}], and carries the id of a condition that
  holds on the snapshot this pass has read. *)
Theorem evaluate_adds_earned_badges (uid : option string) (w : World) :
let w' := (evaluateAndUnlockBadges uid w).2 in
(∀ k d, badges w !! k = Some d → badges w' !! k = Some d)
∧ (∀ k d, badges w !! k = None → badges w' !! k = Some d →
     missing uid = false ∧ uid = curUid w
     ∧ ∃ id t snap w1,
         k = (default EmptyString uid, id) ∧ d = newBadge t
         ∧ snapshot (default EmptyString uid) w = (Ok (inr snap), w1)
         ∧ (id, true) ∈ conditions snap).
Proof.
cbv zeta.
assert (Hmain : ∀ k d, badges (evaluateAndUnlockBadges uid w).2 !! k = Some d →
          badges w !! k = Some d
          ∨ (badges w !! k = None ∧ missing uid = false ∧ uid = curUid w
             ∧ ∃ id t snap w1,
                 k = (default EmptyString uid, id) ∧ d = newBadge t
                 ∧ snapshot (default EmptyString uid) w = (Ok (inr snap), w1)
                 ∧ (id, true) ∈ conditions snap)).
{ intros k d. unfold evaluateAndUnlockBadges, mbind, M_bind, gets.
  destruct (missing uid || negb (bool_decide (uid = curUid w))) eqn:Hg.
  { by left. }
  apply orb_false_iff in Hg as [Hm Hu]. apply negb_false_iff, bool_decide_eq_true in Hu.
  unfold catch. cbv beta.
  pose proof (keeps_snapshot (default EmptyString uid) w) as Hk.
  destruct (snapshot (default EmptyString uid) w) as [[[l0|snap]|e] w1] eqn:Hs;
    cbv beta iota; cbn [fst snd] in *.
  - intros Hd. change (badges w1 !! k = Some d) in Hd. rewrite Hk in Hd. by left.
  - pose proof (iterations_add (default EmptyString uid) (conditions snap) [] w1 k d) as Hit.
    destruct (iterations (default EmptyString uid) (conditions snap) [] w1)
      as [[l1|e] w2]; cbv beta iota; cbn [fst snd] in *.
    2: destruct (isPermissionError e); cbv beta iota; cbn [fst snd].
    all: intros Hd; change (badges _ !! k = Some d) with (badges w2 !! k = Some d) in Hd.
    all: destruct (Hit Hd) as [Hl|(Hn & id & t & -> & Hin & ->)];
      rewrite Hk in *; [by left|].
    all: right; split; [done|]; split; [done|]; split; [done|];
      exists id, t, snap, w1; done.
  - destruct (isPermissionError e); cbv beta iota; cbn [fst snd].
    all: intros Hd; change (badges _ !! k = Some d) with (badges w1 !! k = Some d) in Hd.
    all: rewrite Hk in Hd; by left. }
split.
- intros k d Hk.
  destruct (badges (evaluateAndUnlockBadges uid w).2 !! k) as [d'|] eqn:Hd.
  + destruct (Hmain k d' Hd) as [?|(? & _)]; congruence.
  + exfalso. revert Hd. unfold evaluateAndUnlockBadges, mbind, M_bind, gets.
    destruct (missing uid || negb (bool_decide (uid = curUid w))); [cbn; congruence|].
    unfold catch. cbv beta.
    pose proof (keeps_snapshot (default EmptyString uid) w) as Hks.
    destruct (snapshot (default EmptyString uid) w) as [[[l0|snap]|e] w1];
      cbv beta iota; cbn [fst snd] in *.
    * intros Hd. change (badges w1 !! k = None) in Hd. congruence.
    * assert (Hkeep : ∀ entries acc w0, badges w0 !! k = Some d →
                        badges (iterations (default EmptyString uid) entries acc w0).2 !! k
                        = Some d).
      { induction entries as [|[id chk] rest IH]; intros acc w0 H0; cbn [iterations]; [done|].
        unfold mbind, M_bind.
        pose proof (iteration_keeps_records (default EmptyString uid) acc (id, chk) w0 k d H0)
          as H1.
        destruct (iteration _ acc (id, chk) w0) as [[[l|l]|e] w2]; cbn [fst snd] in *;
          [by apply IH|done|done]. }
      rewrite <- Hks in Hk. specialize (Hkeep (conditions snap) [] w1 Hk).
      destruct (iterations _ (conditions snap) [] w1) as [[l1|e] w2];
        cbv beta iota; cbn [fst snd] in *; [congruence|].
      destruct (isPermissionError e); cbv beta iota; cbn [fst snd];
        intros Hd; change (badges _ !! k = None) with (badges w2 !! k = None) in Hd;
        congruence.
    * destruct (isPermissionError e); cbv beta iota; cbn [fst snd];
        intros Hd; change (badges _ !! k = None) with (badges w1 !! k = None) in Hd;
        congruence.
- intros k d Hn Hd. destruct (Hmain k d Hd) as [?|(_ & ? & ? & ?)]; [congruence|done].
Qed.

(** X17.  The loop reports a badge without looking at what [unlock]
  returned.  For a badge with no record whose condition holds: when the
  badge is in flight, or the transaction is answered with
  [already-exists], the id is pushed although nothing was written and
  nothing was notified; otherwise the id is pushed and the record
  exists. *)
Theorem iteration_reports_unchecked (u id : string) (acc : list string) (w : World) :
u ≠ EmptyString → id ≠ EmptyString →
nextFault w = None → badges w !! (u, id) = None →
let w0 := called (EvRead "badges") w in
let r := iteration u acc (id, true) w in
(id ∈ inFlightUnlocks w →
   r.1 = Ok (Next (acc ++ [id])) ∧ r.2 = w0)
∧ (id ∉ inFlightUnlocks w → ∀ e, nextFault w0 = Some e → code e = "already-exists" →
   r.1 = Ok (Next (acc ++ [id])) ∧ badges r.2 = badges w
   ∧ notifications r.2 = notifications w
   ∧ trace r.2 = trace w0 ++ [EvTransaction u id])
∧ (id ∉ inFlightUnlocks w → nextFault w0 = None →
   r.1 = Ok (Next (acc ++ [id]))
   ∧ badges r.2 !! (u, id) = Some (newBadge (clock w + 2))).
Proof.
intros Hu Hid Hn Hb w0 r.
pose proof (present_ids u id Hu Hid) as Hm.
assert (Hr : r = match (unlock (Some u) (Some id) w0).1 with
                 | Ok _ => (Ok (Next (acc ++ [id])), (unlock (Some u) (Some id) w0).2)
                 | Throw e =>
                     (if isPermissionError e then mret (Return acc)
                      else _ ← warn ("Condition " ++ id ++ " evaluation failed:");
                           mret (Next acc)) (unlock (Some u) (Some id) w0).2
                 end).
{ subst r w0. unfold iteration, catch, mbind, M_bind, mret, M_ret, isUnlocked, read, external.
  rewrite Hn. cbn [fst snd].
  change (badges (called (EvRead "badges") w)) with (badges w). rewrite Hb.
  cbn [negb andb bool_decide decide_rel].
  replace (bool_decide (is_Some (@None BadgeDoc))) with false
    by (symmetry; apply bool_decide_eq_false; by intros [? ?]).
  cbn [negb andb].
  by destruct (unlock _ _ _) as [[?|?] ?]. }
assert (Hb0 : badges w0 !! (u, id) = None) by done.
assert (Hi0 : inFlightUnlocks w0 = inFlightUnlocks w) by done.
clearbody r. subst r.
destruct (unlock_outcome (Some u) (Some id) w0)
  as [Hm'|Hm' Hin|e w' _ Hin Hn' F N T|w' _ Hin Hn' Hs F N T|w' t _ Hin Hn' _ B I T Q];
  simpl in *; rewrite ?Hi0 in *.
- congruence.
- split; [done|]. split; intros Hout; by destruct Hout.
- split; [done|]. split; [|intros _ Hnone; congruence].
  intros _ e' He' Hcode. rewrite Hn' in He'. injection He' as <-.
  rewrite Hcode. simpl. destruct F as [Fb _ _]. rewrite Fb. done.
- destruct Hs as [d Hd]. congruence.
- split; [done|]. split; [intros _ e He; congruence|].
  intros _ _. split; [done|]. rewrite B, lookup_insert_eq. do 2 f_equal. lia.
Qed.
End PassWrites.

Lemma iteration_reports_unchecked_witness :
let w := with_inFlight {[ "streak1" ]} world1 in
(iteration "u1" [] ("streak1", true) w).1 = Ok (Next ["streak1"])
∧ badges (iteration "u1" [] ("streak1", true) w).2 = ∅.
Proof.
intros w.
destruct (iteration_reports_unchecked "u1" "streak1" [] w) as (H1 & _);
[discriminate | discriminate | reflexivity | reflexivity |].
destruct H1 as [Hr Hw]; [vm_compute; reflexivity|].
split; [exact Hr|]. by rewrite Hw.
Defined.
